(** * ETH options monitor: anomaly scoring, cooldown gate and threshold backtesting

    A shallow embedding of the JavaScript sources

      - [dataCollector.js]   ([parseExpiryTimestamp], [getTimeToExpiry],
                              the element built by [collectMarketSnapshot]),
      - [state.js]           ([shouldSendAlert], [recordAlertSent],
                              [getAlertHistory], [updateMonitorStatus]),
      - [advancedMonitor.js] ([updateThresholds], [calculateAdvancedStats],
                              [calculateStdDev], [detectHighProbabilityAlerts],
                              [monitorOptionsAdvanced]),
      - [backtester.js]      (class [Backtester]),
      - [backtestRunner.js]  ([runBacktestingAnalysis]),
      - [historicalAnalysis.js] ([calculateStats], [detectAlerts],
                              [runHistoricalAnalysis]),
      - [monitor.js]         ([parseExpiryDate], [calculateExpiryStats],
                              [detectIrregularities]),
      - [emailService.js]    (the counts of [sendAlertEmail]),

    followed by the properties of the specification that were checked
    against them.

    Conventions of the embedding.

    - A JavaScript number that carries a price, a volume, a z-score or a
      score is an exact rational ([Q]), compared with [==]; rounding,
      infinities and [NaN] of the floating-point numbers are left out,
      except where the code divides by a reference price that may be 0.
      The result of [parseInt], [Date.UTC] and [Date.prototype.getTime]
      is an integer or [NaN] ([jsnum]).
    - [Math.sqrt] is a parameter of the development: a theorem holds for
      every square-root function that meets the hypotheses it states, and
      the concrete examples use [sqrt_floor], which is exact on the
      squares of rationals.
    - A string that reaches the program from outside (an instrument
      name, an environment variable) is the list of its UTF-16 code
      units ([JSString.t]), so that [split], [slice] and [parseInt] see
      what they see in JavaScript, white space outside ASCII included; a
      string that the program prints from numbers (a date, a cohort
      key) is a [string].
    - [Date.now()] is an explicit argument, the process-wide state and
      [process.env] are passed explicitly, [console.log] is dropped.
    - An object used as a dictionary whose enumeration order matters
      ([expiryGroups]) is an association list in insertion order; one
      that is only read by key ([expiryStats], [lastAlertTime]) is a
      [gmap].  The keys are cohort keys, ISO calendar dates, none of
      which is the name of a property inherited from [Object.prototype]
      or an array index; in [monitor.js], where a key is a segment of a
      symbol as it comes, the inherited names are part of the model.
    - [Array.prototype.sort] is the stable sort of ECMAScript 2019. *)

From stdpp Require Import gmap strings.
From Stdlib Require Import ZArith QArith Qabs Qround Qminmax Qpower Lqa Lia.
From Stdlib Require Import Strings.String Strings.Ascii Lists.List.
From Stdlib Require Import Sorting.Sorted.
Import ListNotations.

Local Open Scope string_scope.
Local Open Scope Z_scope.

(** ** JavaScript primitives *)

(** An integral JavaScript number or [NaN]. *)
Inductive jsnum : Type :=
| JNum (z : Z)
| JNaN.

Definition jsnum_add (a b : jsnum) : jsnum :=
  match a, b with
  | JNum x, JNum y => JNum (x + y)
  | _, _ => JNaN
  end.

(** [!v] for a value that is [null] ([None]), [NaN] or a number:
    [null], [NaN] and [0] are falsy. *)
Definition truthy (v : option jsnum) : option Z :=
  match v with
  | Some (JNum z) => if z =? 0 then None else Some z
  | _ => None
  end.

Module JSString.

(** A JavaScript string that reaches the program from outside (an
    instrument name, an environment variable) is the sequence of its
    UTF-16 code units. *)
Definition t : Type := list Z.

(** The string that an ASCII literal denotes. *)
Definition lit (s : string) : t :=
  List.map (fun c => Z.of_nat (nat_of_ascii c)) (list_ascii_of_string s).

(** [a === b] for two strings. *)
Definition eqb (a b : t) : bool := if list_eq_dec Z.eq_dec a b then true else false.

(** [s.split(sep)] for a separator of one code unit. *)
Fixpoint split (sep : Z) (s : t) : list t :=
  match s with
  | [] => [[]]
  | c :: rest =>
      if c =? sep then [] :: split sep rest
      else match split sep rest with
           | hd :: tl => (c :: hd) :: tl
           | [] => [[c]]
           end
  end.

(** The clamping of a relative index of [slice]. *)
Definition rel_index (len i : Z) : Z :=
  if i <? 0 then Z.max (len + i) 0 else Z.min i len.

(** [s.slice(start, end)]; [end_ = None] is the one-argument form. *)
Definition slice (s : t) (start : Z) (end_ : option Z) : t :=
  let len := Z.of_nat (List.length s) in
  let from := rel_index len start in
  let to := match end_ with Some e => rel_index len e | None => len end in
  let span := Z.max (to - from) 0 in
  List.firstn (Z.to_nat span) (List.skipn (Z.to_nat from) s).

(** The code units that [parseInt] skips at the start: WhiteSpace (TAB,
    VT, FF, ZWNBSP and the space separators of Unicode, category Zs) and
    LineTerminator (LF, CR, LS, PS). *)
Definition is_white_space (c : Z) : bool :=
  ((9 <=? c) && (c <=? 13))
  || (c =? 32) || (c =? 160) || (c =? 5760)
  || ((8192 <=? c) && (c <=? 8202))
  || (c =? 8232) || (c =? 8233) || (c =? 8239) || (c =? 8287)
  || (c =? 12288) || (c =? 65279).

Fixpoint skip_white_space (s : t) : t :=
  match s with
  | c :: rest => if is_white_space c then skip_white_space rest else s
  | [] => s
  end.

(** The value of a code unit as a digit, in any radix up to 36. *)
Definition digit_value (c : Z) : option Z :=
  if (48 <=? c) && (c <=? 57) then Some (c - 48)
  else if (97 <=? c) && (c <=? 122) then Some (c - 87)
  else if (65 <=? c) && (c <=? 90) then Some (c - 55)
  else None.

(** The longest prefix of digits of the radix, read as a number;
    [None] when that prefix is empty. *)
Fixpoint parse_digits (radix : Z) (s : t) (acc : option Z) : option Z :=
  match s with
  | [] => acc
  | c :: rest =>
      match digit_value c with
      | Some d =>
          if d <? radix
          then parse_digits radix rest
                 (Some (match acc with Some a => a * radix + d | None => d end))
          else acc
      | None => acc
      end
  end.

(** A leading ["-"] (45) or ["+"] (43). *)
Definition strip_sign (s : t) : Z * t :=
  match s with
  | 45 :: rest => (-1, rest)
  | 43 :: rest => (1, rest)
  | _ => (1, s)
  end.

(** A leading ["0x"] or ["0X"] (48, then 120 or 88). *)
Definition strip_hex_prefix (s : t) : Z * t :=
  match s with
  | 48 :: 120 :: rest => (16, rest)
  | 48 :: 88 :: rest => (16, rest)
  | _ => (10, s)
  end.

(** [parseInt(s)] without a radix argument. *)
Definition parseInt (s : t) : jsnum :=
  let '(sign, s1) := strip_sign (skip_white_space s) in
  let '(radix, s2) := strip_hex_prefix s1 in
  match parse_digits radix s2 None with
  | Some n => JNum (sign * n)
  | None => JNaN
  end.

(** [s.includes(c)] for a string [c] of one code unit. *)
Fixpoint includes (s : t) (c : Z) : bool :=
  match s with
  | [] => false
  | a :: rest => (a =? c) || includes rest c
  end.

(** [s.endsWith(suffix)]. *)
Definition endsWith (s suffix : t) : bool :=
  let n := List.length s in
  let m := List.length suffix in
  (m <=? n)%nat && eqb (List.skipn (n - m) s) suffix.

End JSString.

(** ** Strings that the program prints

    A string that the program builds from numbers (a date, a cohort
    key) consists of ASCII characters and is a [string]. *)

Module JSAscii.

(** [s.split(sep)] for a separator of one character. *)
Fixpoint split (sep : ascii) (s : string) : list string :=
  match s with
  | EmptyString => [EmptyString]
  | String c rest =>
      if Ascii.eqb c sep then EmptyString :: split sep rest
      else match split sep rest with
           | hd :: tl => String c hd :: tl
           | [] => [String c EmptyString]
           end
  end.

(** A non-negative integer in exactly [width] decimal digits. *)
Fixpoint digits (width : nat) (z : Z) : string :=
  match width with
  | O => EmptyString
  | S w =>
      String.append (digits w (z / 10))
        (String (ascii_of_nat (48 + Z.to_nat (z mod 10))) EmptyString)
  end.

End JSAscii.

(** ** Dates (ECMAScript time values, milliseconds since the epoch) *)

Module JSDate.

Definition msPerDay : Z := 86400000.
Definition msPerHour : Z := 3600000.
Definition msPerMinute : Z := 60000.
Definition msPerSecond : Z := 1000.

Definition DayFromYear (y : Z) : Z :=
  365 * (y - 1970) + (y - 1969) / 4 - (y - 1901) / 100 + (y - 1601) / 400.

Definition InLeapYear (y : Z) : bool :=
  ((y mod 4 =? 0) && negb (y mod 100 =? 0)) || (y mod 400 =? 0).

(** Days before the first of month [m] (0 = January) within a year. *)
Definition DaysBeforeMonth (leap : bool) (m : Z) : Z :=
  let l := if leap then 1 else 0 in
  match m with
  | 0 => 0 | 1 => 31 | 2 => 59 + l | 3 => 90 + l | 4 => 120 + l
  | 5 => 151 + l | 6 => 181 + l | 7 => 212 + l | 8 => 243 + l
  | 9 => 273 + l | 10 => 304 + l | _ => 334 + l
  end.

(** [MakeDay(year, month, date)] on integers. *)
Definition MakeDay (year month date : Z) : Z :=
  let ym := year + month / 12 in
  let mn := month mod 12 in
  DayFromYear ym + DaysBeforeMonth (InLeapYear ym) mn + date - 1.

Definition MakeTime (hour min sec ms : Z) : Z :=
  hour * msPerHour + min * msPerMinute + sec * msPerSecond + ms.

Definition MakeDate (day time : Z) : Z := day * msPerDay + time.

Definition TimeClip (t : Z) : jsnum :=
  if 8640000000000000 <? Z.abs t then JNaN else JNum t.

(** [Date.UTC(year, month, day, hours, minutes, seconds)]. *)
Definition UTC (year month day : jsnum) (hours minutes seconds : Z) : jsnum :=
  match year, month, day with
  | JNum y, JNum m, JNum dt =>
      let yr := if (0 <=? y) && (y <=? 99) then 1900 + y else y in
      TimeClip (MakeDate (MakeDay yr m dt) (MakeTime hours minutes seconds 0))
  | _, _, _ => JNaN
  end.

(** [new Date(tv).getTime()]. *)
Definition getTime (tv : jsnum) : jsnum :=
  match tv with
  | JNum t => TimeClip t
  | JNaN => JNaN
  end.

Definition Day (t : Z) : Z := t / msPerDay.
Definition TimeWithinDay (t : Z) : Z := t mod msPerDay.

(** The civil date (year, month 1..12, day 1..31) of a day number. *)
Definition civil_from_days (days : Z) : Z * Z * Z :=
  let z := days + 719468 in
  let era := z / 146097 in
  let doe := z - era * 146097 in
  let yoe := (doe - doe / 1460 + doe / 36524 - doe / 146096) / 365 in
  let doy := doe - (365 * yoe + yoe / 4 - yoe / 100) in
  let mp := (5 * doy + 2) / 153 in
  let d := doy - (153 * mp + 2) / 5 + 1 in
  let m := if mp <? 10 then mp + 3 else mp - 9 in
  let y := yoe + era * 400 + (if m <=? 2 then 1 else 0) in
  (y, m, d).

Definition year_string (y : Z) : string :=
  if (0 <=? y) && (y <=? 9999) then JSAscii.digits 4 y
  else String.append (if y <? 0 then "-" else "+") (JSAscii.digits 6 (Z.abs y)).

(** [new Date(t).toISOString()] for a valid time value [t]. *)
Definition toISOString (t : Z) : string :=
  let '(y, m, d) := civil_from_days (Day t) in
  let w := TimeWithinDay t in
  String.concat ""
    [ year_string y; "-"; JSAscii.digits 2 m; "-"; JSAscii.digits 2 d; "T";
      JSAscii.digits 2 (w / msPerHour); ":";
      JSAscii.digits 2 (w mod msPerHour / msPerMinute); ":";
      JSAscii.digits 2 (w mod msPerMinute / msPerSecond); ".";
      JSAscii.digits 3 (w mod msPerSecond); "Z" ].

End JSDate.

(** ** dataCollector.js *)

Definition monthMap (monthStr : JSString.t) : option Z :=
  if JSString.eqb monthStr (JSString.lit "JAN") then Some 0
  else if JSString.eqb monthStr (JSString.lit "FEB") then Some 1
  else if JSString.eqb monthStr (JSString.lit "MAR") then Some 2
  else if JSString.eqb monthStr (JSString.lit "APR") then Some 3
  else if JSString.eqb monthStr (JSString.lit "MAY") then Some 4
  else if JSString.eqb monthStr (JSString.lit "JUN") then Some 5
  else if JSString.eqb monthStr (JSString.lit "JUL") then Some 6
  else if JSString.eqb monthStr (JSString.lit "AUG") then Some 7
  else if JSString.eqb monthStr (JSString.lit "SEP") then Some 8
  else if JSString.eqb monthStr (JSString.lit "OCT") then Some 9
  else if JSString.eqb monthStr (JSString.lit "NOV") then Some 10
  else if JSString.eqb monthStr (JSString.lit "DEC") then Some 11
  else None.

(** The three pieces cut out of the expiry segment, e.g. ["7NOV25"]. *)
Definition dayPart (expiryStr : JSString.t) : JSString.t :=
  JSString.slice expiryStr 0 (Some (-5)).
Definition monthPart (expiryStr : JSString.t) : JSString.t :=
  JSString.slice expiryStr (-5) (Some (-2)).
Definition yearPart (expiryStr : JSString.t) : JSString.t :=
  JSString.slice expiryStr (-2) None.

(** [parseExpiryTimestamp(instrumentName)]: [None] is [null].  The
    separator is ["-"], code unit 45. *)
Definition parseExpiryTimestamp (instrumentName : JSString.t) : option jsnum :=
  match JSString.split 45 instrumentName with
  | _ :: expiryStr :: _ =>
      let day := JSString.parseInt (dayPart expiryStr) in
      let monthStr := monthPart expiryStr in
      let year := jsnum_add (JNum 2000) (JSString.parseInt (yearPart expiryStr)) in
      match monthMap monthStr with
      | None => None
      | Some month =>
          Some (JSDate.getTime (JSDate.UTC year (JNum month) day 8 0 0))
      end
  | _ => None
  end.

(** [new Date(expiryTimestamp).toISOString().split('T')[0]]. *)
Definition expiryKeyOf (expiryTimestamp : Z) : string :=
  match JSAscii.split "T" (JSDate.toISOString expiryTimestamp) with
  | hd :: _ => hd
  | [] => EmptyString
  end.

(** [getTimeToExpiry(instrumentName, currentTimestamp)]: [None] is [null]. *)
Definition getTimeToExpiry (instrumentName : JSString.t) (currentTimestamp : Z)
    : option Q :=
  match truthy (parseExpiryTimestamp instrumentName) with
  | None => None
  | Some expiryTimestamp =>
      let hoursToExpiry :=
        (inject_Z (expiryTimestamp - currentTimestamp) / inject_Z (1000 * 60 * 60))%Q in
      Some (Qmax 0 hoursToExpiry)
  end.

(** ** Numbers *)

Local Open Scope Q_scope.

(** [values.reduce((a, b) => a + b, 0)]. *)
Definition sum (values : list Q) : Q := fold_left Qplus values 0.

(** The number of elements of an array, as a number. *)
Definition len {A : Type} (l : list A) : Q := inject_Z (Z.of_nat (List.length l)).

Definition Qltb (a b : Q) : bool := negb (Qle_bool b a).

(** [x.toFixed(digits)], the decimal string being represented by the
    rational it denotes: the nearest multiple of [10^-digits], a tie
    going away from zero. *)
Definition toFixed (digits : nat) (x : Q) : Q :=
  let scale := inject_Z (10 ^ Z.of_nat digits) in
  let n := inject_Z (Qfloor (Qabs x * scale + (1 # 2))) in
  (if Qltb x 0 then - n else n) / scale.

(** A square root for the examples: exact on the squares of rationals. *)
Definition sqrt_floor (q : Q) : Q :=
  let r := Qred q in
  Z.sqrt (Qnum r) # Pos.sqrt (Qden r).

(** ** Array idioms shared by the aggregators *)

(** [if (!groups[key]) groups[key] = []; groups[key].push(x)]. *)
Fixpoint pushGroup {A : Type} (key : string) (x : A)
    (groups : list (string * list A)) : list (string * list A) :=
  match groups with
  | [] => [(key, [x])]
  | (k, xs) :: rest =>
      if String.eqb k key then (k, List.app xs [x]) :: rest
      else (k, xs) :: pushGroup key x rest
  end.

(** [opts.filter(o => f(o) > 0).map(o => f(o))]. *)
Definition valid {A : Type} (f : A -> Q) (opts : list A) : list Q :=
  List.map f (List.filter (fun o => Qltb 0 (f o)) opts).

(** [values.length > 0 ? values.reduce((a, b) => a + b, 0) / values.length : 0]. *)
Definition average (values : list Q) : Q :=
  match values with
  | [] => 0
  | _ => sum values / len values
  end.


(** ** Array.prototype.sort with a descending numeric comparator *)

Section SortDescending.
Context {A : Type}.
Variable key : A -> Q.

(** [x] is put in front of the first element that the comparator
    [(a, b) => key b - key a] does not order before it. *)
Fixpoint insert_desc (x : A) (l : list A) : list A :=
  match l with
  | [] => [x]
  | y :: rest =>
      if Qle_bool (key y) (key x) then x :: l else y :: insert_desc x rest
  end.

(** [l.sort((a, b) => key(b) - key(a))]. *)
Definition sort_desc (l : list A) : list A := fold_right insert_desc [] l.

End SortDescending.

(** ** state.js *)

Module State.

Record historyEntry : Type := {
  expiryDate : string;
  alertCount : nat;
  timestamp : string;
  recipientEmail : option JSString.t
}.

(** The module-level [state] object, less [monitorStatus], which the
    cooldown gate neither reads nor writes. *)
Record state : Type := {
  alertHistory : list historyEntry;
  lastAlertTime : gmap string Z
}.

(** The part of [process.env] that is read here; [None] is [undefined]. *)
Record env : Type := {
  ALERT_COOLDOWN_HOURS : option JSString.t;
  RECIPIENT_EMAIL : option JSString.t
}.

(** [v || fallback] for an environment variable. *)
Definition or_else (v : option JSString.t) (fallback : JSString.t) : JSString.t :=
  match v with
  | Some [] => fallback
  | Some s => s
  | None => fallback
  end.

Definition cooldownHours (e : env) : jsnum :=
  JSString.parseInt (or_else (ALERT_COOLDOWN_HOURS e) (JSString.lit "6")).

Definition hoursSince (now lastAlert : Z) : Q :=
  inject_Z (now - lastAlert) / inject_Z (1000 * 60 * 60).

Definition shouldSendAlert (e : env) (st : state) (now : Z) (expiry : string) : bool :=
  match lastAlertTime st !! expiry with
  | None => true
  | Some lastAlert =>
      if (lastAlert =? 0)%Z then true
      else
        let hoursSinceLastAlert := hoursSince now lastAlert in
        match cooldownHours e with
        | JNum h => Qle_bool (inject_Z h) hoursSinceLastAlert
        | JNaN => false
        end
  end.

Definition recordAlertSent {A : Type} (e : env) (st : state) (now : Z)
    (expiry : string) (alerts : list A) : state :=
  let history :=
    List.app (alertHistory st)
      [ {| expiryDate := expiry;
           alertCount := List.length alerts;
           timestamp := JSDate.toISOString now;
           recipientEmail := RECIPIENT_EMAIL e |} ] in
  {| lastAlertTime := <[expiry := now]> (lastAlertTime st);
     alertHistory :=
       if (100 <? List.length history)%nat then List.tl history else history |}.

Definition initial : state := {| alertHistory := []; lastAlertTime := ∅ |}.


(** [state.monitorStatus]; [lastCheck] and [error] are [null] ([None]) or
    a string; [ethPrice], which the object does not have at first, is
    absent ([None]), [null] or a number. *)
Record monitorStatus : Type := {
  lastCheck : option string;
  optionsChecked : Z;
  irregularitiesFound : Z;
  emailsSent : Z;
  checkDuration : Z;
  error : option string;
  ethPrice : option (option Q)
}.

Definition initialStatus : monitorStatus :=
  {| lastCheck := None;
     optionsChecked := 0;
     irregularitiesFound := 0;
     emailsSent := 0;
     checkDuration := 0;
     error := None;
     ethPrice := None |}.

(** The argument of [updateMonitorStatus]; [None] is a property that the
    object does not have. *)
Record statusUpdate : Type := {
  newLastCheck : option string;
  newOptionsChecked : option Z;
  newIrregularitiesFound : option Z;
  newEmailsSent : option Z;
  newCheckDuration : option Z;
  newError : option string;
  newEthPrice : option (option Q)
}.

(** [{ ...state.monitorStatus, ...status }]. *)
Definition updateMonitorStatus (ms : monitorStatus) (status : statusUpdate)
    : monitorStatus :=
  {| lastCheck :=
       match newLastCheck status with Some v => Some v | None => lastCheck ms end;
     optionsChecked := default (optionsChecked ms) (newOptionsChecked status);
     irregularitiesFound :=
       default (irregularitiesFound ms) (newIrregularitiesFound status);
     emailsSent := default (emailsSent ms) (newEmailsSent status);
     checkDuration := default (checkDuration ms) (newCheckDuration status);
     error := match newError status with Some v => Some v | None => error ms end;
     ethPrice :=
       match newEthPrice status with Some v => Some v | None => ethPrice ms end |}.

End State.

(** ** advancedMonitor.js *)

Module Monitor.

Record thresholds : Type := {
  priceWeight : Q;
  volumeWeight : Q;
  oiWeight : Q;
  anomalyScoreThreshold : Q;
  minTimeToExpiry : Q;
  maxTimeToExpiry : Q
}.

Definition OPTIMAL_THRESHOLDS : thresholds :=
  {| priceWeight := 3 # 2;
     volumeWeight := 1;
     oiWeight := 1 # 2;
     anomalyScoreThreshold := 5;
     minTimeToExpiry := 1 # 2;
     maxTimeToExpiry := 48 |}.

(** The argument of [updateThresholds]; [None] is a property that the
    object does not have. *)
Record newThresholds : Type := {
  newPriceWeight : option Q;
  newVolumeWeight : option Q;
  newOiWeight : option Q;
  newAnomalyScoreThreshold : option Q;
  newMinTimeToExpiry : option Q;
  newMaxTimeToExpiry : option Q
}.

(** [{ ...OPTIMAL_THRESHOLDS, ...newThresholds }]. *)
Definition updateThresholds (current : thresholds) (n : newThresholds) : thresholds :=
  {| priceWeight := default (priceWeight current) (newPriceWeight n);
     volumeWeight := default (volumeWeight current) (newVolumeWeight n);
     oiWeight := default (oiWeight current) (newOiWeight n);
     anomalyScoreThreshold :=
       default (anomalyScoreThreshold current) (newAnomalyScoreThreshold n);
     minTimeToExpiry := default (minTimeToExpiry current) (newMinTimeToExpiry n);
     maxTimeToExpiry := default (maxTimeToExpiry current) (newMaxTimeToExpiry n) |}.

(** One entry of the book summary returned by the market data feed. *)
Record bookSummary : Type := {
  instrument_name : JSString.t;
  mark_price : Q;
  volume_usd : Q;
  open_interest : Q
}.

(** [{ ...opt, timeToExpiry, expiryTimestamp }]. *)
Record groupedOption : Type := {
  summary : bookSummary;
  timeToExpiry : Q;
  expiryTimestamp : Z
}.

Definition markPriceOf (o : groupedOption) : Q := mark_price (summary o).
Definition volumeOf (o : groupedOption) : Q := volume_usd (summary o).
Definition openInterestOf (o : groupedOption) : Q := open_interest (summary o).

(** The body of the first [forEach] of [calculateAdvancedStats]. *)
Definition groupOption (th : thresholds) (currentTime : Z)
    (expiryGroups : list (string * list groupedOption)) (opt : bookSummary)
    : list (string * list groupedOption) :=
  match truthy (parseExpiryTimestamp (instrument_name opt)) with
  | None => expiryGroups
  | Some ts =>
      let tte := inject_Z (ts - currentTime) / inject_Z (1000 * 60 * 60) in
      if Qltb tte (minTimeToExpiry th) || Qltb (maxTimeToExpiry th) tte
      then expiryGroups
      else pushGroup (expiryKeyOf ts)
             {| summary := opt; timeToExpiry := tte; expiryTimestamp := ts |}
             expiryGroups
  end.

Definition groupByExpiry (th : thresholds) (currentTime : Z)
    (options : list bookSummary) : list (string * list groupedOption) :=
  fold_left (groupOption th currentTime) options [].

Record stats : Type := {
  avgPrice : Q;
  avgVolume : Q;
  avgOI : Q;
  stdPrice : Q;
  stdVolume : Q;
  stdOI : Q;
  count : nat
}.

Section Statistics.
Variable sqrt : Q -> Q.

Definition calculateStdDev (values : list Q) (mean : Q) : Q :=
  match values with
  | [] => 0
  | _ =>
      let squareDiffs := List.map (fun value => (value - mean) ^ 2) values in
      let avgSquareDiff := sum squareDiffs / len values in
      sqrt avgSquareDiff
  end.

(** The entry written to [expiryStats] for one group, if any. *)
Definition cohortStats (opts : list groupedOption) : option stats :=
  let validPrices := valid markPriceOf opts in
  let validVolumes := valid volumeOf opts in
  let validOI := valid openInterestOf opts in
  match validPrices with
  | [] => None
  | _ =>
      let avgPrice := sum validPrices / len validPrices in
      let avgVolume := average validVolumes in
      let avgOI := average validOI in
      Some {| avgPrice := avgPrice;
              avgVolume := avgVolume;
              avgOI := avgOI;
              stdPrice := calculateStdDev validPrices avgPrice;
              stdVolume :=
                match validVolumes with
                | [] => 0
                | _ => calculateStdDev validVolumes avgVolume
                end;
              stdOI :=
                match validOI with
                | [] => 0
                | _ => calculateStdDev validOI avgOI
                end;
              count := List.length opts |}
  end.

Definition statsStep (expiryStats : gmap string stats)
    (entry : string * list groupedOption) : gmap string stats :=
  match cohortStats (snd entry) with
  | Some s => <[fst entry := s]> expiryStats
  | None => expiryStats
  end.

Definition calculateAdvancedStats (th : thresholds) (currentTime : Z)
    (options : list bookSummary)
    : list (string * list groupedOption) * gmap string stats :=
  let expiryGroups := groupByExpiry th currentTime options in
  (expiryGroups, fold_left statsStep expiryGroups ∅).

End Statistics.

(** *** The scorer *)

Definition priceZScore (st : stats) (opt : groupedOption) : Q :=
  if Qltb 0 (stdPrice st)
  then Qabs ((markPriceOf opt - avgPrice st) / stdPrice st)
  else 0.

Definition volumeZScore (st : stats) (opt : groupedOption) : Q :=
  if Qltb 0 (stdVolume st) && Qltb 0 (volumeOf opt)
  then Qabs ((volumeOf opt - avgVolume st) / stdVolume st)
  else 0.

Definition oiZScore (st : stats) (opt : groupedOption) : Q :=
  if Qltb 0 (stdOI st) && Qltb 0 (openInterestOf opt)
  then Qabs ((openInterestOf opt - avgOI st) / stdOI st)
  else 0.

Definition timeDecayFactor (th : thresholds) (opt : groupedOption) : Q :=
  (maxTimeToExpiry th - timeToExpiry opt) / maxTimeToExpiry th.

(** The weighted anomaly score of the four signals. *)
Definition weightedScore (th : thresholds) (priceZ volumeZ oiZ timeDecay : Q) : Q :=
  priceZ * priceWeight th + volumeZ * volumeWeight th + oiZ * oiWeight th
  + timeDecay * 2.

Definition scoreOf (th : thresholds) (st : stats) (opt : groupedOption) : Q :=
  weightedScore th (priceZScore st opt) (volumeZScore st opt) (oiZScore st opt)
    (timeDecayFactor th opt).

Inductive alertType : Type := PRICE_ANOMALY | VOLUME_ANOMALY.

Module Alert.
(** An element of [alerts].  The properties built with [toFixed]
    hold the number that the string denotes; [timestamp] holds the
    instant that [toLocaleString] prints. *)
Record t : Type := {
  symbol : JSString.t;
  expiryDate : string;
  currentPrice : Q;
  volume : Q;
  openInterest : Q;
  timeToExpiry : Q;
  anomalyScore : Q;
  priceZScore : Q;
  volumeZScore : Q;
  oiZScore : Q;
  timeDecayFactor : Q;
  timestamp : Z;
  type : alertType
}.
End Alert.

(** The body of the inner [forEach] of [detectHighProbabilityAlerts]:
    the alert pushed for [opt], if any. *)
Definition scoreOption (th : thresholds) (now : Z) (expiry : string)
    (st : stats) (opt : groupedOption) : option Alert.t :=
  if Qle_bool (markPriceOf opt) 0 then None
  else
    let pz := priceZScore st opt in
    let vz := volumeZScore st opt in
    let oz := oiZScore st opt in
    let td := timeDecayFactor th opt in
    let score := weightedScore th pz vz oz td in
    if Qle_bool (anomalyScoreThreshold th) score
    then Some {| Alert.symbol := instrument_name (summary opt);
                 Alert.expiryDate := expiry;
                 Alert.currentPrice := markPriceOf opt;
                 Alert.volume := volumeOf opt;
                 Alert.openInterest := openInterestOf opt;
                 Alert.timeToExpiry := toFixed 1 (timeToExpiry opt);
                 Alert.anomalyScore := toFixed 2 score;
                 Alert.priceZScore := toFixed 2 pz;
                 Alert.volumeZScore := toFixed 2 vz;
                 Alert.oiZScore := toFixed 2 oz;
                 Alert.timeDecayFactor := toFixed 2 td;
                 Alert.timestamp := now;
                 Alert.type := if Qltb vz pz then PRICE_ANOMALY else VOLUME_ANOMALY |}
    else None.

(** The alerts pushed while one group is traversed. *)
Definition groupAlerts (th : thresholds) (now : Z) (expiryStats : gmap string stats)
    (entry : string * list groupedOption) : list Alert.t :=
  match expiryStats !! fst entry with
  | None => []
  | Some st =>
      List.flat_map
        (fun opt => match scoreOption th now (fst entry) st opt with
                    | Some a => [a]
                    | None => []
                    end)
        (snd entry)
  end.

(** [alerts] as it stands before the final [sort]. *)
Definition pushedAlerts (th : thresholds) (now : Z)
    (expiryGroups : list (string * list groupedOption))
    (expiryStats : gmap string stats) : list Alert.t :=
  List.flat_map (groupAlerts th now expiryStats) expiryGroups.

Definition detectHighProbabilityAlerts (th : thresholds) (now : Z)
    (expiryGroups : list (string * list groupedOption))
    (expiryStats : gmap string stats) : list Alert.t :=
  sort_desc Alert.anomalyScore (pushedAlerts th now expiryGroups expiryStats).

(** The first two steps of [monitorOptionsAdvanced] on fetched data;
    [currentTime] and [now] are the two readings of the clock. *)
Definition evaluateSnapshot (sqrt : Q -> Q) (th : thresholds) (currentTime now : Z)
    (options : list bookSummary) : list Alert.t :=
  let '(expiryGroups, expiryStats) :=
    calculateAdvancedStats sqrt th currentTime options in
  detectHighProbabilityAlerts th now expiryGroups expiryStats.

(** *** Dispatch *)

(** The grouping of [alerts] by [expiryDate] in [monitorOptionsAdvanced]. *)
Definition alertsByExpiry (alerts : list Alert.t) : list (string * list Alert.t) :=
  fold_left (fun groups alert => pushGroup (Alert.expiryDate alert) alert groups)
    alerts [].

(** The first test of [sendAdvancedAlertEmail]: a recipient is set, and
    it is not the placeholder. *)
Definition emailConfigured (e : State.env) : bool :=
  match State.RECIPIENT_EMAIL e with
  | None => false
  | Some recipient =>
      negb (JSString.eqb recipient [])
      && negb (JSString.eqb recipient (JSString.lit "your.email@example.com"))
  end.

(** [sendAdvancedAlertEmail(alerts, expiryDate, ethPrice)].  [transport]
    is the outcome of the request to the mail service: [true] when the
    response is ok, [false] when it is not or when the request throws.
    Reading [alerts[0].timestamp] of an empty array throws inside the
    [try] block, which returns [false]. *)
Definition sendAdvancedAlertEmail (e : State.env)
    (transport : string -> list Alert.t -> bool)
    (alerts : list Alert.t) (expiry : string) : bool :=
  if emailConfigured e
  then match alerts with
       | [] => false
       | _ :: _ => transport expiry alerts
       end
  else false.

(** One turn of the [for ... of] loop over [alertsByExpiry];
    [checkTime expiry] and [recordTime expiry] are the readings of the
    clock that [shouldSendAlert] and [recordAlertSent] make in the turn
    for [expiry]. *)
Definition sendStep (e : State.env) (transport : string -> list Alert.t -> bool)
    (checkTime recordTime : string -> Z)
    (acc : State.state * nat) (entry : string * list Alert.t) : State.state * nat :=
  if State.shouldSendAlert e (fst acc) (checkTime (fst entry)) (fst entry)
  then
    if sendAdvancedAlertEmail e transport (snd entry) (fst entry)
    then (State.recordAlertSent e (fst acc) (recordTime (fst entry)) (fst entry)
            (snd entry),
          S (snd acc))
    else acc
  else acc.

(** The loop: the state it leaves and [emailsSent]. *)
Definition sendAlerts (e : State.env) (transport : string -> list Alert.t -> bool)
    (checkTime recordTime : string -> Z) (st : State.state)
    (entries : list (string * list Alert.t)) : State.state * nat :=
  fold_left (sendStep e transport checkTime recordTime) entries (st, O).

(** The status written when a check completes. *)
Definition checkCompleted (lastCheck : string)
    (optionsChecked irregularitiesFound emailsSent checkDuration : Z)
    (ethPrice : option Q) : State.statusUpdate :=
  {| State.newLastCheck := Some lastCheck;
     State.newOptionsChecked := Some optionsChecked;
     State.newIrregularitiesFound := Some irregularitiesFound;
     State.newEmailsSent := Some emailsSent;
     State.newCheckDuration := Some checkDuration;
     State.newError := None;
     State.newEthPrice := Some ethPrice |}.

(** The status written in the [catch] block of a check. *)
Definition checkFailed (lastCheck message : string) : State.statusUpdate :=
  {| State.newLastCheck := Some lastCheck;
     State.newOptionsChecked := None;
     State.newIrregularitiesFound := None;
     State.newEmailsSent := None;
     State.newCheckDuration := None;
     State.newError := Some message;
     State.newEthPrice := None |}.

(** The [try] block of [monitorOptionsAdvanced] from the point where
    the two requests have returned [options] and [ethPrice].
    [currentTime] is the reading of the clock in
    [calculateAdvancedStats], [now] the one that the alerts are stamped
    with, [lastCheck] and [duration] the date string and the elapsed
    time that the final status bears. *)
Definition monitorOptionsAdvanced (sqrt : Q -> Q) (th : thresholds) (e : State.env)
    (transport : string -> list Alert.t -> bool)
    (currentTime now : Z) (checkTime recordTime : string -> Z)
    (lastCheck : string) (duration : Z)
    (st : State.state) (ms : State.monitorStatus)
    (options : list bookSummary) (ethPrice : option Q)
    : State.state * State.monitorStatus :=
  let alerts := evaluateSnapshot sqrt th currentTime now options in
  let sent := sendAlerts e transport checkTime recordTime st (alertsByExpiry alerts) in
  (fst sent,
   State.updateMonitorStatus ms
     (checkCompleted lastCheck
        (Z.of_nat (List.length options)) (Z.of_nat (List.length alerts))
        (Z.of_nat (snd sent)) duration ethPrice)).

End Monitor.

(** ** backtester.js *)

Module Backtester.

(** One option of a stored snapshot, as [collectMarketSnapshot] builds
    it; [timeToExpiry = None] is [null]. *)
Record option_ : Type := {
  instrument : JSString.t;
  markPrice : Q;
  volume : Q;
  openInterest : Q;
  timeToExpiry : option Q
}.

(** The element that [collectMarketSnapshot] builds from one entry of the
    book summary, at the reading [now] of the clock; the bid and ask
    prices, which the backtester does not read, are left out. *)
Definition collectOption (now : Z) (opt : Monitor.bookSummary) : option_ :=
  {| instrument := Monitor.instrument_name opt;
     markPrice := Monitor.mark_price opt;
     volume := Monitor.volume_usd opt;
     openInterest := Monitor.open_interest opt;
     timeToExpiry := getTimeToExpiry (Monitor.instrument_name opt) now |}.

Record snapshot : Type := {
  snapshotTimestamp : Z;
  snapshotEthPrice : Q;
  snapshotOptions : list option_
}.

(** An element of [historicalData]: [{ ...snapshot, futureETHPrice }];
    [futureETHPrice = None] is an absent ([undefined] or [null]) price. *)
Record dataPoint : Type := {
  timestamp : Z;
  ethPrice : Q;
  options : list option_;
  futureETHPrice : option Q
}.

Definition addDataPoint (historicalData : list dataPoint) (s : snapshot)
    (future : option Q) : list dataPoint :=
  List.app historicalData
    [ {| timestamp := snapshotTimestamp s;
         ethPrice := snapshotEthPrice s;
         options := snapshotOptions s;
         futureETHPrice := future |} ].

Record stats : Type := {
  avgPrice : Q;
  avgVolume : Q;
  avgOI : Q;
  stdPrice : Q;
  stdVolume : Q;
  count : nat
}.

(** The first [forEach] of [calculateExpiryStats]. *)
Definition groupOption (expiryGroups : list (string * list option_)) (opt : option_)
    : list (string * list option_) :=
  match truthy (parseExpiryTimestamp (instrument opt)) with
  | None => expiryGroups
  | Some ts => pushGroup (expiryKeyOf ts) opt expiryGroups
  end.

Definition groupByExpiry (opts : list option_) : list (string * list option_) :=
  fold_left groupOption opts [].

Section Statistics.
Variable sqrt : Q -> Q.

Definition calculateStdDev (values : list Q) : Q :=
  match values with
  | [] => 0
  | _ =>
      let avg := sum values / len values in
      let squareDiffs := List.map (fun value => (value - avg) ^ 2) values in
      let avgSquareDiff := sum squareDiffs / len values in
      sqrt avgSquareDiff
  end.

Definition cohortStats (opts : list option_) : option stats :=
  let validPrices := valid markPrice opts in
  let validVolumes := valid volume opts in
  let validOI := valid openInterest opts in
  match validPrices with
  | [] => None
  | _ =>
      Some {| avgPrice := sum validPrices / len validPrices;
              avgVolume := average validVolumes;
              avgOI := average validOI;
              stdPrice := calculateStdDev validPrices;
              stdVolume :=
                match validVolumes with
                | [] => 0
                | _ => calculateStdDev validVolumes
                end;
              count := List.length opts |}
  end.

Definition statsStep (expiryStats : gmap string stats)
    (entry : string * list option_) : gmap string stats :=
  match cohortStats (snd entry) with
  | Some s => <[fst entry := s]> expiryStats
  | None => expiryStats
  end.

Definition calculateExpiryStats (opts : list option_) : gmap string stats :=
  fold_left statsStep (groupByExpiry opts) ∅.

End Statistics.

(** [x || 1] for a number. *)
Definition or_one (x : Q) : Q := if Qeq_bool x 0 then 1 else x.

Definition priceZScore (st : stats) (opt : option_) : Q :=
  (markPrice opt - avgPrice st) / or_one (stdPrice st).

Definition volumeZScore (st : stats) (opt : option_) : Q :=
  if Qltb 0 (avgVolume st)
  then (volume opt - avgVolume st) / or_one (stdVolume st)
  else 0.

Definition oiZScore (st : stats) (opt : option_) : Q :=
  if Qltb 0 (avgOI st) then (openInterest opt - avgOI st) / 1 else 0.

(** [opt.timeToExpiry || 0]. *)
Definition timeToExpiryOf (opt : option_) : Q :=
  match timeToExpiry opt with
  | Some h => h
  | None => 0
  end.

Definition timeDecayFactor (opt : option_) : Q :=
  let tte := timeToExpiryOf opt in
  if Qle_bool tte 48 then (48 - tte) / 48 else 0.

Definition weightedScore (priceThreshold volumeThreshold oiThreshold : Q)
    (priceZ volumeZ oiZ timeDecay : Q) : Q :=
  Qabs priceZ * priceThreshold + Qabs volumeZ * volumeThreshold
  + Qabs oiZ * oiThreshold + timeDecay * 2.

Module Alert.
Record t : Type := {
  instrument : JSString.t;
  anomalyScore : Q;
  priceZScore : Q;
  volumeZScore : Q;
  oiZScore : Q;
  timeToExpiry : Q;
  timeDecayFactor : Q
}.
End Alert.

(** The body of the [forEach] of [detectAnomalies]. *)
Definition scoreOption (expiryStats : gmap string stats)
    (priceThreshold volumeThreshold oiThreshold : Q) (opt : option_)
    : option Alert.t :=
  match truthy (parseExpiryTimestamp (instrument opt)) with
  | None => None
  | Some ts =>
      match expiryStats !! expiryKeyOf ts with
      | None => None
      | Some st =>
          if Qle_bool (markPrice opt) 0 then None
          else
            let pz := priceZScore st opt in
            let vz := volumeZScore st opt in
            let oz := oiZScore st opt in
            let td := timeDecayFactor opt in
            let score :=
              weightedScore priceThreshold volumeThreshold oiThreshold pz vz oz td in
            if Qle_bool 5 score
            then Some {| Alert.instrument := instrument opt;
                         Alert.anomalyScore := score;
                         Alert.priceZScore := pz;
                         Alert.volumeZScore := vz;
                         Alert.oiZScore := oz;
                         Alert.timeToExpiry := timeToExpiryOf opt;
                         Alert.timeDecayFactor := td |}
            else None
      end
  end.

(** [alerts] as it stands before the final [sort]. *)
Definition pushedAlerts (opts : list option_) (expiryStats : gmap string stats)
    (priceThreshold volumeThreshold oiThreshold : Q) : list Alert.t :=
  List.flat_map
    (fun opt =>
       match scoreOption expiryStats priceThreshold volumeThreshold oiThreshold opt with
       | Some a => [a]
       | None => []
       end)
    opts.

Definition detectAnomalies (opts : list option_) (expiryStats : gmap string stats)
    (priceThreshold volumeThreshold oiThreshold : Q) : list Alert.t :=
  sort_desc Alert.anomalyScore
    (pushedAlerts opts expiryStats priceThreshold volumeThreshold oiThreshold).

(** *** The backtest *)

Record counters : Type := {
  cTotalAlerts : nat;
  cSuccessful : nat;
  cFalsePositives : nat
}.

Record backtestResult : Type := {
  totalAlerts : nat;
  successful : nat;
  falsePositives : nat;
  successRate : Q;
  precision : Q
}.

(** [!futureETHPrice]: an absent price and the number 0 are falsy. *)
Definition truthyPrice (p : option Q) : option Q :=
  match p with
  | Some q => if Qeq_bool q 0 then None else Some q
  | None => None
  end.

(** [Math.abs(((future - eth) / eth) * 100) >= 2.0] for [future <> 0];
    when [eth] is 0 the quotient is an infinity, whose absolute value
    passes the test. *)
Definition significantMove (future eth : Q) : bool :=
  if Qeq_bool eth 0 then true
  else
    let priceChange := (future - eth) / eth * 100 in
    Qle_bool 2 (Qabs priceChange).

Section Backtest.
Variable sqrt : Q -> Q.

(** The body of the [forEach] of [runBacktest]. *)
Definition backtestStep (priceThreshold volumeThreshold oiThreshold : Q)
    (c : counters) (d : dataPoint) : counters :=
  match truthyPrice (futureETHPrice d) with
  | None => c
  | Some future =>
      let expiryStats := calculateExpiryStats sqrt (options d) in
      let alerts :=
        detectAnomalies (options d) expiryStats
          priceThreshold volumeThreshold oiThreshold in
      match alerts with
      | [] => c
      | _ :: _ =>
          if significantMove future (ethPrice d)
          then {| cTotalAlerts := S (cTotalAlerts c);
                  cSuccessful := S (cSuccessful c);
                  cFalsePositives := cFalsePositives c |}
          else {| cTotalAlerts := S (cTotalAlerts c);
                  cSuccessful := cSuccessful c;
                  cFalsePositives := S (cFalsePositives c) |}
      end
  end.

Definition ratio (a b : nat) : Q := inject_Z (Z.of_nat a) / inject_Z (Z.of_nat b).

Definition runBacktest (historicalData : list dataPoint)
    (priceThreshold volumeThreshold oiThreshold : Q) : backtestResult :=
  let c :=
    fold_left (backtestStep priceThreshold volumeThreshold oiThreshold)
      historicalData
      {| cTotalAlerts := 0; cSuccessful := 0; cFalsePositives := 0 |} in
  {| totalAlerts := cTotalAlerts c;
     successful := cSuccessful c;
     falsePositives := cFalsePositives c;
     successRate :=
       if (0 <? cTotalAlerts c)%nat
       then ratio (cSuccessful c) (cTotalAlerts c) * 100 else 0;
     precision :=
       if (0 <? cTotalAlerts c)%nat
       then ratio (cSuccessful c) (cTotalAlerts c) else 0 |}.

Record gridResult : Type := {
  priceThreshold : Q;
  volumeThreshold : Q;
  oiThreshold : Q;
  result : backtestResult
}.

Definition testThresholds (historicalData : list dataPoint)
    (priceThresholds volumeThresholds oiThresholds : list Q) : list gridResult :=
  sort_desc (fun r => successRate (result r))
    (List.flat_map (fun priceT =>
       List.flat_map (fun volumeT =>
         List.map (fun oiT =>
           {| priceThreshold := priceT;
              volumeThreshold := volumeT;
              oiThreshold := oiT;
              result := runBacktest historicalData priceT volumeT oiT |})
           oiThresholds)
         volumeThresholds)
       priceThresholds).

Definition priceCandidates : list Q := [1 # 2; 1; 3 # 2; 2; 5 # 2; 3].
Definition volumeCandidates : list Q := [1 # 2; 1; 3 # 2; 2; 5 # 2].
Definition oiCandidates : list Q := [3 # 10; 1 # 2; 7 # 10; 1].

(** [results[0]] of a grid search; [None] is [undefined]. *)
Definition bestOf (historicalData : list dataPoint)
    (priceThresholds volumeThresholds oiThresholds : list Q) : option gridResult :=
  List.hd_error
    (testThresholds historicalData priceThresholds volumeThresholds oiThresholds).

Definition findOptimalThresholds (historicalData : list dataPoint) : option gridResult :=
  bestOf historicalData priceCandidates volumeCandidates oiCandidates.

Definition generateRecommendation (optimal : gridResult) : string :=
  let rate := successRate (result optimal) in
  if Qle_bool 70 rate then
    "EXCELLENT: High success rate. Deploy with confidence."
  else if Qle_bool 50 rate then
    "GOOD: Moderate success rate. Consider collecting more data."
  else if Qle_bool 30 rate then
    "FAIR: Low success rate. Refine criteria or collect more data."
  else
    "POOR: Very low success rate. Criteria need significant refinement.".

Record report : Type := {
  optimalPrice : Q;
  optimalVolume : Q;
  optimalOpenInterest : Q;
  performance : backtestResult;
  dataPoints : nat;
  recommendation : string
}.

(** The object that [generateReport] builds from [optimal]; reading a
    property of [undefined] throws, which is [None]. *)
Definition reportOf (historicalData : list dataPoint) (optimal : option gridResult)
    : option report :=
  match optimal with
  | None => None
  | Some best =>
      Some {| optimalPrice := priceThreshold best;
              optimalVolume := volumeThreshold best;
              optimalOpenInterest := oiThreshold best;
              performance := result best;
              dataPoints := List.length historicalData;
              recommendation := generateRecommendation best |}
  end.

Definition generateReport (historicalData : list dataPoint) : option report :=
  reportOf historicalData (findOptimalThresholds historicalData).

End Backtest.

End Backtester.

(** ** backtestRunner.js *)

Module Runner.

(** An element of [historicalDataPoints]: [{ snapshot, futureETHPrice }]. *)
Definition historicalDataPoint : Type := (Backtester.snapshot * option Q)%type.

(** The data that [runBacktestingAnalysis] loads into a new backtester:
    the points it is given or, when it is given none, the samples
    [collected] from the market in the five turns of its loop, each with
    the later reference price. *)
Definition loadData (historicalDataPoints collected : list historicalDataPoint)
    : list Backtester.dataPoint :=
  fold_left (fun data dp => Backtester.addDataPoint data (fst dp) (snd dp))
    (match historicalDataPoints with
     | [] => collected
     | _ :: _ => historicalDataPoints
     end)
    [].

(** The argument of [updateThresholds] in [runBacktestingAnalysis]. *)
Definition optimizedWeights (rep : Backtester.report) : Monitor.newThresholds :=
  {| Monitor.newPriceWeight := Some (Backtester.optimalPrice rep);
     Monitor.newVolumeWeight := Some (Backtester.optimalVolume rep);
     Monitor.newOiWeight := Some (Backtester.optimalOpenInterest rep);
     Monitor.newAnomalyScoreThreshold := None;
     Monitor.newMinTimeToExpiry := None;
     Monitor.newMaxTimeToExpiry := None |}.

(** [runBacktestingAnalysis(historicalDataPoints)]: the report that it
    returns and the thresholds of the monitor when it returns, [th]
    being the thresholds before; [None] when [generateReport] throws. *)
Definition runBacktestingAnalysis (sqrt : Q -> Q) (th : Monitor.thresholds)
    (historicalDataPoints collected : list historicalDataPoint)
    : option (Backtester.report * Monitor.thresholds) :=
  match Backtester.generateReport sqrt (loadData historicalDataPoints collected) with
  | None => None
  | Some rep =>
      Some (rep,
            if Qle_bool 30 (Backtester.successRate (Backtester.performance rep))
            then Monitor.updateThresholds th (optimizedWeights rep)
            else th)
  end.

End Runner.

(** ** historicalAnalysis.js *)

Module Historical.

(** The body of the [forEach] of [calculateStats]; the window of 0.5 to
    48 hours is written out in the code. *)
Definition groupOption (currentTime : Z)
    (expiryGroups : list (string * list Monitor.groupedOption))
    (opt : Monitor.bookSummary) : list (string * list Monitor.groupedOption) :=
  match truthy (parseExpiryTimestamp (Monitor.instrument_name opt)) with
  | None => expiryGroups
  | Some ts =>
      let tte := inject_Z (ts - currentTime) / inject_Z (1000 * 60 * 60) in
      if Qltb tte (1 # 2) || Qltb 48 tte
      then expiryGroups
      else pushGroup (expiryKeyOf ts)
             {| Monitor.summary := opt;
                Monitor.timeToExpiry := tte;
                Monitor.expiryTimestamp := ts |}
             expiryGroups
  end.

Section Statistics.
Variable sqrt : Q -> Q.

Definition calculateStdDev (values : list Q) (mean : Q) : Q :=
  match values with
  | [] => 0
  | _ =>
      let squareDiffs := List.map (fun value => (value - mean) ^ 2) values in
      let avgSquareDiff := sum squareDiffs / len values in
      sqrt avgSquareDiff
  end.

(** The entry written to [expiryStats] for one group, if any. *)
Definition cohortStats (opts : list Monitor.groupedOption) : option Monitor.stats :=
  let validPrices := valid Monitor.markPriceOf opts in
  let validVolumes := valid Monitor.volumeOf opts in
  let validOI := valid Monitor.openInterestOf opts in
  match validPrices with
  | [] => None
  | _ =>
      let avgPrice := sum validPrices / len validPrices in
      let avgVolume := average validVolumes in
      let avgOI := average validOI in
      Some {| Monitor.avgPrice := avgPrice;
              Monitor.avgVolume := avgVolume;
              Monitor.avgOI := avgOI;
              Monitor.stdPrice := calculateStdDev validPrices avgPrice;
              Monitor.stdVolume :=
                match validVolumes with
                | [] => 0
                | _ => calculateStdDev validVolumes avgVolume
                end;
              Monitor.stdOI :=
                match validOI with
                | [] => 0
                | _ => calculateStdDev validOI avgOI
                end;
              Monitor.count := List.length opts |}
  end.

Definition calculateStats (options : list Monitor.bookSummary) (currentTime : Z)
    : list (string * list Monitor.groupedOption) * gmap string Monitor.stats :=
  let expiryGroups := fold_left (groupOption currentTime) options [] in
  (expiryGroups,
   fold_left
     (fun expiryStats entry =>
        match cohortStats (snd entry) with
        | Some s => <[fst entry := s]> expiryStats
        | None => expiryStats
        end)
     expiryGroups ∅).

End Statistics.

Inductive direction : Type := UP | DOWN | UNKNOWN.

Module Alert.
Record t : Type := {
  symbol : JSString.t;
  expiryDate : string;
  expiryTimestamp : Z;
  currentPrice : Q;
  volume : Q;
  timeToExpiry : Q;
  anomalyScore : Q;
  priceZScore : Q;
  volumeZScore : Q;
  direction : direction;
  isCall : bool;
  isPut : bool
}.
End Alert.

(** The body of the inner [forEach] of [detectAlerts]: the alert pushed
    for [opt], if any.  The weights, the window and the threshold are
    literals of the code. *)
Definition scoreOption (expiry : string) (stats : Monitor.stats)
    (opt : Monitor.groupedOption) : option Alert.t :=
  if Qle_bool (Monitor.markPriceOf opt) 0 then None
  else
    let priceZScore :=
      if Qltb 0 (Monitor.stdPrice stats)
      then Qabs ((Monitor.markPriceOf opt - Monitor.avgPrice stats)
                 / Monitor.stdPrice stats)
      else 0 in
    let volumeZScore :=
      if Qltb 0 (Monitor.stdVolume stats) && Qltb 0 (Monitor.volumeOf opt)
      then Qabs ((Monitor.volumeOf opt - Monitor.avgVolume stats)
                 / Monitor.stdVolume stats)
      else 0 in
    let oiZScore :=
      if Qltb 0 (Monitor.stdOI stats) && Qltb 0 (Monitor.openInterestOf opt)
      then Qabs ((Monitor.openInterestOf opt - Monitor.avgOI stats)
                 / Monitor.stdOI stats)
      else 0 in
    let timeDecayFactor := (48 - Monitor.timeToExpiry opt) / 48 in
    let anomalyScore :=
      priceZScore * (3 # 2) + volumeZScore * 1 + oiZScore * (1 # 2)
      + timeDecayFactor * 2 in
    if Qle_bool 5 anomalyScore
    then
      let name := Monitor.instrument_name (Monitor.summary opt) in
      let isCall := JSString.endsWith name (JSString.lit "-C") in
      let isPut := JSString.endsWith name (JSString.lit "-P") in
      Some {| Alert.symbol := name;
              Alert.expiryDate := expiry;
              Alert.expiryTimestamp := Monitor.expiryTimestamp opt;
              Alert.currentPrice := Monitor.markPriceOf opt;
              Alert.volume := Monitor.volumeOf opt;
              Alert.timeToExpiry := Monitor.timeToExpiry opt;
              Alert.anomalyScore := anomalyScore;
              Alert.priceZScore := priceZScore;
              Alert.volumeZScore := volumeZScore;
              Alert.direction := if isCall then UP else if isPut then DOWN else UNKNOWN;
              Alert.isCall := isCall;
              Alert.isPut := isPut |}
    else None.

(** [alerts] as it stands before the final [sort]. *)
Definition pushedAlerts (expiryGroups : list (string * list Monitor.groupedOption))
    (expiryStats : gmap string Monitor.stats) : list Alert.t :=
  List.flat_map
    (fun entry : string * list Monitor.groupedOption =>
       match expiryStats !! fst entry with
       | None => []
       | Some stats =>
           List.flat_map
             (fun opt => match scoreOption (fst entry) stats opt with
                         | Some a => [a]
                         | None => []
                         end)
             (snd entry)
       end)
    expiryGroups.

Definition detectAlerts (expiryGroups : list (string * list Monitor.groupedOption))
    (expiryStats : gmap string Monitor.stats) : list Alert.t :=
  sort_desc Alert.anomalyScore (pushedAlerts expiryGroups expiryStats).

(** The object that [runHistoricalAnalysis] returns. *)
Record estimate : Type := {
  estimatedEmailsPerMonth : nat;
  currentAlerts : nat;
  bullishSignals : nat;
  bearishSignals : nat;
  uniqueExpiries : nat
}.

(** [runHistoricalAnalysis()] from the point where the request has
    returned [options]; [currentTime] is the reading of the clock at its
    start. *)
Definition runHistoricalAnalysis (sqrt : Q -> Q) (currentTime : Z)
    (options : list Monitor.bookSummary) : estimate :=
  let '(expiryGroups, expiryStats) := calculateStats sqrt options currentTime in
  let alerts := detectAlerts expiryGroups expiryStats in
  let alertsByExpiry :=
    fold_left (fun groups alert => pushGroup (Alert.expiryDate alert) alert groups)
      alerts [] in
  let daysInMonth := 30%nat in
  let maxEmailsPerDay := (List.length alertsByExpiry * 4)%nat in
  let estimatedEmailsPerMonth := (maxEmailsPerDay * daysInMonth)%nat in
  let callAlerts := List.filter Alert.isCall alerts in
  let putAlerts := List.filter Alert.isPut alerts in
  {| estimatedEmailsPerMonth := estimatedEmailsPerMonth;
     currentAlerts := List.length alerts;
     bullishSignals := List.length callAlerts;
     bearishSignals := List.length putAlerts;
     uniqueExpiries := List.length alertsByExpiry |}.

End Historical.

(** ** monitor.js and emailService.js *)

Module BasicMonitor.

(** [parseExpiryDate(instrumentName)]: the second segment as it stands. *)
Definition parseExpiryDate (instrumentName : JSString.t) : JSString.t :=
  match JSString.split 45 instrumentName with
  | _ :: expiry :: _ => expiry
  | _ => JSString.lit "UNKNOWN"
  end.

(** The property names that an object literal inherits from
    [Object.prototype]. *)
Definition inheritedNames : list JSString.t :=
  List.map JSString.lit
    [ "constructor"; "__defineGetter__"; "__defineSetter__"; "hasOwnProperty";
      "__lookupGetter__"; "__lookupSetter__"; "isPrototypeOf";
      "propertyIsEnumerable"; "toString"; "valueOf"; "__proto__";
      "toLocaleString" ].

Definition inherited (key : JSString.t) : bool :=
  existsb (JSString.eqb key) inheritedNames.

(** [if (!groups[key]) groups[key] = []; groups[key].push(x)] for a key
    that is no inherited name. *)
Fixpoint pushKeyed {A : Type} (key : JSString.t) (x : A)
    (groups : list (JSString.t * list A)) : list (JSString.t * list A) :=
  match groups with
  | [] => [(key, [x])]
  | (k, xs) :: rest =>
      if JSString.eqb k key then (k, List.app xs [x]) :: rest
      else (k, xs) :: pushKeyed key x rest
  end.

(** The body of the first [forEach] of [calculateExpiryStats]; [None]
    is a [TypeError] thrown.  Here a key is any string that the feed
    sends: under an inherited name [expiryGroups[expiry]] is a function
    or an object from the start, the array is not created, and the call
    of [push], which that value does not have, throws. *)
Definition groupOption (expiryGroups : option (list (JSString.t * list Monitor.bookSummary)))
    (opt : Monitor.bookSummary) : option (list (JSString.t * list Monitor.bookSummary)) :=
  match expiryGroups with
  | None => None
  | Some groups =>
      let expiry := parseExpiryDate (Monitor.instrument_name opt) in
      if inherited expiry then None else Some (pushKeyed expiry opt groups)
  end.

Record stats : Type := {
  avgPrice : Q;
  avgVolume : Q;
  count : nat
}.

(** The entry written to [expiryStats] for one group, if any. *)
Definition cohortStats (opts : list Monitor.bookSummary) : option stats :=
  let validPrices := valid Monitor.mark_price opts in
  let validVolumes := valid Monitor.volume_usd opts in
  match validPrices, validVolumes with
  | _ :: _, _ :: _ =>
      Some {| avgPrice := sum validPrices / len validPrices;
              avgVolume := sum validVolumes / len validVolumes;
              count := List.length opts |}
  | _, _ => None
  end.

(** [calculateExpiryStats(options)].  The groups are listed in the order
    in which they were created; [Object.entries] may enumerate them in
    another order, which the statistics, written under one key for each
    group, do not depend on. *)
Definition calculateExpiryStats (options : list Monitor.bookSummary)
    : option (list (JSString.t * list Monitor.bookSummary) * gmap (list Z) stats) :=
  match fold_left groupOption options (Some []) with
  | None => None
  | Some expiryGroups =>
      Some (expiryGroups,
            fold_left
              (fun expiryStats (entry : JSString.t * list Monitor.bookSummary) =>
                 match cohortStats (snd entry) with
                 | Some s => <[fst entry := s]> expiryStats
                 | None => expiryStats
                 end)
              expiryGroups ∅)
  end.

(** The quotient of a positive number by an average: an infinity when
    the average is 0. *)
Inductive ratio : Type := Finite (q : Q) | Infinity.

Definition quotient (x y : Q) : ratio :=
  if Qeq_bool y 0 then Infinity else Finite (x / y).

(** [r >= c] and [r <= c]. *)
Definition atLeast (r : ratio) (c : Q) : bool :=
  match r with Finite q => Qle_bool c q | Infinity => true end.
Definition atMost (r : ratio) (c : Q) : bool :=
  match r with Finite q => Qle_bool q c | Infinity => false end.

Inductive alertType : Type := PRICE_SPIKE | PRICE_DROP | VOLUME_SPIKE | COMBINED.

Module Alert.
Record t : Type := {
  symbol : JSString.t;
  currentPrice : Q;
  priceRatio : ratio;
  volumeRatio : ratio;
  timestamp : Z;
  expiryDate : JSString.t;
  type : alertType
}.
End Alert.

(** The body of the [forEach] of [detectIrregularities]: the alert
    pushed for [opt], if any.  A key under which [expiryStats] has no
    entry of its own reads as [undefined] or as an inherited value
    without averages, whose ratios are [NaN] and pass no test: no alert
    either way. *)
Definition irregularity (now : Z) (expiryStats : gmap (list Z) stats)
    (opt : Monitor.bookSummary) : option Alert.t :=
  let expiry := parseExpiryDate (Monitor.instrument_name opt) in
  match expiryStats !! expiry with
  | None => None
  | Some stats =>
      if Qle_bool (Monitor.mark_price opt) 0 || Qle_bool (Monitor.volume_usd opt) 0
      then None
      else
        let priceRatio := quotient (Monitor.mark_price opt) (avgPrice stats) in
        let volumeRatio := quotient (Monitor.volume_usd opt) (avgVolume stats) in
        let isExtremePriceSpike := atLeast priceRatio 3 in
        let isExtremePriceDrop := atMost priceRatio (1 # 2) in
        let isExtremeVolumeSpike := atLeast volumeRatio 5 in
        let isCombinedAnomaly :=
          (atLeast priceRatio (5 # 2) || atMost priceRatio (6 # 10))
          && (atLeast volumeRatio 4 || atMost volumeRatio (6 # 10)) in
        if isExtremePriceSpike || isExtremePriceDrop || isExtremeVolumeSpike
           || isCombinedAnomaly
        then Some {| Alert.symbol := Monitor.instrument_name opt;
                     Alert.currentPrice := Monitor.mark_price opt;
                     Alert.priceRatio := priceRatio;
                     Alert.volumeRatio := volumeRatio;
                     Alert.timestamp := now;
                     Alert.expiryDate := expiry;
                     Alert.type :=
                       if isExtremePriceSpike then PRICE_SPIKE
                       else if isExtremePriceDrop then PRICE_DROP
                       else if isExtremeVolumeSpike then VOLUME_SPIKE
                       else COMBINED |}
        else None
  end.

Definition detectIrregularities (now : Z) (options : list Monitor.bookSummary)
    (expiryStats : gmap (list Z) stats) : list Alert.t :=
  List.flat_map
    (fun opt => match irregularity now expiryStats opt with
                | Some a => [a]
                | None => []
                end)
    options.

(** The first two steps of [monitorOptions] on fetched data; [None] when
    [calculateExpiryStats] throws. *)
Definition evaluateSnapshot (now : Z) (options : list Monitor.bookSummary)
    : option (list Alert.t) :=
  match calculateExpiryStats options with
  | None => None
  | Some (_, expiryStats) => Some (detectIrregularities now options expiryStats)
  end.

End BasicMonitor.

Module EmailService.

(** The four counts that [sendAlertEmail] prints in the message. *)
Record counts : Type := {
  extremePriceSpikes : nat;
  extremePriceDrops : nat;
  extremeVolumeSpikes : nat;
  combinedAnomalies : nat
}.

Definition categoryCounts (alerts : list BasicMonitor.Alert.t) : counts :=
  {| extremePriceSpikes :=
       List.length
         (List.filter
            (fun a => BasicMonitor.atLeast (BasicMonitor.Alert.priceRatio a) 3) alerts);
     extremePriceDrops :=
       List.length
         (List.filter
            (fun a => BasicMonitor.atMost (BasicMonitor.Alert.priceRatio a) (1 # 2))
            alerts);
     extremeVolumeSpikes :=
       List.length
         (List.filter
            (fun a => BasicMonitor.atLeast (BasicMonitor.Alert.volumeRatio a) 5) alerts);
     combinedAnomalies :=
       List.length
         (List.filter
            (fun a =>
               (BasicMonitor.atLeast (BasicMonitor.Alert.priceRatio a) (5 # 2)
                || BasicMonitor.atMost (BasicMonitor.Alert.priceRatio a) (6 # 10))
               && (BasicMonitor.atLeast (BasicMonitor.Alert.volumeRatio a) 4
                   || BasicMonitor.atMost (BasicMonitor.Alert.volumeRatio a) (6 # 10)))
            alerts) |}.

End EmailService.

(** ** Vocabulary of the specification *)

Module Spec.

(** A value clamped to [[0,1]]. *)
Definition clamp01 (x : Q) : Q :=
  if Qltb x 0 then 0 else if Qltb 1 x then 1 else x.


(** [|future - reference| / reference >= 0.02]. *)
Definition movedTwoPercent (future reference : Q) : bool :=
  Qle_bool (2 # 100) (Qabs (future - reference) / reference).

(** A list in descending order of a key. *)
Definition descending {A : Type} (key : A -> Q) (l : list A) : Prop :=
  StronglySorted (fun a b => key b <= key a) l.

(** The records of one score, in the order in which they occur. *)
Definition withScore {A : Type} (key : A -> Q) (s : Q) (l : list A) : list A :=
  List.filter (fun a => Qeq_bool (key a) s) l.

End Spec.

(** ** Quotes that are scored *)

(** [q] is a member of a group that [calculateAdvancedStats] builds from
    [options]: the quotes over which [detectHighProbabilityAlerts] runs. *)
Definition reachesScorer (th : Monitor.thresholds) (currentTime : Z)
    (options : list Monitor.bookSummary) (q : Monitor.groupedOption) : Prop :=
  exists key opts,
    In (key, opts) (Monitor.groupByExpiry th currentTime options) /\ In q opts.

(** What the aggregator guarantees of every member of a group. *)
Definition groupedWell (th : Monitor.thresholds) (currentTime : Z)
    (key : string) (q : Monitor.groupedOption) : Prop :=
  truthy (parseExpiryTimestamp (Monitor.instrument_name (Monitor.summary q)))
    = Some (Monitor.expiryTimestamp q)
  /\ key = expiryKeyOf (Monitor.expiryTimestamp q)
  /\ Monitor.timeToExpiry q
     == inject_Z (Monitor.expiryTimestamp q - currentTime) / inject_Z (1000 * 60 * 60)
  /\ Monitor.minTimeToExpiry th <= Monitor.timeToExpiry q
  /\ Monitor.timeToExpiry q <= Monitor.maxTimeToExpiry th.

(** [q] is scored by [detectHighProbabilityAlerts] against the statistics
    [st] of its group [cohort]: the group has an entry in [expiryStats],
    and the mark price of [q] is positive. *)
Definition liveScored (sqrt : Q -> Q) (th : Monitor.thresholds) (currentTime : Z)
    (options : list Monitor.bookSummary)
    (cohort : list Monitor.groupedOption) (st : Monitor.stats)
    (q : Monitor.groupedOption) : Prop :=
  exists key,
    In (key, cohort) (Monitor.groupByExpiry th currentTime options)
    /\ In q cohort
    /\ snd (Monitor.calculateAdvancedStats sqrt th currentTime options) !! key = Some st
    /\ 0 < Monitor.markPriceOf q.

(** [b] is scored by [detectAnomalies], as [runBacktest] calls it on the
    options of a sample, against the statistics [st] of its group
    [cohort]. *)
Definition backtestScored (sqrt : Q -> Q) (options : list Backtester.option_)
    (cohort : list Backtester.option_) (st : Backtester.stats)
    (b : Backtester.option_) : Prop :=
  exists ts,
    In b options
    /\ truthy (parseExpiryTimestamp (Backtester.instrument b)) = Some ts
    /\ In (expiryKeyOf ts, cohort) (Backtester.groupByExpiry options)
    /\ Backtester.calculateExpiryStats sqrt options !! expiryKeyOf ts = Some st
    /\ 0 < Backtester.markPrice b.

(** ** Samples of a backtest pass *)

(** The alerts that a pass computes for a sample; a sample that the pass
    skips has none computed. *)
Definition sampleAlerts (sqrt : Q -> Q) (priceThreshold volumeThreshold oiThreshold : Q)
    (d : Backtester.dataPoint) : list Backtester.Alert.t :=
  match Backtester.truthyPrice (Backtester.futureETHPrice d) with
  | None => []
  | Some _ =>
      Backtester.detectAnomalies (Backtester.options d)
        (Backtester.calculateExpiryStats sqrt (Backtester.options d))
        priceThreshold volumeThreshold oiThreshold
  end.

Definition producesAlert (sqrt : Q -> Q) (priceThreshold volumeThreshold oiThreshold : Q)
    (d : Backtester.dataPoint) : bool :=
  match sampleAlerts sqrt priceThreshold volumeThreshold oiThreshold d with
  | [] => false
  | _ :: _ => true
  end.

(** The reference price of the sample moved by 2% or more. *)
Definition sampleMoved (d : Backtester.dataPoint) : bool :=
  match Backtester.futureETHPrice d with
  | Some future => Spec.movedTwoPercent future (Backtester.ethPrice d)
  | None => false
  end.

(** A sample that a pass does not skip: its later reference price is
    there and is not 0. *)
Definition usable (d : Backtester.dataPoint) : bool :=
  match Backtester.truthyPrice (Backtester.futureETHPrice d) with
  | Some _ => true
  | None => false
  end.

(** The candidates of a grid search in the order in which
    [testThresholds] tries them: the price threshold varies slowest, the
    open-interest threshold fastest. *)
Definition gridOf (sqrt : Q -> Q) (historicalData : list Backtester.dataPoint)
    (priceThresholds volumeThresholds oiThresholds : list Q)
    : list Backtester.gridResult :=
  List.flat_map (fun priceT =>
    List.flat_map (fun volumeT =>
      List.map (fun oiT =>
        {| Backtester.priceThreshold := priceT;
           Backtester.volumeThreshold := volumeT;
           Backtester.oiThreshold := oiT;
           Backtester.result :=
             Backtester.runBacktest sqrt historicalData priceT volumeT oiT |})
        oiThresholds)
      volumeThresholds)
    priceThresholds.

(** The success rate by which the grid is sorted. *)
Definition rateOf (r : Backtester.gridResult) : Q :=
  Backtester.successRate (Backtester.result r).

Definition zeroResult : Backtester.backtestResult :=
  {| Backtester.totalAlerts := 0;
     Backtester.successful := 0;
     Backtester.falsePositives := 0;
     Backtester.successRate := 0;
     Backtester.precision := 0 |}.

Definition poorText : string :=
  "POOR: Very low success rate. Criteria need significant refinement.".

(** ** The clock *)

(** Every recorded alert bears a reading of the clock that is later than
    the epoch, as every reading of [Date.now()] in operation is. *)
Definition clockAfterEpoch (st : State.state) : Prop :=
  forall expiry last, State.lastAlertTime st !! expiry = Some last -> (0 < last)%Z.

(** ** Grouping, as a specification *)

(** The results of [f] on the elements on which it has one, in order. *)
Fixpoint filterMap {X Y : Type} (f : X -> option Y) (l : list X) : list Y :=
  match l with
  | [] => []
  | x :: rest =>
      match f x with
      | Some y => y :: filterMap f rest
      | None => filterMap f rest
      end
  end.

(** The values filed under [key] in a list of keyed values, in order. *)
Definition membersOf {A : Type} (key : string) (keyed : list (string * A)) : list A :=
  List.map snd (List.filter (fun kv => String.eqb (fst kv) key) keyed).

(** [groups] are the groups of the keyed values [keyed]: one group for
    each key that occurs, holding the values of the key in order. *)
Definition groupsOfKeyed {A : Type} (groups : list (string * list A))
    (keyed : list (string * A)) : Prop :=
  NoDup (List.map fst groups)
  /\ forall k xs, In (k, xs) groups <-> xs <> [] /\ xs = membersOf k keyed.

(** What the live aggregator files for a quote: nothing when the expiry
    does not parse or lies outside the window. *)
Definition admitted (th : Monitor.thresholds) (currentTime : Z)
    (opt : Monitor.bookSummary) : option (string * Monitor.groupedOption) :=
  match truthy (parseExpiryTimestamp (Monitor.instrument_name opt)) with
  | None => None
  | Some ts =>
      let tte := inject_Z (ts - currentTime) / inject_Z (1000 * 60 * 60) in
      if Qltb tte (Monitor.minTimeToExpiry th) || Qltb (Monitor.maxTimeToExpiry th) tte
      then None
      else Some (expiryKeyOf ts,
                 {| Monitor.summary := opt;
                    Monitor.timeToExpiry := tte;
                    Monitor.expiryTimestamp := ts |})
  end.

(** What the backtester files for a stored quote. *)
Definition filed (opt : Backtester.option_) : option (string * Backtester.option_) :=
  match truthy (parseExpiryTimestamp (Backtester.instrument opt)) with
  | None => None
  | Some ts => Some (expiryKeyOf ts, opt)
  end.

(** ** Dispatch, as a specification *)

(** An alert is sent for [entry] when the gate, read in the state [st]
    in which the loop starts, is open for its cohort and the mail is
    delivered. *)
Definition dispatched (e : State.env) (transport : string -> list Monitor.Alert.t -> bool)
    (checkTime : string -> Z) (st : State.state)
    (entry : string * list Monitor.Alert.t) : bool :=
  State.shouldSendAlert e st (checkTime (fst entry)) (fst entry)
  && Monitor.sendAdvancedAlertEmail e transport (snd entry) (fst entry).


(** ** Outcomes of a check *)

(** How a run of [monitorOptionsAdvanced] ends: it completes, or it
    throws and its [catch] block records the message. *)
Inductive checkOutcome : Type :=
| Completed (lastCheck : string)
    (optionsChecked irregularitiesFound emailsSent checkDuration : Z)
    (ethPrice : option Q)
| Failed (lastCheck message : string).

Definition statusOf (o : checkOutcome) : State.statusUpdate :=
  match o with
  | Completed lastCheck optionsChecked irregularitiesFound emailsSent checkDuration
      ethPrice =>
      Monitor.checkCompleted lastCheck optionsChecked irregularitiesFound emailsSent
        checkDuration ethPrice
  | Failed lastCheck message => Monitor.checkFailed lastCheck message
  end.

(** The status after a sequence of checks. *)
Definition statusAfter (ms : State.monitorStatus) (outcomes : list checkOutcome)
    : State.monitorStatus :=
  fold_left (fun s o => State.updateMonitorStatus s (statusOf o)) outcomes ms.

(** The message of the last failed check, if any. *)
Fixpoint lastFailure (outcomes : list checkOutcome) : option string :=
  match outcomes with
  | [] => None
  | o :: rest =>
      match lastFailure rest with
      | Some message => Some message
      | None => match o with
                | Failed _ message => Some message
                | Completed _ _ _ _ _ _ => None
                end
      end
  end.

(** ** Cohorts without a deviating quote *)


(** ** The two aggregators side by side *)

(** The statistics of the live aggregator, less the deviation of the
    open interest, which the backtester does not keep. *)
Definition sharedFields (st : Monitor.stats) : Backtester.stats :=
  {| Backtester.avgPrice := Monitor.avgPrice st;
     Backtester.avgVolume := Monitor.avgVolume st;
     Backtester.avgOI := Monitor.avgOI st;
     Backtester.stdPrice := Monitor.stdPrice st;
     Backtester.stdVolume := Monitor.stdVolume st;
     Backtester.count := Monitor.count st |}.

(** The stored form of a grouped quote, as a snapshot taken at [now]
    holds it. *)
Definition storedOf (now : Z) (q : Monitor.groupedOption) : Backtester.option_ :=
  Backtester.collectOption now (Monitor.summary q).

(** ** Symbols of calendar dates *)

Definition monthNames : list string :=
  ["JAN"; "FEB"; "MAR"; "APR"; "MAY"; "JUN"; "JUL"; "AUG"; "SEP"; "OCT"; "NOV"; "DEC"].

(** The name of month [m], 0 being January. *)
Definition monthName (m : Z) : string := List.nth (Z.to_nat m) monthNames EmptyString.

(** The number of days of month [month], 0 being January, of [year]. *)
Definition daysInMonth (year month : Z) : Z :=
  match month with
  | 1%Z => if JSDate.InLeapYear year then 29%Z else 28%Z
  | 3%Z | 5%Z | 8%Z | 10%Z => 30%Z
  | _ => 31%Z
  end.

(** The day of the month as a symbol writes it: in two digits when
    [padded], else in as many as it takes. *)
Definition dayString (padded : bool) (d : Z) : string :=
  if padded || negb (d <? 10) then JSAscii.digits 2 d else JSAscii.digits 1 d.

(** The expiry segment of day [d] of month [m] of the year [2000 + yy],
    e.g. ["7NOV25"]. *)
Definition expirySegment (padded : bool) (d m yy : Z) : JSString.t :=
  List.app (JSString.lit (dayString padded d))
    (List.app (JSString.lit (monthName m)) (JSString.lit (JSAscii.digits 2 yy))).

(** The ISO date of the same day, e.g. ["2025-11-07"]. *)
Definition isoDate (d m yy : Z) : string :=
  String.concat "-"
    [JSAscii.digits 4 (2000 + yy); JSAscii.digits 2 (m + 1); JSAscii.digits 2 d].

(** A symbol with the asset [asset] before the expiry segment and
    [rest] after it; [rest] is empty or starts with a hyphen. *)
Definition symbolOf (asset segment rest : JSString.t) : JSString.t :=
  List.app asset (45%Z :: List.app segment rest).

Definition hyphenated (rest : JSString.t) : Prop :=
  rest = [] \/ exists r, rest = 45%Z :: r.

(** [d], [m], [yy] denote a day of the calendar between 2000 and 2099. *)
Definition calendarDate (d m yy : Z) : Prop :=
  (0 <= yy <= 99 /\ 0 <= m <= 11 /\ 1 <= d <= daysInMonth (2000 + yy) m)%Z.

(** 08:00 UTC on that day. *)
Definition expiryInstant (d m yy : Z) : Z :=
  (JSDate.MakeDay (2000 + yy) m d * JSDate.msPerDay + 8 * JSDate.msPerHour)%Z.

(** The numbers from 0 below [n]. *)
Definition range (n : nat) : list Z := List.map Z.of_nat (List.seq 0 n).

(** The day number of day [d0 + 1] of a month is that of its civil date,
    and its instant is a time value. *)
Definition dayNumberRoundTrips (yy m d0 : Z) : bool :=
  let d := (d0 + 1)%Z in
  (daysInMonth (2000 + yy) m <? d)%Z
  || (match JSDate.civil_from_days (JSDate.MakeDay (2000 + yy) m d) with
      | (y', m', d') => (y' =? 2000 + yy)%Z && (m' =? m + 1)%Z && (d' =? d)%Z
      end
      && (Z.abs (expiryInstant d m yy) <=? 8640000000000000)%Z).

(** What [parseInt] and [monthMap] make of the pieces of a segment. *)
Definition dayStringReads (d0 : Z) : bool :=
  let d := (d0 + 1)%Z in
  List.forallb (fun padded =>
    negb (JSString.includes (JSString.lit (dayString padded d)) 45)
    && match JSString.parseInt (JSString.lit (dayString padded d)) with
       | JNum z => (z =? d)%Z
       | JNaN => false
       end) [false; true].

Definition yearStringReads (yy : Z) : bool :=
  negb (JSString.includes (JSString.lit (JSAscii.digits 2 yy)) 45)
  && (List.length (JSString.lit (JSAscii.digits 2 yy)) =? 2)%nat
  && match JSString.parseInt (JSString.lit (JSAscii.digits 2 yy)) with
     | JNum z => (z =? yy)%Z
     | JNaN => false
     end.

Definition monthNameReads (m : Z) : bool :=
  negb (JSString.includes (JSString.lit (monthName m)) 45)
  && (List.length (JSString.lit (monthName m)) =? 3)%nat
  && match monthMap (JSString.lit (monthName m)) with
     | Some z => (z =? m)%Z
     | None => false
     end.

(** [c] occurs in the printed string [s]. *)
Fixpoint occurs (c : ascii) (s : string) : bool :=
  match s with
  | EmptyString => false
  | String a rest => Ascii.eqb a c || occurs c rest
  end.

(** ** Data of the examples *)

(** 2025-11-06T08:00:00Z, one day before the expiry of the quotes below. *)
Definition demoNow : Z := 1762416000000.

Definition demoQuote (name : JSString.t) (price vol oi : Q) : Monitor.bookSummary :=
  {| Monitor.instrument_name := name;
     Monitor.mark_price := price;
     Monitor.volume_usd := vol;
     Monitor.open_interest := oi |}.

(** A cohort of three quotes, the last of which never traded. *)
Definition demoBook : list Monitor.bookSummary :=
  [ demoQuote (JSString.lit "ETH-7NOV25-3300-C") 1 10 5;
    demoQuote (JSString.lit "ETH-7NOV25-3400-C") 1 30 5;
    demoQuote (JSString.lit "ETH-7NOV25-3500-C") 1 0 5 ].

Definition demoGroups : list (string * list Monitor.groupedOption) :=
  Eval vm_compute in
    Monitor.groupByExpiry Monitor.OPTIMAL_THRESHOLDS demoNow demoBook.

(** The members of the one cohort of [demoBook]. *)
Definition demoCohort : list Monitor.groupedOption := List.flat_map snd demoGroups.

Definition demoGrouped (i : nat) : Monitor.groupedOption :=
  List.nth i demoCohort
    {| Monitor.summary := demoQuote [] 0 0 0;
       Monitor.timeToExpiry := 0;
       Monitor.expiryTimestamp := 0 |}.

Definition demoOption (name : JSString.t) (price vol oi : Q) : Backtester.option_ :=
  {| Backtester.instrument := name;
     Backtester.markPrice := price;
     Backtester.volume := vol;
     Backtester.openInterest := oi;
     Backtester.timeToExpiry := Some 24 |}.

(** Two stored quotes of one cohort, whose open interests lie far apart
    and the second of which never traded. *)
Definition demoOptions : list Backtester.option_ :=
  [ demoOption (JSString.lit "ETH-7NOV25-3300-C") 1 10 100;
    demoOption (JSString.lit "ETH-7NOV25-3400-C") 1 0 2 ].

(** A sample of these quotes at a reference price of 3000. *)
Definition demoPoint (future : option Q) : Backtester.dataPoint :=
  {| Backtester.timestamp := demoNow;
     Backtester.ethPrice := 3000;
     Backtester.options := demoOptions;
     Backtester.futureETHPrice := future |}.

(** A cohort of ten quotes, none with open interest.  The first two
    stand at twice the price of the others; four have traded. *)
Definition tieBook : list Monitor.bookSummary :=
  [ demoQuote (JSString.lit "ETH-7NOV25-3000-C") 2 1 0;
    demoQuote (JSString.lit "ETH-7NOV25-3100-C") 2 313 0;
    demoQuote (JSString.lit "ETH-7NOV25-3200-C") 1 24 0;
    demoQuote (JSString.lit "ETH-7NOV25-3300-C") 1 288 0;
    demoQuote (JSString.lit "ETH-7NOV25-3400-C") 1 0 0;
    demoQuote (JSString.lit "ETH-7NOV25-3500-C") 1 0 0;
    demoQuote (JSString.lit "ETH-7NOV25-3600-C") 1 0 0;
    demoQuote (JSString.lit "ETH-7NOV25-3700-C") 1 0 0;
    demoQuote (JSString.lit "ETH-7NOV25-3800-C") 1 0 0;
    demoQuote (JSString.lit "ETH-7NOV25-3900-C") 1 0 0 ].

Definition tieCohort : list Monitor.groupedOption :=
  List.flat_map snd
    (Monitor.groupByExpiry Monitor.OPTIMAL_THRESHOLDS demoNow tieBook).

Definition tieGrouped (i : nat) : Monitor.groupedOption :=
  List.nth i tieCohort
    {| Monitor.summary := demoQuote [] 0 0 0;
       Monitor.timeToExpiry := 0;
       Monitor.expiryTimestamp := 0 |}.

(** ** The historical analysis and the live monitor *)

(** The alert [h] of the historical analysis and the live alert [l]
    report the same finding: the same quote and cohort, and the numbers
    of [l] are those of [h] as [toFixed] prints them. *)
Definition sameFinding (h : Historical.Alert.t) (l : Monitor.Alert.t) : Prop :=
  Historical.Alert.symbol h = Monitor.Alert.symbol l
  /\ Historical.Alert.expiryDate h = Monitor.Alert.expiryDate l
  /\ Historical.Alert.currentPrice h = Monitor.Alert.currentPrice l
  /\ Historical.Alert.volume h = Monitor.Alert.volume l
  /\ toFixed 1 (Historical.Alert.timeToExpiry h) = Monitor.Alert.timeToExpiry l
  /\ toFixed 2 (Historical.Alert.anomalyScore h) = Monitor.Alert.anomalyScore l
  /\ toFixed 2 (Historical.Alert.priceZScore h) = Monitor.Alert.priceZScore l
  /\ toFixed 2 (Historical.Alert.volumeZScore h) = Monitor.Alert.volumeZScore l.

(** ** The basic monitor, as a specification *)

(** The quotes of a snapshot whose second segment is [key], in order. *)
Definition segmentCohort (key : JSString.t) (options : list Monitor.bookSummary)
    : list Monitor.bookSummary :=
  List.filter
    (fun opt => JSString.eqb (BasicMonitor.parseExpiryDate (Monitor.instrument_name opt)) key)
    options.

(** The group listed under [key], empty when there is none. *)
Definition groupUnder {A : Type} (key : JSString.t)
    (groups : list (JSString.t * list A)) : list A :=
  match List.find (fun entry => JSString.eqb (fst entry) key) groups with
  | Some entry => snd entry
  | None => []
  end.

(** The alerts of one type. *)
Definition ofType (ty : BasicMonitor.alertType) (alerts : list BasicMonitor.Alert.t)
    : list BasicMonitor.Alert.t :=
  List.filter
    (fun a => match BasicMonitor.Alert.type a, ty with
              | BasicMonitor.PRICE_SPIKE, BasicMonitor.PRICE_SPIKE
              | BasicMonitor.PRICE_DROP, BasicMonitor.PRICE_DROP
              | BasicMonitor.VOLUME_SPIKE, BasicMonitor.VOLUME_SPIKE
              | BasicMonitor.COMBINED, BasicMonitor.COMBINED => true
              | _, _ => false
              end)
    alerts.

(** * Properties *)

(** ** Auxiliary facts on rationals *)

Lemma Qltb_lt (a b : Q) : Qltb a b = true <-> a < b.
Proof.
  unfold Qltb. rewrite negb_true_iff. split.
  - intros H. apply Qnot_le_lt. intros Hle. apply Qle_bool_iff in Hle. congruence.
  - intros H. destruct (Qle_bool b a) eqn:E; [|reflexivity].
    apply Qle_bool_iff in E. lra.
Qed.

Lemma Qltb_ge (a b : Q) : Qltb a b = false <-> b <= a.
Proof.
  unfold Qltb. rewrite negb_false_iff. apply Qle_bool_iff.
Qed.

Lemma Qle_bool_gt (a b : Q) : Qle_bool a b = false <-> b < a.
Proof.
  split.
  - intros H. apply Qnot_le_lt. intros Hle. apply Qle_bool_iff in Hle. congruence.
  - intros H. destruct (Qle_bool a b) eqn:E; [|reflexivity].
    apply Qle_bool_iff in E. lra.
Qed.

Lemma Qdiv_le_mono (a b c : Q) : 0 < c -> a <= b -> a / c <= b / c.
Proof.
  intros Hc Hab. unfold Qdiv. apply Qmult_le_compat_r; [exact Hab|].
  apply Qlt_le_weak, Qinv_lt_0_compat, Hc.
Qed.

Lemma Qabs_div_pos (a b : Q) : 0 < b -> Qabs (a / b) == Qabs a / b.
Proof.
  intros Hb. unfold Qdiv.
  rewrite Qabs_Qmult, Qabs_Qinv, (Qabs_pos b) by lra. reflexivity.
Qed.

Lemma inject_Z_pos (h : Z) : (0 < h)%Z -> 0 < inject_Z h.
Proof. intros H. unfold Qlt, inject_Z; simpl. lia. Qed.

(** ** Sums and deviations *)

Lemma fold_Qplus_acc (values : list Q) :
  forall acc, fold_left Qplus values acc == acc + sum values.
Proof.
  unfold sum. induction values as [|v values IH]; intros acc; simpl; [lra|].
  rewrite (IH (acc + v)), (IH (0 + v)). lra.
Qed.

Lemma sum_cons (v : Q) (values : list Q) : sum (v :: values) == v + sum values.
Proof. unfold sum at 1. simpl. rewrite fold_Qplus_acc. lra. Qed.

Lemma sum_nonneg (values : list Q) :
  (forall v, In v values -> 0 <= v) -> 0 <= sum values.
Proof.
  induction values as [|v values IH]; intros H; [unfold sum; simpl; lra|].
  rewrite sum_cons.
  assert (0 <= v) by (apply H; left; reflexivity).
  assert (0 <= sum values) by (apply IH; intros w Hw; apply H; right; exact Hw).
  lra.
Qed.


Lemma len_positive {X : Type} (x : X) (l : list X) : 0 < len (x :: l).
Proof. unfold len. apply inject_Z_pos. simpl. lia. Qed.




(** ** The expiry parser *)

(** C8. The symbol ["ETH-7NOV25-3300-C"] parses to the time value of
    2025-11-07T08:00:00Z, and the cohort key derived from that instant,
    also when it is derived by the aggregator, is ["2025-11-07"]. *)
Theorem parse_ETH_7NOV25 :
  parseExpiryTimestamp (JSString.lit "ETH-7NOV25-3300-C") = Some (JNum 1762502400000)
  /\ JSDate.toISOString 1762502400000 = "2025-11-07T08:00:00.000Z"
  /\ expiryKeyOf 1762502400000 = "2025-11-07"
  /\ List.map fst
       (Monitor.groupByExpiry Monitor.OPTIMAL_THRESHOLDS 1762416000000
          [ {| Monitor.instrument_name := JSString.lit "ETH-7NOV25-3300-C";
               Monitor.mark_price := 1 # 100;
               Monitor.volume_usd := 1000;
               Monitor.open_interest := 50 |} ])
     = ["2025-11-07"].
Proof. repeat split; vm_compute; reflexivity. Qed.

(** What [parseInt] reads: white space at the start is skipped, also
    outside ASCII (U+00A0, U+FEFF, U+2003), then a sign, then the digits
    up to the first character that is none; ["0x"] switches to radix 16.
    A day prefix that starts with a no-break space is read all the
    same. *)
Example parseInt_reads :
  JSString.parseInt (JSString.lit "7") = JNum 7
  /\ JSString.parseInt (160%Z :: JSString.lit "7") = JNum 7
  /\ JSString.parseInt (65279%Z :: 8195%Z :: JSString.lit " 12px") = JNum 12
  /\ JSString.parseInt (JSString.lit "-7") = JNum (-7)
  /\ JSString.parseInt (JSString.lit "0x1F") = JNum 31
  /\ JSString.parseInt (JSString.lit "") = JNaN
  /\ JSString.parseInt (JSString.lit "NOV") = JNaN
  /\ parseExpiryTimestamp
       (List.app (JSString.lit "ETH-") (160%Z :: JSString.lit "7NOV25-3300-C"))
     = Some (JNum 1762502400000).
Proof. repeat split; vm_compute; reflexivity. Qed.

(** ** Grouping by expiry *)

Lemma pushGroup_In {A : Type} (key : string) (x : A) (groups : list (string * list A))
    (k : string) (xs : list A) (y : A) :
  In (k, xs) (pushGroup key x groups) -> In y xs ->
  (exists xs', In (k, xs') groups /\ In y xs') \/ (k = key /\ y = x).
Proof.
  induction groups as [|[k0 xs0] rest IH]; simpl; intros Hin Hy.
  - destruct Hin as [Heq|[]]. inversion Heq; subst.
    destruct Hy as [->|[]]. right. split; reflexivity.
  - destruct (String.eqb k0 key) eqn:E.
    + destruct Hin as [Heq|Hin].
      * inversion Heq; subst. apply in_app_or in Hy.
        destruct Hy as [Hy|[->|[]]].
        -- left. exists xs0. split; [left; reflexivity|exact Hy].
        -- right. apply String.eqb_eq in E. split; [exact E|reflexivity].
      * left. exists xs. split; [right; exact Hin|exact Hy].
    + destruct Hin as [Heq|Hin].
      * inversion Heq; subst. left. exists xs. split; [left; reflexivity|exact Hy].
      * destruct (IH Hin Hy) as [(xs' & H1 & H2)|H].
        -- left. exists xs'. split; [right; exact H1|exact H2].
        -- right. exact H.
Qed.

Lemma pushGroup_keys {A : Type} (key : string) (x : A) (groups : list (string * list A))
    (k : string) :
  In k (List.map fst (pushGroup key x groups)) <-> k = key \/ In k (List.map fst groups).
Proof.
  induction groups as [|[k0 xs0] rest IH]; simpl.
  - intuition.
  - destruct (String.eqb k0 key) eqn:E; simpl.
    + apply String.eqb_eq in E. subst. intuition.
    + rewrite IH. intuition.
Qed.

Lemma pushGroup_NoDup {A : Type} (key : string) (x : A) (groups : list (string * list A)) :
  NoDup (List.map fst groups) -> NoDup (List.map fst (pushGroup key x groups)).
Proof.
  induction groups as [|[k0 xs0] rest IH]; simpl; intros Hnd.
  - constructor; [intros []|constructor].
  - inversion Hnd as [|? ? Hnotin Hrest]; subst.
    destruct (String.eqb k0 key) eqn:E; simpl.
    + constructor; assumption.
    + constructor; [|apply IH, Hrest].
      rewrite pushGroup_keys. intros [->|Hin]; [|exact (Hnotin Hin)].
      rewrite String.eqb_refl in E. discriminate.
Qed.




Lemma groupOption_members th currentTime groups opt :
  (forall key opts q, In (key, opts) groups -> In q opts ->
                      groupedWell th currentTime key q) ->
  forall key opts q,
    In (key, opts) (Monitor.groupOption th currentTime groups opt) -> In q opts ->
    groupedWell th currentTime key q.
Proof.
  intros Hinv key opts q. unfold Monitor.groupOption.
  destruct (truthy _) as [ts|] eqn:Hts; [|apply Hinv].
  destruct (Qltb _ _ || Qltb _ _)%bool eqn:Hw; [apply Hinv|].
  apply orb_false_iff in Hw. destruct Hw as [Hlo Hhi].
  apply Qltb_ge in Hlo, Hhi.
  intros Hin Hq.
  destruct (pushGroup_In _ _ _ _ _ _ Hin Hq) as [(xs' & H1 & H2)|[-> ->]].
  - exact (Hinv _ _ _ H1 H2).
  - unfold groupedWell; simpl. repeat split; try assumption; reflexivity.
Qed.

Lemma groupByExpiry_members th currentTime options key opts q :
  In (key, opts) (Monitor.groupByExpiry th currentTime options) -> In q opts ->
  groupedWell th currentTime key q.
Proof.
  unfold Monitor.groupByExpiry.
  assert (Hgen : forall groups,
    (forall key opts q, In (key, opts) groups -> In q opts ->
                        groupedWell th currentTime key q) ->
    forall key opts q,
      In (key, opts) (fold_left (Monitor.groupOption th currentTime) options groups) ->
      In q opts -> groupedWell th currentTime key q).
  { induction options as [|opt options IH]; simpl; intros groups Hinv.
    - exact Hinv.
    - apply IH. apply groupOption_members. exact Hinv. }
  apply Hgen. intros ? ? ? [].
Qed.






(** ** Cohort statistics *)




Lemma valid_nil {X : Type} (f : X -> Q) (opts : list X) :
  (forall x, In x opts -> f x <= 0) -> valid f opts = [].
Proof.
  unfold valid. induction opts as [|x opts IH]; intros H; [reflexivity|].
  cbn [List.filter].
  assert (Hx : Qltb 0 (f x) = false) by (apply Qltb_ge, H; left; reflexivity).
  rewrite Hx. apply IH. intros y Hy. apply H. right. exact Hy.
Qed.

Lemma valid_positive {X : Type} (f : X -> Q) (opts : list X) (v : Q) :
  In v (valid f opts) -> 0 < v.
Proof.
  unfold valid. rewrite in_map_iff. intros (x & <- & Hx).
  apply filter_In in Hx. destruct Hx as [_ Hx]. apply Qltb_lt, Hx.
Qed.

Lemma valid_member {X : Type} (f : X -> Q) (opts : list X) (x : X) :
  In x opts -> 0 < f x -> In (f x) (valid f opts).
Proof.
  intros Hx Hpos. unfold valid. apply in_map, filter_In.
  split; [exact Hx|apply Qltb_lt, Hpos].
Qed.

Lemma average_positive (values : list Q) :
  values <> [] -> (forall v, In v values -> 0 < v) -> 0 < average values.
Proof.
  destruct values as [|v values]; [congruence|]. intros _ Hpos.
  unfold average. apply Qlt_shift_div_l; [apply len_positive|].
  rewrite sum_cons.
  assert (Hv : 0 < v) by (apply Hpos; left; reflexivity).
  assert (Hrest : 0 <= sum values).
  { apply sum_nonneg. intros w Hw. apply Qlt_le_weak, Hpos. right. exact Hw. }
  lra.
Qed.




(** ** The z-scores *)











(** Where the volume deviation of a cohort is 0, the backtesting scorer
    divides by [stats.stdVolume || 1]: the second quote of
    [demoOptions], which never traded, gets the difference to the mean,
    -10, for a z-score, where the live scorer gives 0. *)
Example backtest_volume_not_scaled :
  exists bst b,
    backtestScored sqrt_floor demoOptions demoOptions bst b
    /\ Backtester.stdVolume bst == 0
    /\ Backtester.volumeZScore bst b == - (10).
Proof.
  eexists _, (demoOption (JSString.lit "ETH-7NOV25-3400-C") 1 0 2). split.
  - exists 1762502400000%Z. split; [right; left; reflexivity|].
    split; [vm_compute; reflexivity|].
    split; [vm_compute; left; reflexivity|].
    split; vm_compute; reflexivity.
  - split; vm_compute; reflexivity.
Qed.

(** The open-interest z-score of the backtesting scorer is the plain
    difference to the mean: [calculateExpiryStats] computes no deviation
    of the open interest, and the divisor is the constant 1. *)
Example backtest_oi_not_scaled :
  match Backtester.cohortStats sqrt_floor demoOptions with
  | Some bst =>
      Backtester.avgOI bst == 51
      /\ Backtester.oiZScore bst
           (demoOption (JSString.lit "ETH-7NOV25-3300-C") 1 10 100) == 49
  | None => False
  end.
Proof. vm_compute. split; reflexivity. Qed.

(** ** Time decay *)

Lemma clamp01_id (x : Q) : 0 <= x -> x <= 1 -> Spec.clamp01 x = x.
Proof.
  intros H0 H1. unfold Spec.clamp01.
  destruct (Qltb x 0) eqn:E0; [apply Qltb_lt in E0; lra|].
  destruct (Qltb 1 x) eqn:E1; [apply Qltb_lt in E1; lra|]. reflexivity.
Qed.

Lemma clamp01_negative (x : Q) : x < 0 -> Spec.clamp01 x = 0.
Proof.
  intros H. unfold Spec.clamp01.
  destruct (Qltb x 0) eqn:E0; [reflexivity|apply Qltb_ge in E0; lra].
Qed.

Lemma unit_fraction (m h : Q) : 0 < m -> 0 <= h -> h <= m ->
  0 <= (m - h) / m /\ (m - h) / m <= 1.
Proof.
  intros Hm H0 H1. split.
  - apply Qle_shift_div_l; lra.
  - apply Qle_shift_div_r; lra.
Qed.

Lemma backtest_timeDecay_value (b : Backtester.option_) :
  0 <= Backtester.timeToExpiryOf b ->
  Backtester.timeDecayFactor b
    = Spec.clamp01 ((48 - Backtester.timeToExpiryOf b) / 48)
  /\ 0 <= Backtester.timeDecayFactor b /\ Backtester.timeDecayFactor b <= 1.
Proof.
  intros H0. unfold Backtester.timeDecayFactor.
  destruct (Qle_bool (Backtester.timeToExpiryOf b) 48) eqn:E.
  - apply Qle_bool_iff in E.
    destruct (unit_fraction 48 (Backtester.timeToExpiryOf b)) as [Hl Hu]; try lra.
    rewrite clamp01_id by assumption. auto.
  - apply Qle_bool_gt in E. rewrite clamp01_negative.
    + repeat split; lra.
    + apply Qlt_shift_div_r; lra.
Qed.

(** The hours to expiry of a stored quote are not negative. *)
Lemma collected_hours_nonneg (now : Z) (opt : Monitor.bookSummary) :
  0 <= Backtester.timeToExpiryOf (Backtester.collectOption now opt).
Proof.
  unfold Backtester.timeToExpiryOf, Backtester.collectOption, getTimeToExpiry; simpl.
  destruct (truthy _); [apply Q.le_max_l|lra].
Qed.

(** C6. The time-decay factor of a quote that reaches either scorer is
    [(maxWindowHours - hoursToExpiry) / maxWindowHours] clamped to
    [[0,1]]; it lies in [[0,1]] and does not increase with the hours to
    expiry.  In the live scorer the window filter of the aggregator
    (with [0 <= minTimeToExpiry] and [0 < maxTimeToExpiry], as in
    [OPTIMAL_THRESHOLDS]) does the clamping; in the backtesting scorer
    the hours to expiry are those of a stored snapshot, which are not
    negative. *)
Theorem timeDecay_clamped_monotone
    (th : Monitor.thresholds) (currentTime : Z) (options : list Monitor.bookSummary)
    (q q' : Monitor.groupedOption) (b b' : Backtester.option_) :
  (0 <= Monitor.minTimeToExpiry th -> 0 < Monitor.maxTimeToExpiry th ->
   reachesScorer th currentTime options q ->
   0 <= Monitor.timeToExpiry q
   /\ Monitor.timeDecayFactor th q
      = Spec.clamp01 ((Monitor.maxTimeToExpiry th - Monitor.timeToExpiry q)
                      / Monitor.maxTimeToExpiry th)
   /\ 0 <= Monitor.timeDecayFactor th q /\ Monitor.timeDecayFactor th q <= 1
   /\ (Monitor.timeToExpiry q <= Monitor.timeToExpiry q' ->
       Monitor.timeDecayFactor th q' <= Monitor.timeDecayFactor th q))
  /\ (0 <= Backtester.timeToExpiryOf b ->
      Backtester.timeDecayFactor b
      = Spec.clamp01 ((48 - Backtester.timeToExpiryOf b) / 48)
      /\ 0 <= Backtester.timeDecayFactor b /\ Backtester.timeDecayFactor b <= 1
      /\ (Backtester.timeToExpiryOf b <= Backtester.timeToExpiryOf b' ->
          Backtester.timeDecayFactor b' <= Backtester.timeDecayFactor b)).
Proof.
  split.
  - intros Hmin Hmax (key & opts & Hin & Hq).
    destruct (groupByExpiry_members _ _ _ _ _ _ Hin Hq) as (_ & _ & _ & Hlo & Hhi).
    unfold Monitor.timeDecayFactor.
    destruct (unit_fraction (Monitor.maxTimeToExpiry th) (Monitor.timeToExpiry q))
      as [Hl Hu]; try lra.
    rewrite clamp01_id by assumption.
    repeat split; try assumption; try lra.
    intros Hle. apply Qdiv_le_mono; lra.
  - intros Hb.
    destruct (backtest_timeDecay_value b Hb) as (Hval & Hb0 & Hb1).
    repeat split; try assumption.
    intros Hle. unfold Backtester.timeDecayFactor in *.
    destruct (Qle_bool (Backtester.timeToExpiryOf b') 48) eqn:E'.
    + apply Qle_bool_iff in E'.
      assert (E : Qle_bool (Backtester.timeToExpiryOf b) 48 = true)
        by (apply Qle_bool_iff; lra).
      rewrite E. apply Qdiv_le_mono; lra.
    + exact Hb0.
Qed.

Lemma timeDecay_clamped_monotone_witness :
  Monitor.timeDecayFactor Monitor.OPTIMAL_THRESHOLDS (demoGrouped 0) <= 1
  /\ Backtester.timeDecayFactor (demoOption (JSString.lit "ETH-7NOV25-3300-C") 1 10 100)
     = Spec.clamp01 ((48 - 24) / 48).
Proof.
  assert (Hreach : reachesScorer Monitor.OPTIMAL_THRESHOLDS demoNow demoBook
                     (demoGrouped 0)).
  { eexists _, _. split; [vm_compute; left; reflexivity|vm_compute; left; reflexivity]. }
  assert (Hmin : 0 <= Monitor.minTimeToExpiry Monitor.OPTIMAL_THRESHOLDS)
    by (vm_compute; discriminate).
  assert (Hmax : 0 < Monitor.maxTimeToExpiry Monitor.OPTIMAL_THRESHOLDS)
    by (vm_compute; reflexivity).
  assert (Hb : 0 <= Backtester.timeToExpiryOf
                      (demoOption (JSString.lit "ETH-7NOV25-3300-C") 1 10 100))
    by (vm_compute; discriminate).
  destruct (timeDecay_clamped_monotone Monitor.OPTIMAL_THRESHOLDS demoNow demoBook
              (demoGrouped 0) (demoGrouped 1)
              (demoOption (JSString.lit "ETH-7NOV25-3300-C") 1 10 100)
              (demoOption (JSString.lit "ETH-7NOV25-3400-C") 1 0 2)) as [Hlive Hback].
  destruct (Hlive Hmin Hmax Hreach) as (_ & _ & _ & Hle & _).
  destruct (Hback Hb) as (Hval & _).
  split; [exact Hle|exact Hval].
Defined.

(** ** The composite score *)

(** C7. With the weights held fixed, the weighted score does not
    decrease when one z-score grows, provided the weight of that z-score
    is not negative (the precondition on the caller), and it does not
    decrease when the time-decay factor grows. *)
Theorem weightedScore_monotone (th : Monitor.thresholds) (pz vz oz td x x' : Q) :
  x <= x' ->
  (0 <= Monitor.priceWeight th ->
   Monitor.weightedScore th x vz oz td <= Monitor.weightedScore th x' vz oz td)
  /\ (0 <= Monitor.volumeWeight th ->
      Monitor.weightedScore th pz x oz td <= Monitor.weightedScore th pz x' oz td)
  /\ (0 <= Monitor.oiWeight th ->
      Monitor.weightedScore th pz vz x td <= Monitor.weightedScore th pz vz x' td)
  /\ Monitor.weightedScore th pz vz oz x <= Monitor.weightedScore th pz vz oz x'.
Proof.
  intros Hx. unfold Monitor.weightedScore.
  repeat split; intros; nra.
Qed.

Lemma weightedScore_monotone_witness :
  Monitor.weightedScore Monitor.OPTIMAL_THRESHOLDS 1 2 3 (1 # 2)
  <= Monitor.weightedScore Monitor.OPTIMAL_THRESHOLDS 4 2 3 (1 # 2).
Proof.
  refine (proj1 (weightedScore_monotone Monitor.OPTIMAL_THRESHOLDS 1 2 3 (1 # 2) 1 4 _) _).
  - vm_compute. discriminate.
  - vm_compute. discriminate.
Defined.

(** ** The stable descending sort *)

Section SortFacts.
Context {A : Type}.
Variable key : A -> Q.

Lemma insert_desc_In (x a : A) (l : list A) :
  In a (insert_desc key x l) <-> a = x \/ In a l.
Proof.
  induction l as [|y l IH]; simpl.
  - intuition.
  - destruct (Qle_bool (key y) (key x)); simpl; [intuition|].
    rewrite IH. intuition.
Qed.

Lemma sort_desc_In (a : A) (l : list A) : In a (sort_desc key l) <-> In a l.
Proof.
  induction l as [|x l IH]; simpl; [reflexivity|].
  rewrite insert_desc_In, IH. intuition.
Qed.

Lemma insert_desc_Permutation (x : A) (l : list A) :
  Permutation (insert_desc key x l) (x :: l).
Proof.
  induction l as [|y l IH]; simpl; [reflexivity|].
  destruct (Qle_bool (key y) (key x)); [reflexivity|].
  rewrite IH. apply perm_swap.
Qed.

Lemma sort_desc_Permutation (l : list A) : Permutation (sort_desc key l) l.
Proof.
  induction l as [|x l IH]; simpl; [reflexivity|].
  rewrite insert_desc_Permutation, IH. reflexivity.
Qed.

Lemma insert_desc_descending (x : A) (l : list A) :
  Spec.descending key l -> Spec.descending key (insert_desc key x l).
Proof.
  unfold Spec.descending.
  induction l as [|y l IH]; simpl; intros Hs.
  - constructor; constructor.
  - inversion Hs as [|? ? Hl Hy]; subst.
    destruct (Qle_bool (key y) (key x)) eqn:E.
    + apply Qle_bool_iff in E. constructor; [exact Hs|].
      constructor; [exact E|].
      eapply Forall_impl; [|exact Hy]. simpl. intros b Hb. lra.
    + apply Qle_bool_gt in E. constructor; [apply IH, Hl|].
      apply Forall_forall. intros b Hb. apply insert_desc_In in Hb.
      destruct Hb as [->|Hb]; [lra|].
      rewrite Forall_forall in Hy. apply Hy, Hb.
Qed.

Lemma sort_desc_descending (l : list A) : Spec.descending key (sort_desc key l).
Proof.
  induction l as [|x l IH]; simpl.
  - constructor.
  - apply insert_desc_descending, IH.
Qed.

Lemma insert_desc_withScore (s : Q) (x : A) (l : list A) :
  Spec.withScore key s (insert_desc key x l) = Spec.withScore key s (x :: l).
Proof.
  unfold Spec.withScore.
  induction l as [|y l IH]; [reflexivity|].
  cbn [insert_desc].
  destruct (Qle_bool (key y) (key x)) eqn:E; [reflexivity|].
  apply Qle_bool_gt in E.
  cbn [List.filter] in *. rewrite IH.
  destruct (Qeq_bool (key x) s) eqn:Ex; [|reflexivity].
  destruct (Qeq_bool (key y) s) eqn:Ey; [|reflexivity].
  apply Qeq_bool_iff in Ex, Ey. lra.
Qed.

Lemma sort_desc_withScore (s : Q) (l : list A) :
  Spec.withScore key s (sort_desc key l) = Spec.withScore key s l.
Proof.
  induction l as [|x l IH]; [reflexivity|].
  cbn [sort_desc fold_right]. rewrite insert_desc_withScore.
  fold (sort_desc key l).
  unfold Spec.withScore in *. cbn [List.filter]. rewrite IH. reflexivity.
Qed.

End SortFacts.

(** ** Alerts and the quotes they come from *)

Lemma flat_map_option_In {X Y : Type} (f : X -> option Y) (l : list X) (y : Y) :
  In y (List.flat_map (fun x => match f x with Some a => [a] | None => [] end) l)
  <-> exists x, In x l /\ f x = Some y.
Proof.
  rewrite in_flat_map. split; intros (x & Hx & H); exists x; split; try exact Hx.
  - destruct (f x); simpl in H; [destruct H as [->|[]]; reflexivity|destruct H].
  - rewrite H. left. reflexivity.
Qed.

Lemma live_alert_origin th now groups stats alert :
  In alert (Monitor.detectHighProbabilityAlerts th now groups stats) ->
  exists key opts q st,
    In (key, opts) groups /\ In q opts /\ stats !! key = Some st
    /\ Monitor.Alert.symbol alert = Monitor.instrument_name (Monitor.summary q)
    /\ Monitor.Alert.expiryDate alert = key
    /\ 0 < Monitor.markPriceOf q
    /\ Monitor.anomalyScoreThreshold th <= Monitor.scoreOf th st q
    /\ Monitor.Alert.anomalyScore alert = toFixed 2 (Monitor.scoreOf th st q).
Proof.
  unfold Monitor.detectHighProbabilityAlerts, Monitor.pushedAlerts.
  rewrite sort_desc_In, in_flat_map. intros ([key opts] & Hg & Ha).
  unfold Monitor.groupAlerts in Ha; simpl in Ha.
  destruct (stats !! key) as [st|] eqn:Hst; [|destruct Ha].
  apply flat_map_option_In in Ha. destruct Ha as (q & Hq & Hs).
  exists key, opts, q, st. unfold Monitor.scoreOption in Hs.
  destruct (Qle_bool (Monitor.markPriceOf q) 0) eqn:Hp; [discriminate|].
  apply Qle_bool_gt in Hp.
  destruct (Qle_bool _ _) eqn:Hscore; [|discriminate].
  apply Qle_bool_iff in Hscore.
  inversion Hs; subst; simpl. repeat split; assumption.
Qed.

Lemma backtest_alert_origin opts stats p v o alert :
  In alert (Backtester.detectAnomalies opts stats p v o) ->
  exists opt ts st,
    In opt opts
    /\ truthy (parseExpiryTimestamp (Backtester.instrument opt)) = Some ts
    /\ stats !! expiryKeyOf ts = Some st
    /\ Backtester.Alert.instrument alert = Backtester.instrument opt
    /\ 0 < Backtester.markPrice opt
    /\ 5 <= Backtester.Alert.anomalyScore alert
    /\ Backtester.Alert.anomalyScore alert
       = Backtester.weightedScore p v o
           (Backtester.priceZScore st opt) (Backtester.volumeZScore st opt)
           (Backtester.oiZScore st opt) (Backtester.timeDecayFactor opt).
Proof.
  unfold Backtester.detectAnomalies, Backtester.pushedAlerts.
  rewrite sort_desc_In, flat_map_option_In. intros (opt & Hopt & Hs).
  unfold Backtester.scoreOption in Hs.
  destruct (truthy _) as [ts|] eqn:Hts; [|discriminate].
  destruct (stats !! _) as [st|] eqn:Hst; [|discriminate].
  destruct (Qle_bool (Backtester.markPrice opt) 0) eqn:Hp; [discriminate|].
  apply Qle_bool_gt in Hp.
  destruct (Qle_bool 5 _) eqn:Hscore; [|discriminate].
  apply Qle_bool_iff in Hscore.
  inversion Hs; subst; simpl. exists opt, ts, st. repeat split; assumption.
Qed.

(** X1. The list returned by the batch scorer, live or backtesting, is
    in descending order of the score that each record carries, and the
    records of any one score stand in the order in which they were
    pushed, which is the order of enumeration: the result is the stable
    descending sort of the pushed alerts.  The score that a record of
    the backtesting scorer carries is the composite score of its quote;
    the one that a record of the live scorer carries is the composite
    score of its quote as [toFixed(2)] prints it, which is what the
    comparator of the live scorer reads. *)
Theorem alerts_sorted_stable
    (th : Monitor.thresholds) (now : Z)
    (expiryGroups : list (string * list Monitor.groupedOption))
    (expiryStats : gmap string Monitor.stats)
    (opts : list Backtester.option_) (backtestStats : gmap string Backtester.stats)
    (priceThreshold volumeThreshold oiThreshold : Q) :
  let live := Monitor.detectHighProbabilityAlerts th now expiryGroups expiryStats in
  let pushed := Monitor.pushedAlerts th now expiryGroups expiryStats in
  let back :=
    Backtester.detectAnomalies opts backtestStats
      priceThreshold volumeThreshold oiThreshold in
  let backPushed :=
    Backtester.pushedAlerts opts backtestStats
      priceThreshold volumeThreshold oiThreshold in
  (Spec.descending Monitor.Alert.anomalyScore live
   /\ Permutation live pushed
   /\ (forall s, Spec.withScore Monitor.Alert.anomalyScore s live
                 = Spec.withScore Monitor.Alert.anomalyScore s pushed)
   /\ (forall a, In a live ->
        exists key cohort q st,
          In (key, cohort) expiryGroups /\ In q cohort /\ expiryStats !! key = Some st
          /\ Monitor.Alert.anomalyScore a = toFixed 2 (Monitor.scoreOf th st q)))
  /\ (Spec.descending Backtester.Alert.anomalyScore back
      /\ Permutation back backPushed
      /\ (forall s, Spec.withScore Backtester.Alert.anomalyScore s back
                    = Spec.withScore Backtester.Alert.anomalyScore s backPushed)
      /\ (forall a, In a back ->
           exists b ts st,
             In b opts
             /\ truthy (parseExpiryTimestamp (Backtester.instrument b)) = Some ts
             /\ backtestStats !! expiryKeyOf ts = Some st
             /\ Backtester.Alert.anomalyScore a
                = Backtester.weightedScore priceThreshold volumeThreshold oiThreshold
                    (Backtester.priceZScore st b) (Backtester.volumeZScore st b)
                    (Backtester.oiZScore st b) (Backtester.timeDecayFactor b))).
Proof.
  cbv zeta. split; (split; [|split; [|split]]).
  - apply sort_desc_descending.
  - apply sort_desc_Permutation.
  - intros s. apply sort_desc_withScore.
  - intros a Ha. apply live_alert_origin in Ha.
    destruct Ha as (key & cohort & q & st & H1 & H2 & H3 & _ & _ & _ & _ & H4).
    exists key, cohort, q, st. auto.
  - apply sort_desc_descending.
  - apply sort_desc_Permutation.
  - intros s. apply sort_desc_withScore.
  - intros a Ha. apply backtest_alert_origin in Ha.
    destruct Ha as (b & ts & st & H1 & H2 & H3 & _ & _ & _ & H4).
    exists b, ts, st. auto.
Qed.

(** C2, at an input on which the live scorer departs from it.  In
    [tieBook], one day before expiry, the first two quotes are the only
    ones to raise an alert.  The composite score of the first,
    [1467/289], is below that of the second, [1469/289]; both print as
    [5.08], which is what the comparator of the live scorer reads, so
    the two records tie and the first quote, of the lower composite
    score, is returned first.  The backtesting scorer, whose records
    carry the composite score itself, returns the second quote first. *)
Theorem live_sort_reads_printed_score :
  let th := Monitor.OPTIMAL_THRESHOLDS in
  let alerts := Monitor.evaluateSnapshot sqrt_floor th demoNow demoNow tieBook in
  let stored := List.map (Backtester.collectOption demoNow) tieBook in
  List.map Monitor.Alert.symbol alerts
  = [JSString.lit "ETH-7NOV25-3000-C"; JSString.lit "ETH-7NOV25-3100-C"]
  /\ List.map Monitor.Alert.anomalyScore alerts = [508 # 100; 508 # 100]
  /\ (exists st,
        liveScored sqrt_floor th demoNow tieBook tieCohort st (tieGrouped 0)
        /\ liveScored sqrt_floor th demoNow tieBook tieCohort st (tieGrouped 1)
        /\ Monitor.summary (tieGrouped 0)
           = demoQuote (JSString.lit "ETH-7NOV25-3000-C") 2 1 0
        /\ Monitor.summary (tieGrouped 1)
           = demoQuote (JSString.lit "ETH-7NOV25-3100-C") 2 313 0
        /\ Monitor.scoreOf th st (tieGrouped 0) == 1467 # 289
        /\ Monitor.scoreOf th st (tieGrouped 1) == 1469 # 289
        /\ Monitor.scoreOf th st (tieGrouped 0) < Monitor.scoreOf th st (tieGrouped 1))
  /\ List.map Backtester.Alert.instrument
       (Backtester.detectAnomalies stored
          (Backtester.calculateExpiryStats sqrt_floor stored)
          (Monitor.priceWeight th) (Monitor.volumeWeight th) (Monitor.oiWeight th))
     = [JSString.lit "ETH-7NOV25-3100-C"; JSString.lit "ETH-7NOV25-3000-C"].
Proof.
  cbv zeta. split; [vm_compute; reflexivity|]. split; [vm_compute; reflexivity|].
  split; [|vm_compute; reflexivity].
  eexists. split; [|split].
  - exists "2025-11-07". split; [vm_compute; left; reflexivity|].
    split; [vm_compute; left; reflexivity|].
    split; vm_compute; reflexivity.
  - exists "2025-11-07". split; [vm_compute; left; reflexivity|].
    split; [vm_compute; right; left; reflexivity|].
    split; vm_compute; reflexivity.
  - repeat split; vm_compute; reflexivity.
Qed.

(** ** Quotes whose expiry does not parse *)

(** C9. A symbol with at least two segments and a known month, the day
    prefix of which [parseInt] does not read as a number (it holds no
    digit after the white space and the sign that [parseInt] skips),
    parses to [NaN] and not to [null]; [NaN] being falsy, the aggregator
    groups no such quote, the backtester neither groups nor scores it,
    and no alert of either scorer bears its symbol. *)
Theorem nan_expiry_excluded
    (name asset expiryStr : JSString.t) (rest : list JSString.t) (month : Z) :
  JSString.split 45 name = asset :: expiryStr :: rest ->
  monthMap (monthPart expiryStr) = Some month ->
  JSString.parseInt (dayPart expiryStr) = JNaN ->
  parseExpiryTimestamp name = Some JNaN
  /\ truthy (parseExpiryTimestamp name) = None
  /\ (forall now, getTimeToExpiry name now = None)
  /\ (forall th currentTime options q,
        reachesScorer th currentTime options q ->
        Monitor.instrument_name (Monitor.summary q) <> name)
  /\ (forall sqrt th currentTime now options alert,
        In alert (Monitor.evaluateSnapshot sqrt th currentTime now options) ->
        Monitor.Alert.symbol alert <> name)
  /\ (forall groups opt,
        Backtester.instrument opt = name -> Backtester.groupOption groups opt = groups)
  /\ (forall opts stats p v o alert,
        In alert (Backtester.detectAnomalies opts stats p v o) ->
        Backtester.Alert.instrument alert <> name).
Proof.
  intros Hsplit Hmonth Hday.
  assert (Hparse : parseExpiryTimestamp name = Some JNaN).
  { unfold parseExpiryTimestamp. rewrite Hsplit, Hmonth, Hday.
    destruct (jsnum_add _ _); reflexivity. }
  assert (Hfalsy : truthy (parseExpiryTimestamp name) = None)
    by (rewrite Hparse; reflexivity).
  assert (Hlive : forall th currentTime options q,
            reachesScorer th currentTime options q ->
            Monitor.instrument_name (Monitor.summary q) <> name).
  { intros th currentTime options q (key & opts & Hin & Hq) Heq.
    destruct (groupByExpiry_members _ _ _ _ _ _ Hin Hq) as (Ht & _).
    rewrite Heq, Hfalsy in Ht. discriminate. }
  repeat split; try assumption.
  - intros now. unfold getTimeToExpiry. rewrite Hfalsy. reflexivity.
  - intros sqrt th currentTime now options alert Halert Heq.
    unfold Monitor.evaluateSnapshot, Monitor.calculateAdvancedStats in Halert.
    apply live_alert_origin in Halert.
    destruct Halert as (key & opts & q & st & Hin & Hq & _ & Hsym & _).
    apply (Hlive th currentTime options q); [exists key, opts; auto|congruence].
  - intros groups opt Heq. unfold Backtester.groupOption.
    rewrite Heq, Hfalsy. reflexivity.
  - intros opts stats p v o alert Halert Heq.
    apply backtest_alert_origin in Halert.
    destruct Halert as (opt & ts & st & _ & Ht & _ & Hsym & _).
    rewrite <- Hsym, Heq, Hfalsy in Ht. discriminate.
Qed.

Lemma nan_expiry_excluded_witness :
  parseExpiryTimestamp (JSString.lit "ETH-NOV25-3300-C") = Some JNaN
  /\ Monitor.evaluateSnapshot sqrt_floor Monitor.OPTIMAL_THRESHOLDS demoNow demoNow
       [ demoQuote (JSString.lit "ETH-NOV25-3300-C") 100 100 100 ] = [].
Proof.
  split.
  - refine (proj1 (nan_expiry_excluded (JSString.lit "ETH-NOV25-3300-C")
                     (JSString.lit "ETH") (JSString.lit "NOV25")
                     [JSString.lit "3300"; JSString.lit "C"] 10 _ _ _)); reflexivity.
  - vm_compute. reflexivity.
Defined.

(** ** The cooldown gate *)


Lemma recordAlertSent_clock {A : Type} (e : State.env) (st : State.state) (now : Z)
    (expiry : string) (alerts : list A) :
  clockAfterEpoch st -> (0 < now)%Z ->
  clockAfterEpoch (State.recordAlertSent e st now expiry alerts).
Proof.
  intros Hclock Hnow k last. unfold State.recordAlertSent; simpl.
  destruct (decide (expiry = k)) as [->|Hne].
  - rewrite lookup_insert_eq. intros H. inversion H; subst. exact Hnow.
  - rewrite lookup_insert_ne by exact Hne. apply Hclock.
Qed.



(** At the epoch itself the gate does not see the entry it has just
    recorded: this is why the clock is taken to read a later time. *)
Example cooldown_gate_at_epoch :
  let e := {| State.ALERT_COOLDOWN_HOURS := None; State.RECIPIENT_EMAIL := None |} in
  State.shouldSendAlert e (State.recordAlertSent e State.initial 0 "2025-11-07" [tt])
    0 "2025-11-07" = true.
Proof. reflexivity. Qed.

(** ** The backtest pass *)

Lemma fold_left_app_one {X Y : Type} (f : Y -> X -> Y) (l1 l2 : list X) (x : X) (y : Y) :
  (forall c, f c x = c) ->
  fold_left f (List.app l1 (x :: l2)) y = fold_left f (List.app l1 l2) y.
Proof.
  intros Hx. rewrite !fold_left_app. simpl. rewrite Hx. reflexivity.
Qed.

(** C10. A sample whose future reference price is absent or 0 is passed
    over by the backtest: the counters are left as they are, and the
    result of the pass is that of the corpus without the sample,
    whatever its quotes would score. *)
Theorem unusable_future_price_skipped (sqrt : Q -> Q)
    (before after : list Backtester.dataPoint) (d : Backtester.dataPoint)
    (priceThreshold volumeThreshold oiThreshold : Q) :
  Backtester.futureETHPrice d = None
  \/ (exists f, Backtester.futureETHPrice d = Some f /\ f == 0) ->
  (forall c,
     Backtester.backtestStep sqrt priceThreshold volumeThreshold oiThreshold c d = c)
  /\ Backtester.runBacktest sqrt (List.app before (d :: after))
       priceThreshold volumeThreshold oiThreshold
     = Backtester.runBacktest sqrt (List.app before after)
         priceThreshold volumeThreshold oiThreshold.
Proof.
  intros Hfalsy.
  assert (Hskip : Backtester.truthyPrice (Backtester.futureETHPrice d) = None).
  { destruct Hfalsy as [->|(f & -> & Hf)]; [reflexivity|].
    simpl. apply Qeq_bool_iff in Hf. rewrite Hf. reflexivity. }
  assert (Hstep : forall c,
    Backtester.backtestStep sqrt priceThreshold volumeThreshold oiThreshold c d = c).
  { intros c. unfold Backtester.backtestStep. rewrite Hskip. reflexivity. }
  split; [exact Hstep|].
  unfold Backtester.runBacktest. rewrite fold_left_app_one by exact Hstep.
  reflexivity.
Qed.

Lemma unusable_future_price_skipped_witness :
  Backtester.detectAnomalies demoOptions
    (Backtester.calculateExpiryStats sqrt_floor demoOptions) 1 1 1 <> []
  /\ Backtester.totalAlerts
       (Backtester.runBacktest sqrt_floor [demoPoint (Some 3300)] 1 1 1) = 1%nat
  /\ Backtester.runBacktest sqrt_floor [demoPoint (Some 0)] 1 1 1
     = Backtester.runBacktest sqrt_floor [] 1 1 1.
Proof.
  split; [vm_compute; discriminate|].
  split; [vm_compute; reflexivity|].
  refine (proj2 (unusable_future_price_skipped sqrt_floor [] [] (demoPoint (Some 0))
                   1 1 1 _)).
  right. exists 0. split; reflexivity.
Defined.

Lemma significantMove_spec (future eth : Q) :
  0 < eth -> Backtester.significantMove future eth = Spec.movedTwoPercent future eth.
Proof.
  intros He. unfold Backtester.significantMove, Spec.movedTwoPercent.
  destruct (Qeq_bool eth 0) eqn:E; [apply Qeq_bool_iff in E; lra|].
  apply Bool.eq_iff_eq_true. rewrite !Qle_bool_iff.
  assert (Habs : Qabs ((future - eth) / eth * 100) == Qabs (future - eth) / eth * 100).
  { rewrite Qabs_Qmult, Qabs_div_pos by exact He.
    rewrite (Qabs_pos 100) by lra. reflexivity. }
  rewrite Habs. split; intros H; lra.
Qed.

Lemma truthyPrice_Some (p : option Q) (q : Q) :
  Backtester.truthyPrice p = Some q -> p = Some q.
Proof.
  destruct p as [x|]; simpl; [|discriminate].
  destruct (Qeq_bool x 0); [discriminate|]. intros H; exact H.
Qed.

Lemma backtestStep_counts sqrt p v o (c : Backtester.counters) (d : Backtester.dataPoint) :
  0 < Backtester.ethPrice d ->
  Backtester.backtestStep sqrt p v o c d
  = if producesAlert sqrt p v o d
    then if sampleMoved d
         then {| Backtester.cTotalAlerts := S (Backtester.cTotalAlerts c);
                 Backtester.cSuccessful := S (Backtester.cSuccessful c);
                 Backtester.cFalsePositives := Backtester.cFalsePositives c |}
         else {| Backtester.cTotalAlerts := S (Backtester.cTotalAlerts c);
                 Backtester.cSuccessful := Backtester.cSuccessful c;
                 Backtester.cFalsePositives := S (Backtester.cFalsePositives c) |}
    else c.
Proof.
  intros He. unfold Backtester.backtestStep, producesAlert, sampleAlerts, sampleMoved.
  destruct (Backtester.truthyPrice _) as [future|] eqn:Hf; [|reflexivity].
  apply truthyPrice_Some in Hf. rewrite Hf.
  destruct (Backtester.detectAnomalies _ _ _ _ _); [reflexivity|].
  rewrite significantMove_spec by exact He. reflexivity.
Qed.

Lemma fold_backtestStep_counts sqrt p v o (data : list Backtester.dataPoint) :
  forall c,
    (forall d, In d data -> 0 < Backtester.ethPrice d) ->
    let c' := fold_left (Backtester.backtestStep sqrt p v o) data c in
    let alerted := List.filter (producesAlert sqrt p v o) data in
    Backtester.cTotalAlerts c' = (Backtester.cTotalAlerts c + List.length alerted)%nat
    /\ Backtester.cSuccessful c'
       = (Backtester.cSuccessful c + List.length (List.filter sampleMoved alerted))%nat
    /\ Backtester.cFalsePositives c'
       = (Backtester.cFalsePositives c
          + List.length (List.filter (fun d => negb (sampleMoved d)) alerted))%nat.
Proof.
  induction data as [|d data IH]; intros c Hpos; cbn zeta.
  - simpl. repeat split; lia.
  - cbn [fold_left List.filter].
    rewrite backtestStep_counts by (apply Hpos; left; reflexivity).
    assert (Hpos' : forall d', In d' data -> 0 < Backtester.ethPrice d')
      by (intros d' Hd'; apply Hpos; right; exact Hd').
    destruct (producesAlert sqrt p v o d) eqn:Ha.
    + cbn [List.filter]. destruct (sampleMoved d) eqn:Hm; cbn [negb List.length];
        match goal with |- context [fold_left _ data ?c0] =>
          destruct (IH c0 Hpos') as (H1 & H2 & H3) end;
        simpl in H1, H2, H3; rewrite H1, H2, H3; repeat split; lia.
    + apply IH, Hpos'.
Qed.

(** C3. In a pass over a corpus whose reference prices are positive, a
    sample for which the pass computes at least one alert adds one to
    [totalAlerts], and one to [successful] when
    [|future - reference| / reference >= 0.02], to [falsePositives] when
    not; a sample for which it computes none leaves the counters as they
    are.  Hence [totalAlerts] counts the samples with an alert, each of
    them being counted successful or false positive by the 2% test; and
    the two rates are the quotient of [successful] by [totalAlerts], as
    a percentage and as a fraction, or 0 when there was no alert. *)
Theorem backtest_counts (sqrt : Q -> Q) (data : list Backtester.dataPoint)
    (priceThreshold volumeThreshold oiThreshold : Q) :
  (forall d, In d data -> 0 < Backtester.ethPrice d) ->
  let step := Backtester.backtestStep sqrt priceThreshold volumeThreshold oiThreshold in
  let alerts := producesAlert sqrt priceThreshold volumeThreshold oiThreshold in
  let r := Backtester.runBacktest sqrt data priceThreshold volumeThreshold oiThreshold in
  let alerted := List.filter alerts data in
  (forall c d, In d data ->
     step c d
     = if alerts d
       then if sampleMoved d
            then {| Backtester.cTotalAlerts := S (Backtester.cTotalAlerts c);
                    Backtester.cSuccessful := S (Backtester.cSuccessful c);
                    Backtester.cFalsePositives := Backtester.cFalsePositives c |}
            else {| Backtester.cTotalAlerts := S (Backtester.cTotalAlerts c);
                    Backtester.cSuccessful := Backtester.cSuccessful c;
                    Backtester.cFalsePositives := S (Backtester.cFalsePositives c) |}
       else c)
  /\ Backtester.totalAlerts r = List.length alerted
  /\ Backtester.successful r = List.length (List.filter sampleMoved alerted)
  /\ Backtester.falsePositives r
     = List.length (List.filter (fun d => negb (sampleMoved d)) alerted)
  /\ Backtester.successRate r
     = match Backtester.totalAlerts r with
       | O => 0
       | S _ =>
           inject_Z (Z.of_nat (Backtester.successful r))
           / inject_Z (Z.of_nat (Backtester.totalAlerts r)) * 100
       end
  /\ Backtester.precision r
     = match Backtester.totalAlerts r with
       | O => 0
       | S _ =>
           inject_Z (Z.of_nat (Backtester.successful r))
           / inject_Z (Z.of_nat (Backtester.totalAlerts r))
       end.
Proof.
  intros Hpos step alerts r alerted.
  destruct (fold_backtestStep_counts sqrt priceThreshold volumeThreshold oiThreshold
              data {| Backtester.cTotalAlerts := 0; Backtester.cSuccessful := 0;
                      Backtester.cFalsePositives := 0 |} Hpos) as (H1 & H2 & H3).
  simpl in H1, H2, H3.
  split.
  { intros c d Hd. apply backtestStep_counts, Hpos, Hd. }
  subst r alerted alerts. unfold Backtester.runBacktest. cbn [Backtester.totalAlerts
    Backtester.successful Backtester.falsePositives Backtester.successRate
    Backtester.precision].
  repeat split; try assumption.
  - destruct (Backtester.cTotalAlerts _); reflexivity.
  - destruct (Backtester.cTotalAlerts _); reflexivity.
Qed.

Lemma backtest_counts_witness :
  let r :=
    Backtester.runBacktest sqrt_floor
      [ demoPoint (Some 3300); demoPoint (Some 3010); demoPoint None ] 1 1 1 in
  Backtester.totalAlerts r = 2%nat
  /\ Backtester.successful r = 1%nat
  /\ Backtester.falsePositives r = 1%nat
  /\ Backtester.successRate r == 50.
Proof.
  assert (Hpos : forall d,
    In d [ demoPoint (Some 3300); demoPoint (Some 3010); demoPoint None ] ->
    0 < Backtester.ethPrice d).
  { intros d [<-|[<-|[<-|[]]]]; reflexivity. }
  destruct (backtest_counts sqrt_floor _ 1 1 1 Hpos) as (_ & H1 & H2 & H3 & H4 & _).
  cbv zeta. rewrite H4, H1, H2, H3. vm_compute. repeat split; reflexivity.
Defined.

(** ** The report on an empty corpus *)

Lemma runBacktest_empty sqrt p v o : Backtester.runBacktest sqrt [] p v o = zeroResult.
Proof. reflexivity. Qed.

Lemma grid_empty_corpus sqrt ps vs os r :
  In r (Backtester.testThresholds sqrt [] ps vs os) -> Backtester.result r = zeroResult.
Proof.
  unfold Backtester.testThresholds. rewrite sort_desc_In, in_flat_map.
  intros (p & _ & H). apply in_flat_map in H. destruct H as (v & _ & H).
  apply in_map_iff in H. destruct H as (o & <- & _). reflexivity.
Qed.

Lemma grid_nonempty sqrt data p ps v vs o os :
  Backtester.testThresholds sqrt data (p :: ps) (v :: vs) (o :: os) <> [].
Proof.
  intros Hnil.
  assert (Hin : In {| Backtester.priceThreshold := p;
                      Backtester.volumeThreshold := v;
                      Backtester.oiThreshold := o;
                      Backtester.result := Backtester.runBacktest sqrt data p v o |}
                   (Backtester.testThresholds sqrt data (p :: ps) (v :: vs) (o :: os))).
  { unfold Backtester.testThresholds. rewrite sort_desc_In.
    apply in_flat_map. exists p. split; [left; reflexivity|].
    apply in_flat_map. exists v. split; [left; reflexivity|].
    apply in_map_iff. exists o. split; [reflexivity|left; reflexivity]. }
  rewrite Hnil in Hin. destruct Hin.
Qed.

(** C4. On an empty corpus the optimizer does not fail: with the
    candidate lists of [findOptimalThresholds], and with any non-empty
    candidate lists, the report has [totalAlerts = 0] and
    [successRate = 0], and its recommendation is the text of the poor
    band. *)
Theorem empty_corpus_report (sqrt : Q -> Q)
    (p : Q) (ps : list Q) (v : Q) (vs : list Q) (o : Q) (os : list Q) :
  Backtester.generateReport sqrt []
  = Some {| Backtester.optimalPrice := 1 # 2;
            Backtester.optimalVolume := 1 # 2;
            Backtester.optimalOpenInterest := 3 # 10;
            Backtester.performance := zeroResult;
            Backtester.dataPoints := 0;
            Backtester.recommendation := poorText |}
  /\ exists rep,
       Backtester.reportOf []
         (Backtester.bestOf sqrt [] (p :: ps) (v :: vs) (o :: os)) = Some rep
       /\ Backtester.totalAlerts (Backtester.performance rep) = 0%nat
       /\ Backtester.successRate (Backtester.performance rep) = 0
       /\ Backtester.recommendation rep = poorText.
Proof.
  split; [vm_compute; reflexivity|].
  unfold Backtester.bestOf.
  destruct (Backtester.testThresholds sqrt [] (p :: ps) (v :: vs) (o :: os))
    as [|best others] eqn:Hgrid.
  - exfalso. exact (grid_nonempty sqrt [] p ps v vs o os Hgrid).
  - assert (Hres : Backtester.result best = zeroResult).
    { apply (grid_empty_corpus sqrt (p :: ps) (v :: vs) (o :: os)).
      rewrite Hgrid. left. reflexivity. }
    eexists. split; [reflexivity|]. simpl.
    unfold Backtester.generateRecommendation. rewrite Hres. repeat split.
Qed.

(** ** Groups as the partition of the quotes by cohort key *)

Lemma pushGroup_In_iff {A : Type} (key : string) (x : A)
    (groups : list (string * list A)) (k : string) (xs : list A) :
  NoDup (List.map fst groups) ->
  In (k, xs) (pushGroup key x groups) <->
    (k <> key /\ In (k, xs) groups)
    \/ (k = key /\ exists old, In (key, old) groups /\ xs = List.app old [x])
    \/ (k = key /\ ~ In key (List.map fst groups) /\ xs = [x]).
Proof.
  induction groups as [|[k0 xs0] rest IH]; simpl; intros Hnd.
  - split.
    + intros [Heq|[]]. inversion Heq; subst. right. right. auto.
    + intros [[_ []]|[(_ & old & [] & _)|(-> & _ & ->)]]. left. reflexivity.
  - inversion Hnd as [|? ? Hnotin Hrest]; subst. specialize (IH Hrest).
    destruct (String.eqb k0 key) eqn:E.
    + apply String.eqb_eq in E. subst k0. simpl. split.
      * intros [Heq|Hin].
        -- inversion Heq; subst. right. left. split; [reflexivity|].
           exists xs0. split; [left; reflexivity|reflexivity].
        -- left. split; [|right; exact Hin].
           intros ->. apply Hnotin. change key with (fst (key, xs)).
           apply in_map, Hin.
      * intros [[Hne [Heq|Hin]]|[(-> & old & [Heq|Hin] & ->)|(-> & Hno & _)]].
        -- inversion Heq; subst. congruence.
        -- right. exact Hin.
        -- inversion Heq; subst. left. reflexivity.
        -- exfalso. apply Hnotin. change key with (fst (key, old)).
           apply in_map, Hin.
        -- exfalso. apply Hno. left. reflexivity.
    + apply String.eqb_neq in E. simpl. rewrite IH. split.
      * intros [Heq|[[Hne Hin]|[(-> & old & Hin & ->)|(-> & Hno & ->)]]].
        -- inversion Heq; subst. left. split; [exact E|left; reflexivity].
        -- left. split; [exact Hne|right; exact Hin].
        -- right. left. split; [reflexivity|]. exists old. split; [right; exact Hin|reflexivity].
        -- right. right. split; [reflexivity|]. split; [|reflexivity].
           intros [Heq|Hin]; [congruence|exact (Hno Hin)].
      * intros [[Hne [Heq|Hin]]|[(-> & old & [Heq|Hin] & ->)|(-> & Hno & ->)]].
        -- left. exact Heq.
        -- right. left. split; assumption.
        -- inversion Heq; subst. congruence.
        -- right. right. left. split; [reflexivity|]. exists old. split; [exact Hin|reflexivity].
        -- right. right. right. split; [reflexivity|]. split; [|reflexivity].
           intros Hin. apply Hno. right. exact Hin.
Qed.

Lemma membersOf_app {A : Type} (k : string) (l1 l2 : list (string * A)) :
  membersOf k (List.app l1 l2) = List.app (membersOf k l1) (membersOf k l2).
Proof. unfold membersOf. rewrite filter_app, map_app. reflexivity. Qed.

Lemma membersOf_other {A : Type} (k key : string) (x : A) :
  k <> key -> membersOf k [(key, x)] = [].
Proof.
  intros Hne. unfold membersOf. simpl.
  destruct (String.eqb key k) eqn:E; [apply String.eqb_eq in E; congruence|reflexivity].
Qed.

Lemma membersOf_same {A : Type} (key : string) (x : A) : membersOf key [(key, x)] = [x].
Proof. unfold membersOf. simpl. rewrite String.eqb_refl. reflexivity. Qed.

Lemma groupsOfKeyed_nil {A : Type} : @groupsOfKeyed A [] [].
Proof.
  split; [constructor|]. intros k xs. split; [intros []|intros [Hne ->]].
  apply Hne. reflexivity.
Qed.

Lemma groupsOfKeyed_push {A : Type} (groups : list (string * list A))
    (keyed : list (string * A)) (key : string) (x : A) :
  groupsOfKeyed groups keyed ->
  groupsOfKeyed (pushGroup key x groups) (List.app keyed [(key, x)]).
Proof.
  intros [Hnd Hiff]. split; [apply pushGroup_NoDup, Hnd|].
  intros k xs.
  rewrite (pushGroup_In_iff _ _ _ _ _ Hnd), membersOf_app. split.
  - intros [[Hne Hin]|[(-> & old & Hin & ->)|(-> & Hno & ->)]].
    + apply Hiff in Hin. destruct Hin as [Hn ->].
      rewrite (membersOf_other _ _ _ Hne), app_nil_r. auto.
    + apply Hiff in Hin. destruct Hin as [Hn ->]. rewrite membersOf_same.
      split; [|reflexivity]. intros H. apply app_eq_nil in H. destruct H; discriminate.
    + rewrite membersOf_same.
      destruct (membersOf key keyed) as [|y ys] eqn:Hm; [split; [discriminate|reflexivity]|].
      exfalso. apply Hno. change key with (fst (key, y :: ys)). apply in_map.
      apply Hiff. split; [discriminate|symmetry; exact Hm].
  - intros [Hne ->]. destruct (String.eqb_spec k key) as [->|Hk].
    + rewrite membersOf_same.
      destruct (membersOf key keyed) as [|y ys] eqn:Hm.
      * right. right. split; [reflexivity|]. split; [|reflexivity].
        intros Hin. apply in_map_iff in Hin. destruct Hin as ([k' xs'] & Hk' & Hin).
        simpl in Hk'. subst k'. apply Hiff in Hin. destruct Hin as [Hn Heq].
        rewrite Hm in Heq. congruence.
      * right. left. split; [reflexivity|]. exists (y :: ys).
        split; [|reflexivity]. apply Hiff. split; [discriminate|symmetry; exact Hm].
    + left. split; [exact Hk|]. rewrite (membersOf_other _ _ _ Hk), app_nil_r in *.
      apply Hiff. split; [exact Hne|reflexivity].
Qed.

Lemma filterMap_app_one {X Y : Type} (f : X -> option Y) (l : list X) (x : X) :
  filterMap f (List.app l [x])
  = List.app (filterMap f l) (match f x with Some y => [y] | None => [] end).
Proof.
  induction l as [|a l IH]; simpl.
  - destruct (f x); reflexivity.
  - rewrite IH. destruct (f a); reflexivity.
Qed.

(** A loop that files some of its elements under a key builds the groups
    of the elements filed. *)
Lemma fold_groups {X A : Type} (f : X -> option (string * A))
    (step : list (string * list A) -> X -> list (string * list A)) (l : list X) :
  (forall g x, step g x = match f x with
                          | Some kv => pushGroup (fst kv) (snd kv) g
                          | None => g
                          end) ->
  groupsOfKeyed (fold_left step l []) (filterMap f l).
Proof.
  intros Hstep.
  assert (Hgen : forall done g,
            groupsOfKeyed g (filterMap f done) ->
            groupsOfKeyed (fold_left step l g) (filterMap f (List.app done l))).
  { induction l as [|x l IH]; intros done g Hg; simpl.
    - rewrite app_nil_r. exact Hg.
    - replace (List.app done (x :: l)) with (List.app (List.app done [x]) l)
        by (rewrite <- app_assoc; reflexivity).
      apply IH. rewrite Hstep, filterMap_app_one.
      destruct (f x) as [[k a]|]; simpl.
      + apply groupsOfKeyed_push, Hg.
      + rewrite app_nil_r. exact Hg. }
  apply (Hgen [] []). apply groupsOfKeyed_nil.
Qed.

Lemma live_groups_keyed (th : Monitor.thresholds) (currentTime : Z)
    (options : list Monitor.bookSummary) :
  groupsOfKeyed (Monitor.groupByExpiry th currentTime options)
    (filterMap (admitted th currentTime) options).
Proof.
  apply fold_groups. intros g opt. unfold Monitor.groupOption, admitted.
  destruct (truthy _); [|reflexivity].
  destruct (_ || _)%bool; reflexivity.
Qed.

Lemma stored_groups_keyed (stored : list Backtester.option_) :
  groupsOfKeyed (Backtester.groupByExpiry stored) (filterMap filed stored).
Proof.
  apply fold_groups. intros g opt. unfold Backtester.groupOption, filed.
  destruct (truthy _); reflexivity.
Qed.

(** X2. Both aggregators partition the quotes they keep by cohort key.
    The live aggregator keeps the quotes whose expiry parses to a truthy
    instant inside the window, the backtester those whose expiry parses
    to a truthy instant; each makes one group for each key that occurs
    among the quotes kept, no group is empty, no key has two groups, and
    a group holds the quotes of its key in the order of the input. *)
Theorem aggregators_group_by_key (th : Monitor.thresholds) (currentTime : Z)
    (options : list Monitor.bookSummary) (stored : list Backtester.option_) :
  groupsOfKeyed (Monitor.groupByExpiry th currentTime options)
    (filterMap (admitted th currentTime) options)
  /\ groupsOfKeyed (Backtester.groupByExpiry stored) (filterMap filed stored).
Proof. split; [apply live_groups_keyed|apply stored_groups_keyed]. Qed.

(** ** Statistics by cohort key *)

Lemma fold_stats_absent {A S : Type} (f : list A -> option S)
    (groups : list (string * list A)) (key : string) :
  ~ In key (List.map fst groups) ->
  forall m : gmap string S,
    fold_left (fun acc entry =>
                 match f (snd entry) with
                 | Some s => <[fst entry := s]> acc
                 | None => acc
                 end) groups m !! key = m !! key.
Proof.
  induction groups as [|[k c] rest IH]; simpl; intros Hno m; [reflexivity|].
  rewrite IH by (intros H; apply Hno; right; exact H).
  destruct (f c); [|reflexivity].
  apply lookup_insert_ne. intros ->. apply Hno. left. reflexivity.
Qed.

Lemma fold_stats_present {A S : Type} (f : list A -> option S)
    (groups : list (string * list A)) (key : string) (cohort : list A) :
  NoDup (List.map fst groups) -> In (key, cohort) groups ->
  forall m : gmap string S,
    fold_left (fun acc entry =>
                 match f (snd entry) with
                 | Some s => <[fst entry := s]> acc
                 | None => acc
                 end) groups m !! key
    = match f cohort with Some s => Some s | None => m !! key end.
Proof.
  induction groups as [|[k c] rest IH]; simpl; intros Hnd Hin m; [destruct Hin|].
  inversion Hnd as [|? ? Hnotin Hrest]; subst.
  destruct Hin as [Heq|Hin].
  - inversion Heq; subst. rewrite fold_stats_absent by exact Hnotin.
    destruct (f cohort); [apply lookup_insert_eq|reflexivity].
  - rewrite (IH Hrest Hin). destruct (f cohort); [reflexivity|].
    destruct (f c); [|reflexivity].
    apply lookup_insert_ne. intros ->. apply Hnotin.
    change key with (fst (key, cohort)). apply in_map, Hin.
Qed.

Lemma stats_of_groups {A S : Type} (f : list A -> option S)
    (groups : list (string * list A)) (keyed : list (string * A)) (key : string) :
  f [] = None -> groupsOfKeyed groups keyed ->
  fold_left (fun acc entry =>
               match f (snd entry) with
               | Some s => <[fst entry := s]> acc
               | None => acc
               end) groups (∅ : gmap string S) !! key
  = f (membersOf key keyed).
Proof.
  intros Hnil [Hnd Hiff].
  destruct (membersOf key keyed) as [|x xs] eqn:Hm.
  - rewrite fold_stats_absent, Hnil; [apply lookup_empty|].
    intros Hin. apply in_map_iff in Hin. destruct Hin as ([k c] & Hk & Hin).
    simpl in Hk. subst k. apply Hiff in Hin. destruct Hin as [Hne Heq].
    rewrite Hm in Heq. congruence.
  - rewrite (fold_stats_present f groups key (x :: xs) Hnd).
    + destruct (f (x :: xs)); [reflexivity|apply lookup_empty].
    + apply Hiff. split; [discriminate|symmetry; exact Hm].
Qed.

Lemma live_cohortStats_none sqrt cohort :
  Monitor.cohortStats sqrt cohort = None <->
  forall q, In q cohort -> Monitor.markPriceOf q <= 0.
Proof.
  unfold Monitor.cohortStats. split.
  - intros H q Hq.
    destruct (Qlt_le_dec 0 (Monitor.markPriceOf q)) as [Hpos|Hle]; [|exact Hle].
    pose proof (valid_member Monitor.markPriceOf cohort q Hq Hpos) as Hin.
    destruct (valid Monitor.markPriceOf cohort); [destruct Hin|discriminate].
  - intros H. rewrite (valid_nil _ _ H). reflexivity.
Qed.

Lemma backtest_cohortStats_none sqrt cohort :
  Backtester.cohortStats sqrt cohort = None <->
  forall q, In q cohort -> Backtester.markPrice q <= 0.
Proof.
  unfold Backtester.cohortStats. split.
  - intros H q Hq.
    destruct (Qlt_le_dec 0 (Backtester.markPrice q)) as [Hpos|Hle]; [|exact Hle].
    pose proof (valid_member Backtester.markPrice cohort q Hq Hpos) as Hin.
    destruct (valid Backtester.markPrice cohort); [destruct Hin|discriminate].
  - intros H. rewrite (valid_nil _ _ H). reflexivity.
Qed.

Lemma live_stats_by_key sqrt th currentTime options key :
  snd (Monitor.calculateAdvancedStats sqrt th currentTime options) !! key
  = Monitor.cohortStats sqrt
      (membersOf key (filterMap (admitted th currentTime) options)).
Proof.
  unfold Monitor.calculateAdvancedStats. cbn [snd].
  apply (stats_of_groups (Monitor.cohortStats sqrt)); [reflexivity|].
  apply live_groups_keyed.
Qed.

Lemma stored_stats_by_key sqrt stored key :
  Backtester.calculateExpiryStats sqrt stored !! key
  = Backtester.cohortStats sqrt (membersOf key (filterMap filed stored)).
Proof.
  unfold Backtester.calculateExpiryStats.
  apply (stats_of_groups (Backtester.cohortStats sqrt)); [reflexivity|].
  apply stored_groups_keyed.
Qed.

(** X3. The statistics filed under a key are those of the quotes of
    that key, in either aggregator: [expiryStats] has an entry for the
    key exactly when one of these quotes has a positive mark price, the
    entry is computed from all of them, and its [count] is their number,
    quotes without a positive price included. *)
Theorem expiryStats_by_key (sqrt : Q -> Q) (th : Monitor.thresholds) (currentTime : Z)
    (options : list Monitor.bookSummary) (stored : list Backtester.option_)
    (key : string) :
  let cohort := membersOf key (filterMap (admitted th currentTime) options) in
  let storedCohort := membersOf key (filterMap filed stored) in
  (snd (Monitor.calculateAdvancedStats sqrt th currentTime options) !! key
   = Monitor.cohortStats sqrt cohort
   /\ (Monitor.cohortStats sqrt cohort = None <->
       forall q, In q cohort -> Monitor.markPriceOf q <= 0)
   /\ (forall st, Monitor.cohortStats sqrt cohort = Some st ->
                  Monitor.count st = List.length cohort))
  /\ (Backtester.calculateExpiryStats sqrt stored !! key
      = Backtester.cohortStats sqrt storedCohort
      /\ (Backtester.cohortStats sqrt storedCohort = None <->
          forall q, In q storedCohort -> Backtester.markPrice q <= 0)
      /\ (forall st, Backtester.cohortStats sqrt storedCohort = Some st ->
                     Backtester.count st = List.length storedCohort)).
Proof.
  cbv zeta. split; (split; [|split]).
  - apply live_stats_by_key.
  - apply live_cohortStats_none.
  - intros st. unfold Monitor.cohortStats.
    destruct (valid Monitor.markPriceOf _); [discriminate|].
    intros H. inversion H; subst. reflexivity.
  - apply stored_stats_by_key.
  - apply backtest_cohortStats_none.
  - intros st. unfold Backtester.cohortStats.
    destruct (valid Backtester.markPrice _); [discriminate|].
    intros H. inversion H; subst. reflexivity.
Qed.

(** ** The alerts of a snapshot *)

Lemma filterMap_In {X Y : Type} (f : X -> option Y) (l : list X) (y : Y) :
  In y (filterMap f l) <-> exists x, In x l /\ f x = Some y.
Proof.
  induction l as [|x l IH]; simpl.
  - split; [intros []|intros (x & [] & _)].
  - destruct (f x) as [y'|] eqn:E; simpl; rewrite IH; split.
    + intros [<-|(x' & Hx' & Hf)]; [exists x; auto|exists x'; auto].
    + intros (x' & [<-|Hx'] & Hf); [left; congruence|right; exists x'; auto].
    + intros (x' & Hx' & Hf). exists x'; auto.
    + intros (x' & [<-|Hx'] & Hf); [congruence|exists x'; auto].
Qed.

Lemma membersOf_In {A : Type} (key : string) (keyed : list (string * A)) (x : A) :
  In x (membersOf key keyed) <-> In (key, x) keyed.
Proof.
  unfold membersOf. rewrite in_map_iff. split.
  - intros ([k y] & Hy & Hin). simpl in Hy. subst y.
    apply filter_In in Hin. destruct Hin as [Hin Hk]. simpl in Hk.
    apply String.eqb_eq in Hk. subst k. exact Hin.
  - intros Hin. exists (key, x). split; [reflexivity|].
    apply filter_In. split; [exact Hin|]. simpl. apply String.eqb_refl.
Qed.

Lemma admitted_summary th ct opt key q :
  admitted th ct opt = Some (key, q) -> Monitor.summary q = opt.
Proof.
  unfold admitted. destruct (truthy _); [|discriminate].
  destruct (_ || _)%bool; [discriminate|]. intros H; inversion H; reflexivity.
Qed.

Lemma live_alerts_keyed (sqrt : Q -> Q) (th : Monitor.thresholds)
    (currentTime now : Z) (options : list Monitor.bookSummary) (a : Monitor.Alert.t) :
  In a (Monitor.evaluateSnapshot sqrt th currentTime now options) <->
  exists key q st,
    In (key, q) (filterMap (admitted th currentTime) options)
    /\ Monitor.cohortStats sqrt
         (membersOf key (filterMap (admitted th currentTime) options)) = Some st
    /\ Monitor.scoreOption th now key st q = Some a.
Proof.
  pose proof (live_groups_keyed th currentTime options) as [Hnd Hgroups].
  unfold Monitor.evaluateSnapshot, Monitor.detectHighProbabilityAlerts,
    Monitor.pushedAlerts.
  pose proof (live_stats_by_key sqrt th currentTime options) as Hstats.
  unfold Monitor.calculateAdvancedStats in *. cbn [snd] in Hstats.
  rewrite sort_desc_In, in_flat_map. split.
  - intros ([key opts] & Hg & Ha). unfold Monitor.groupAlerts in Ha. cbn [fst snd] in Ha.
    rewrite Hstats in Ha.
    destruct (Monitor.cohortStats sqrt _) as [st|] eqn:Hst; [|destruct Ha].
    apply flat_map_option_In in Ha. destruct Ha as (q & Hq & Hs).
    exists key, q, st. split; [|split; assumption].
    apply Hgroups in Hg. destruct Hg as [_ ->] in Hq.
    apply membersOf_In. exact Hq.
  - intros (key & q & st & Hin & Hst & Hs).
    exists (key, membersOf key (filterMap (admitted th currentTime) options)). split.
    + apply Hgroups. split; [|reflexivity].
      apply membersOf_In in Hin.
      intros Hnil. rewrite Hnil in Hin. destruct Hin.
    + unfold Monitor.groupAlerts. cbn [fst snd]. rewrite Hstats.
      rewrite Hst.
      apply flat_map_option_In. exists q. split; [|exact Hs].
      apply membersOf_In. exact Hin.
Qed.


(** X4. The alerts that the live monitor raises on a snapshot are
    exactly the records that [detectHighProbabilityAlerts] builds for
    the quotes kept by the aggregator, each scored against the
    statistics of all the kept quotes of its cohort key.  A kept quote
    of positive mark price always finds statistics for its cohort, so
    that it raises an alert as soon as its composite score reaches the
    threshold: the alert bears its symbol, its cohort key and its score
    in two decimals. *)
Theorem live_alert_criterion (sqrt : Q -> Q) (th : Monitor.thresholds)
    (currentTime now : Z) (options : list Monitor.bookSummary) :
  let alerts := Monitor.evaluateSnapshot sqrt th currentTime now options in
  let cohortOf key := membersOf key (filterMap (admitted th currentTime) options) in
  (forall a,
     In a alerts <->
     exists opt q st,
       In opt options
       /\ admitted th currentTime opt = Some (Monitor.Alert.expiryDate a, q)
       /\ Monitor.cohortStats sqrt (cohortOf (Monitor.Alert.expiryDate a)) = Some st
       /\ Monitor.scoreOption th now (Monitor.Alert.expiryDate a) st q = Some a)
  /\ (forall opt key q,
        In opt options -> admitted th currentTime opt = Some (key, q) ->
        0 < Monitor.mark_price opt ->
        exists st,
          Monitor.cohortStats sqrt (cohortOf key) = Some st
          /\ (Monitor.anomalyScoreThreshold th <= Monitor.scoreOf th st q ->
              exists a, In a alerts
                        /\ Monitor.Alert.symbol a = Monitor.instrument_name opt
                        /\ Monitor.Alert.expiryDate a = key
                        /\ Monitor.Alert.anomalyScore a
                           = toFixed 2 (Monitor.scoreOf th st q))).
Proof.
  intros alerts cohortOf.
  assert (Hmem : forall a : Monitor.Alert.t,
    In a alerts <->
    exists key q st,
      In (key, q) (filterMap (admitted th currentTime) options)
      /\ Monitor.cohortStats sqrt (cohortOf key) = Some st
      /\ Monitor.scoreOption th now key st q = Some a)
    by (intros a; apply live_alerts_keyed).
  assert (Hkey : forall key st q a,
    Monitor.scoreOption th now key st q = Some a -> Monitor.Alert.expiryDate a = key).
  { intros key st q a. unfold Monitor.scoreOption.
    destruct (Qle_bool (Monitor.markPriceOf q) 0); [discriminate|]. cbv zeta.
    destruct (Qle_bool _ _); [|discriminate]. intros H; inversion H; reflexivity. }
  split.
  - intros a. rewrite Hmem. split.
    + intros (key & q & st & Hin & Hst & Hs).
      pose proof (Hkey _ _ _ _ Hs) as Hk. subst key.
      apply filterMap_In in Hin. destruct Hin as (opt & Hopt & Hadm).
      exists opt, q, st. auto.
    + intros (opt & q & st & Hopt & Hadm & Hst & Hs).
      exists (Monitor.Alert.expiryDate a), q, st. split; [|split; assumption].
      apply filterMap_In. exists opt. auto.
  - intros opt key q Hopt Hadm Hprice.
    assert (Hin : In (key, q) (filterMap (admitted th currentTime) options))
      by (apply filterMap_In; exists opt; auto).
    assert (Hq : In q (cohortOf key)) by (apply membersOf_In; exact Hin).
    pose proof (admitted_summary _ _ _ _ _ Hadm) as Hsum.
    assert (Hqp : 0 < Monitor.markPriceOf q)
      by (unfold Monitor.markPriceOf; rewrite Hsum; exact Hprice).
    destruct (Monitor.cohortStats sqrt (cohortOf key)) as [st|] eqn:Hst.
    2:{ exfalso.
        pose proof (proj1 (live_cohortStats_none sqrt (cohortOf key)) Hst q Hq). lra. }
    exists st. split; [reflexivity|]. intros Hscore.
    assert (Hs : exists a, Monitor.scoreOption th now key st q = Some a
                           /\ Monitor.Alert.symbol a = Monitor.instrument_name opt
                           /\ Monitor.Alert.expiryDate a = key
                           /\ Monitor.Alert.anomalyScore a
                              = toFixed 2 (Monitor.scoreOf th st q)).
    { unfold Monitor.scoreOption.
      destruct (Qle_bool (Monitor.markPriceOf q) 0) eqn:Hp;
        [apply Qle_bool_iff in Hp; lra|]. cbv zeta.
      fold (Monitor.scoreOf th st q).
      destruct (Qle_bool (Monitor.anomalyScoreThreshold th) _) eqn:Ht.
      - eexists. split; [reflexivity|]. cbn. rewrite Hsum. auto.
      - exfalso. apply Qle_bool_gt in Ht. lra. }
    destruct Hs as (a & Hs & H1 & H2 & H3). exists a. split; [|auto].
    apply Hmem. exists key, q, st. auto.
Qed.

(** ** Cohorts without a deviating quote *)







Lemma admitted_window th ct opt key q :
  admitted th ct opt = Some (key, q) ->
  Monitor.minTimeToExpiry th <= Monitor.timeToExpiry q
  /\ Monitor.timeToExpiry q <= Monitor.maxTimeToExpiry th.
Proof.
  unfold admitted. destruct (truthy _) as [ts|]; [|discriminate]. cbv zeta.
  destruct (Qltb _ _) eqn:E1; [discriminate|].
  destruct (Qltb (Monitor.maxTimeToExpiry th) _) eqn:E2; [discriminate|].
  cbn [orb]. intros H; inversion H; subst; cbn.
  apply Qltb_ge in E1, E2. split; assumption.
Qed.




(** ** Stored quotes and live quotes *)

Lemma valid_map {X Y : Type} (g : X -> Y) (f : Y -> Q) (l : list X) :
  valid f (List.map g l) = valid (fun x => f (g x)) l.
Proof.
  unfold valid. induction l as [|x l IH]; simpl; [reflexivity|].
  destruct (Qltb 0 (f (g x))); simpl; rewrite IH; reflexivity.
Qed.

Lemma stored_cohortStats sqrt now (cohort : list Monitor.groupedOption) :
  Backtester.cohortStats sqrt (List.map (storedOf now) cohort)
  = option_map sharedFields (Monitor.cohortStats sqrt cohort).
Proof.
  unfold Backtester.cohortStats, Monitor.cohortStats.
  rewrite !valid_map, length_map.
  change (fun x => Backtester.markPrice (storedOf now x)) with Monitor.markPriceOf.
  change (fun x => Backtester.volume (storedOf now x)) with Monitor.volumeOf.
  change (fun x => Backtester.openInterest (storedOf now x)) with Monitor.openInterestOf.
  destruct (valid Monitor.markPriceOf cohort) as [|p ps]; [reflexivity|].
  cbn [option_map]. unfold sharedFields. cbn.
  destruct (valid Monitor.volumeOf cohort) as [|v vs]; reflexivity.
Qed.

Lemma Qmax_zero_nonpos (x : Q) : x <= 0 -> Qmax 0 x == 0.
Proof. intros H. apply Q.max_l. exact H. Qed.

Lemma Qmax_zero_nonneg (x : Q) : 0 <= x -> Qmax 0 x == x.
Proof. intros H. apply Q.max_r. exact H. Qed.

Lemma hours_sign (ts now : Z) :
  (ts <= now)%Z -> inject_Z (ts - now) / inject_Z (1000 * 60 * 60) <= 0.
Proof.
  intros H. apply Qle_shift_div_r; [reflexivity|].
  rewrite Qmult_0_l. change 0 with (inject_Z 0). rewrite <- Zle_Qle. lia.
Qed.

(** X6. A snapshot stores what the live monitor sees.  The statistics
    that the backtester computes of the stored form of a cohort are the
    live statistics of the cohort, less the deviation of the open
    interest; a quote that the live aggregator keeps is filed by the
    backtester under the same cohort key, its stored hours to expiry are
    the live ones when the window starts at 0 hours or later, and its
    time-decay factor is the live one when the window ends at 48
    hours. *)
Theorem stored_quotes_agree_with_live (sqrt : Q -> Q) (th : Monitor.thresholds)
    (now : Z) (options : list Monitor.bookSummary) :
  (forall cohort,
     Backtester.cohortStats sqrt (List.map (storedOf now) cohort)
     = option_map sharedFields (Monitor.cohortStats sqrt cohort))
  /\ (forall opt key q,
        admitted th now opt = Some (key, q) ->
        storedOf now q = Backtester.collectOption now opt
        /\ filed (storedOf now q) = Some (key, storedOf now q)
        /\ (0 <= Monitor.minTimeToExpiry th ->
            Backtester.timeToExpiryOf (storedOf now q) == Monitor.timeToExpiry q)
        /\ (0 <= Monitor.minTimeToExpiry th -> Monitor.maxTimeToExpiry th == 48 ->
            Backtester.timeDecayFactor (storedOf now q) == Monitor.timeDecayFactor th q)).
Proof.
  split; [intros cohort; apply stored_cohortStats|].
  intros opt key q Hadm.
  pose proof (admitted_summary _ _ _ _ _ Hadm) as Hsum.
  pose proof (admitted_window _ _ _ _ _ Hadm) as [Hlo Hhi].
  unfold admitted in Hadm.
  destruct (truthy (parseExpiryTimestamp (Monitor.instrument_name opt))) as [ts|] eqn:Hts;
    [|discriminate].
  cbv zeta in Hadm. destruct (_ || _)%bool; [discriminate|].
  inversion Hadm; subst key q; clear Hadm. cbn in Hlo, Hhi |- *.
  unfold storedOf. cbn [Monitor.summary].
  assert (Hh : Backtester.timeToExpiryOf (Backtester.collectOption now opt)
               == Qmax 0 (inject_Z (ts - now) / inject_Z (1000 * 60 * 60))).
  { unfold Backtester.timeToExpiryOf, Backtester.collectOption, getTimeToExpiry.
    cbn [Backtester.timeToExpiry]. rewrite Hts. reflexivity. }
  split; [reflexivity|]. split.
  { unfold filed, Backtester.collectOption. cbn [Backtester.instrument]. rewrite Hts.
    reflexivity. }
  split.
  - intros Hmin. rewrite Hh. apply Qmax_zero_nonneg. lra.
  - intros Hmin Hmax. unfold Backtester.timeDecayFactor, Monitor.timeDecayFactor.
    cbv zeta. cbn [Monitor.timeToExpiry].
    assert (Hval : Backtester.timeToExpiryOf (Backtester.collectOption now opt)
                   == inject_Z (ts - now) / inject_Z (1000 * 60 * 60))
      by (rewrite Hh; apply Qmax_zero_nonneg; lra).
    destruct (Qle_bool _ 48) eqn:E.
    + rewrite Hval, Hmax. reflexivity.
    + exfalso. apply Qle_bool_gt in E. rewrite Hval in E. lra.
Qed.

(** X7. A quote past its expiry is never scored by the live monitor
    whose window starts after 0 hours, but it is by the backtester:
    [getTimeToExpiry] stores 0 hours for it, the backtester files it
    under its cohort key like any other quote, and its time-decay factor
    is 1, so that it gets the whole time bonus of 2. *)
Theorem expired_quote_scored_only_in_backtest (th : Monitor.thresholds) (now ts : Z)
    (opt : Monitor.bookSummary) :
  truthy (parseExpiryTimestamp (Monitor.instrument_name opt)) = Some ts ->
  (ts <= now)%Z ->
  0 < Monitor.minTimeToExpiry th ->
  let stored := Backtester.collectOption now opt in
  (forall options key cohort q,
     In (key, cohort) (Monitor.groupByExpiry th now options) -> In q cohort ->
     Monitor.summary q <> opt)
  /\ filed stored = Some (expiryKeyOf ts, stored)
  /\ Backtester.timeToExpiryOf stored == 0
  /\ Backtester.timeDecayFactor stored == 1
  /\ (forall p v o pz vz oz,
        Backtester.weightedScore p v o pz vz oz (Backtester.timeDecayFactor stored)
        == Qabs pz * p + Qabs vz * v + Qabs oz * o + 2).
Proof.
  intros Hts Hpast Hmin stored.
  pose proof (hours_sign ts now Hpast) as Hsign.
  assert (Hh : Backtester.timeToExpiryOf stored == 0).
  { subst stored. unfold Backtester.timeToExpiryOf, Backtester.collectOption, getTimeToExpiry.
    cbn [Backtester.timeToExpiry]. rewrite Hts. apply Qmax_zero_nonpos, Hsign. }
  assert (Htd : Backtester.timeDecayFactor stored == 1).
  { unfold Backtester.timeDecayFactor. cbv zeta.
    destruct (Qle_bool _ 48) eqn:E.
    - rewrite Hh. reflexivity.
    - apply Qle_bool_gt in E. rewrite Hh in E. lra. }
  split; [|split; [|split; [exact Hh|split; [exact Htd|]]]].
  - intros options key cohort q Hin Hq Hsum.
    destruct (groupByExpiry_members _ _ _ _ _ _ Hin Hq) as (Hparse & _ & Htte & Hlo & _).
    rewrite Hsum, Hts in Hparse. inversion Hparse as [Heq].
    rewrite <- Heq in Htte. rewrite Htte in Hlo. lra.
  - subst stored. unfold filed, Backtester.collectOption. cbn [Backtester.instrument].
    rewrite Hts. reflexivity.
  - intros p v o pz vz oz. unfold Backtester.weightedScore. rewrite Htd. ring.
Qed.

Lemma expired_quote_scored_only_in_backtest_witness :
  let opt := demoQuote (JSString.lit "ETH-7NOV25-3300-C") 1 10 5 in
  let now := (demoNow + 2 * 86400000)%Z in
  (1762502400000 <= now)%Z
  /\ Backtester.timeDecayFactor (Backtester.collectOption now opt) == 1
  /\ Monitor.groupByExpiry Monitor.OPTIMAL_THRESHOLDS now [opt] = [].
Proof.
  intros opt now.
  assert (Hpast : (1762502400000 <= now)%Z) by (vm_compute; discriminate).
  destruct (expired_quote_scored_only_in_backtest Monitor.OPTIMAL_THRESHOLDS now
              1762502400000 opt) as (_ & _ & _ & Htd & _).
  - vm_compute. reflexivity.
  - exact Hpast.
  - reflexivity.
  - split; [exact Hpast|]. split; [exact Htd|]. vm_compute. reflexivity.
Defined.

(** ** Dispatch of the alerts *)

Lemma filterMap_total {X Y : Type} (f : X -> Y) (l : list X) :
  filterMap (fun x => Some (f x)) l = List.map f l.
Proof. induction l as [|x l IH]; simpl; [reflexivity|]. rewrite IH. reflexivity. Qed.

Lemma membersOf_keyed {A : Type} (key : A -> string) (k : string) (l : list A) :
  membersOf k (List.map (fun a => (key a, a)) l)
  = List.filter (fun a => String.eqb (key a) k) l.
Proof.
  unfold membersOf. induction l as [|a l IH]; simpl; [reflexivity|].
  destruct (String.eqb (key a) k); simpl; rewrite IH; reflexivity.
Qed.

Lemma descending_filter {A : Type} (key : A -> Q) (p : A -> bool) (l : list A) :
  Spec.descending key l -> Spec.descending key (List.filter p l).
Proof.
  unfold Spec.descending. induction l as [|x l IH]; intros Hs; simpl; [constructor|].
  inversion Hs as [|? ? Hl Hx]; subst.
  destruct (p x); [|apply IH, Hl].
  constructor; [apply IH, Hl|].
  apply Forall_forall. intros b Hb. apply filter_In in Hb.
  rewrite Forall_forall in Hx. apply Hx, Hb.
Qed.

Lemma alertsByExpiry_keyed (alerts : list Monitor.Alert.t) :
  groupsOfKeyed (Monitor.alertsByExpiry alerts)
    (List.map (fun a => (Monitor.Alert.expiryDate a, a)) alerts).
Proof.
  rewrite <- filterMap_total. unfold Monitor.alertsByExpiry.
  apply fold_groups. reflexivity.
Qed.

(** X8. The alerts are dispatched in one group for each cohort that has
    any: no cohort has two groups, a group is not empty and holds the
    alerts of its cohort in the order of the sorted list.  A group is
    therefore itself in descending order of the printed score, and its
    first five alerts, the ones that the mail lists, have the highest
    scores of the group. *)
Theorem alertsByExpiry_groups (th : Monitor.thresholds) (now : Z)
    (expiryGroups : list (string * list Monitor.groupedOption))
    (expiryStats : gmap string Monitor.stats) :
  let alerts := Monitor.detectHighProbabilityAlerts th now expiryGroups expiryStats in
  let byExpiry := Monitor.alertsByExpiry alerts in
  NoDup (List.map fst byExpiry)
  /\ (forall expiry group,
        In (expiry, group) byExpiry <->
        group <> []
        /\ group = List.filter
                     (fun a => String.eqb (Monitor.Alert.expiryDate a) expiry) alerts)
  /\ (forall expiry group,
        In (expiry, group) byExpiry ->
        Spec.descending Monitor.Alert.anomalyScore group
        /\ forall a b, In a (List.firstn 5 group) -> In b (List.skipn 5 group) ->
                       Monitor.Alert.anomalyScore b <= Monitor.Alert.anomalyScore a).
Proof.
  intros alerts byExpiry.
  destruct (alertsByExpiry_keyed alerts) as [Hnd Hiff]. fold byExpiry in Hnd, Hiff.
  split; [exact Hnd|]. split.
  - intros expiry group. rewrite Hiff, membersOf_keyed. reflexivity.
  - intros expiry group Hin. apply Hiff in Hin. destruct Hin as [_ Heq].
    rewrite membersOf_keyed in Heq.
    assert (Hdesc : Spec.descending Monitor.Alert.anomalyScore group).
    { rewrite Heq. apply descending_filter. apply sort_desc_descending. }
    split; [exact Hdesc|]. intros a b Ha Hb.
    rewrite <- (firstn_skipn 5 group) in Hdesc.
    unfold Spec.descending in Hdesc.
    revert Hdesc Ha. generalize (List.firstn 5 group) as top.
    induction top as [|x top IH]; intros Hdesc Ha; [destruct Ha|].
    simpl in Hdesc. inversion Hdesc as [|? ? Hrest Hx]; subst.
    destruct Ha as [->|Ha]; [|exact (IH Hrest Ha)].
    rewrite Forall_forall in Hx. apply Hx. apply in_or_app. right. exact Hb.
Qed.

Lemma shouldSendAlert_same_entry (e : State.env) (st1 st2 : State.state) (t : Z)
    (expiry : string) :
  State.lastAlertTime st1 !! expiry = State.lastAlertTime st2 !! expiry ->
  State.shouldSendAlert e st1 t expiry = State.shouldSendAlert e st2 t expiry.
Proof. intros H. unfold State.shouldSendAlert. rewrite H. reflexivity. Qed.

Lemma count_filter_cons {X : Type} (p : X -> bool) (x : X) (l : list X) :
  List.length (List.filter p (x :: l))
  = ((if p x then 1 else 0) + List.length (List.filter p l))%nat.
Proof. simpl. destruct (p x); reflexivity. Qed.

Lemma sendAlerts_from (e : State.env) (transport : string -> list Monitor.Alert.t -> bool)
    (checkTime recordTime : string -> Z) (st0 : State.state)
    (entries : list (string * list Monitor.Alert.t)) :
  NoDup (List.map fst entries) ->
  forall acc,
    (forall k, In k (List.map fst entries) ->
               State.lastAlertTime (fst acc) !! k = State.lastAlertTime st0 !! k) ->
    let res := fold_left (Monitor.sendStep e transport checkTime recordTime) entries acc in
    snd res
    = (snd acc + List.length (List.filter (dispatched e transport checkTime st0) entries))%nat
    /\ (forall k, ~ In k (List.map fst entries) ->
                  State.lastAlertTime (fst res) !! k = State.lastAlertTime (fst acc) !! k)
    /\ (forall k group, In (k, group) entries ->
          State.lastAlertTime (fst res) !! k
          = if dispatched e transport checkTime st0 (k, group)
            then Some (recordTime k)
            else State.lastAlertTime st0 !! k).
Proof.
  induction entries as [|[k0 g0] entries IH]; intros Hnd acc Hacc; cbv zeta.
  - simpl. split; [lia|]. split; [reflexivity|]. intros k group [].
  - inversion Hnd as [|? ? Hnotin Hrest]; subst.
    cbn [fold_left]. rewrite count_filter_cons.
    set (acc' := Monitor.sendStep e transport checkTime recordTime acc (k0, g0)).
    assert (Hdec : acc' = if dispatched e transport checkTime st0 (k0, g0)
                          then (State.recordAlertSent e (fst acc) (recordTime k0) k0 g0,
                                S (snd acc))
                          else acc).
    { subst acc'. unfold Monitor.sendStep, dispatched. cbn [fst snd].
      rewrite (shouldSendAlert_same_entry e (fst acc) st0)
        by (apply Hacc; left; reflexivity).
      destruct (State.shouldSendAlert e st0 _ _); [|reflexivity].
      destruct (Monitor.sendAdvancedAlertEmail _ _ _ _); reflexivity. }
    assert (Hother : forall k, k <> k0 ->
              State.lastAlertTime (fst acc') !! k = State.lastAlertTime (fst acc) !! k).
    { intros k Hk. rewrite Hdec. destruct (dispatched _ _ _ _ _); [|reflexivity].
      unfold State.recordAlertSent; cbn [fst State.lastAlertTime].
      apply lookup_insert_ne. congruence. }
    assert (Hacc' : forall k, In k (List.map fst entries) ->
              State.lastAlertTime (fst acc') !! k = State.lastAlertTime st0 !! k).
    { intros k Hk. rewrite Hother.
      - apply Hacc. right. exact Hk.
      - intros ->. exact (Hnotin Hk). }
    destruct (IH Hrest acc' Hacc') as (Hn & Hframe & Hset).
    split; [|split].
    + rewrite Hn, Hdec. destruct (dispatched _ _ _ _ _); simpl; lia.
    + intros k Hk. rewrite Hframe by (intros H; apply Hk; right; exact H).
      apply Hother. intros ->. apply Hk. left. reflexivity.
    + intros k group [Heq|Hin].
      * inversion Heq; subst. rewrite Hframe by exact Hnotin.
        rewrite Hdec. destruct (dispatched _ _ _ _ _).
        -- unfold State.recordAlertSent; cbn [fst State.lastAlertTime].
           apply lookup_insert_eq.
        -- apply Hacc. left. reflexivity.
      * apply Hset, Hin.
Qed.

Lemma sendAlerts_unconfigured (e : State.env)
    (transport : string -> list Monitor.Alert.t -> bool)
    (checkTime recordTime : string -> Z) (st : State.state)
    (entries : list (string * list Monitor.Alert.t)) :
  Monitor.emailConfigured e = false ->
  Monitor.sendAlerts e transport checkTime recordTime st entries = (st, O).
Proof.
  intros Hconf. unfold Monitor.sendAlerts. generalize (st, O).
  induction entries as [|entry rest IH]; intros acc; [reflexivity|].
  cbn [fold_left].
  assert (Hstep : Monitor.sendStep e transport checkTime recordTime acc entry = acc).
  { unfold Monitor.sendStep, Monitor.sendAdvancedAlertEmail. rewrite Hconf.
    destruct (State.shouldSendAlert _ _ _ _); reflexivity. }
  rewrite Hstep. apply IH.
Qed.

(** X9. The dispatch loop decides every cohort on the state in which the
    loop starts: a mail goes out for a group exactly when the gate of
    its cohort is open in that state and the mail service accepts it.
    [emailsSent] counts these groups and is at most their number; the
    last alert time of a cohort becomes the reading of the clock when
    its mail went out and stays as it was otherwise, also for every
    cohort without an alert; and without a configured recipient nothing
    is sent and nothing is recorded. *)
Theorem dispatch_respects_the_gate (e : State.env)
    (transport : string -> list Monitor.Alert.t -> bool)
    (checkTime recordTime : string -> Z) (st : State.state)
    (alerts : list Monitor.Alert.t) :
  let byExpiry := Monitor.alertsByExpiry alerts in
  let res := Monitor.sendAlerts e transport checkTime recordTime st byExpiry in
  snd res = List.length (List.filter (dispatched e transport checkTime st) byExpiry)
  /\ (snd res <= List.length byExpiry)%nat
  /\ (forall expiry group, In (expiry, group) byExpiry ->
        State.lastAlertTime (fst res) !! expiry
        = if dispatched e transport checkTime st (expiry, group)
          then Some (recordTime expiry)
          else State.lastAlertTime st !! expiry)
  /\ (forall expiry, ~ In expiry (List.map Monitor.Alert.expiryDate alerts) ->
        State.lastAlertTime (fst res) !! expiry = State.lastAlertTime st !! expiry)
  /\ (Monitor.emailConfigured e = false -> res = (st, O)).
Proof.
  intros byExpiry res.
  destruct (alertsByExpiry_keyed alerts) as [Hnd Hiff]. fold byExpiry in Hnd, Hiff.
  destruct (sendAlerts_from e transport checkTime recordTime st byExpiry Hnd (st, O))
    as (Hn & Hframe & Hset); [reflexivity|].
  fold (Monitor.sendAlerts e transport checkTime recordTime st byExpiry) in Hn, Hframe, Hset.
  fold res in Hn, Hframe, Hset. simpl in Hn, Hframe.
  split; [exact Hn|]. split; [rewrite Hn; apply filter_length_le|].
  split; [exact Hset|]. split.
  - intros expiry Hno. apply Hframe. intros Hin.
    apply in_map_iff in Hin. destruct Hin as ([k g] & Hk & Hin). simpl in Hk. subst k.
    apply Hiff in Hin. destruct Hin as [Hne Heq]. rewrite membersOf_keyed in Heq.
    destruct g as [|a g']; [congruence|].
    assert (Ha : In a (List.filter
                         (fun a => String.eqb (Monitor.Alert.expiryDate a) expiry) alerts))
      by (rewrite <- Heq; left; reflexivity).
    apply filter_In in Ha. destruct Ha as [Ha Hk]. apply String.eqb_eq in Hk.
    apply Hno. rewrite <- Hk. apply in_map, Ha.
  - intros Hconf. subst res. apply sendAlerts_unconfigured, Hconf.
Qed.

Lemma pushGroup_total {A : Type} (key : string) (x : A) (groups : list (string * list A)) :
  List.length (List.flat_map snd (pushGroup key x groups))
  = S (List.length (List.flat_map snd groups)).
Proof.
  induction groups as [|[k xs] rest IH]; simpl; [reflexivity|].
  destruct (String.eqb k key); simpl; rewrite !length_app; simpl; [lia|].
  rewrite IH. lia.
Qed.

Lemma pushGroup_length {A : Type} (key : string) (x : A) (groups : list (string * list A)) :
  (List.length (pushGroup key x groups) <= S (List.length groups))%nat.
Proof.
  induction groups as [|[k xs] rest IH]; simpl; [lia|].
  destruct (String.eqb k key); simpl; lia.
Qed.

Lemma live_groups_total th currentTime options :
  (List.length (List.flat_map snd (Monitor.groupByExpiry th currentTime options))
   <= List.length options)%nat.
Proof.
  unfold Monitor.groupByExpiry.
  assert (Hgen : forall groups,
    (List.length (List.flat_map snd
       (fold_left (Monitor.groupOption th currentTime) options groups))
     <= List.length (List.flat_map snd groups) + List.length options)%nat).
  { induction options as [|opt options IH]; intros groups; simpl; [lia|].
    etransitivity; [apply IH|].
    assert ((List.length (List.flat_map snd (Monitor.groupOption th currentTime groups opt))
             <= S (List.length (List.flat_map snd groups)))%nat).
    { unfold Monitor.groupOption. destruct (truthy _); [|lia]. cbv zeta.
      destruct (_ || _)%bool; [lia|]. rewrite pushGroup_total. lia. }
    lia. }
  apply (Hgen []).
Qed.

Lemma flat_map_option_length {X Y : Type} (f : X -> option Y) (l : list X) :
  (List.length (List.flat_map (fun x => match f x with Some a => [a] | None => [] end) l)
   <= List.length l)%nat.
Proof.
  induction l as [|x l IH]; simpl; [lia|].
  rewrite length_app. destruct (f x); simpl; lia.
Qed.

Lemma live_alerts_length th now groups stats :
  (List.length (Monitor.detectHighProbabilityAlerts th now groups stats)
   <= List.length (List.flat_map snd groups))%nat.
Proof.
  unfold Monitor.detectHighProbabilityAlerts.
  rewrite (Permutation_length (sort_desc_Permutation _ _)).
  unfold Monitor.pushedAlerts.
  induction groups as [|[k opts] rest IH]; simpl; [lia|].
  rewrite !length_app.
  assert ((List.length (Monitor.groupAlerts th now stats (k, opts)) <= List.length opts)%nat).
  { unfold Monitor.groupAlerts. cbn [fst snd]. destruct (stats !! k); [|simpl; lia].
    apply flat_map_option_length. }
  lia.
Qed.

Lemma alertsByExpiry_length (alerts : list Monitor.Alert.t) :
  (List.length (Monitor.alertsByExpiry alerts) <= List.length alerts)%nat.
Proof.
  unfold Monitor.alertsByExpiry.
  assert (Hgen : forall groups : list (string * list Monitor.Alert.t),
    (List.length (fold_left (fun groups alert =>
                    pushGroup (Monitor.Alert.expiryDate alert) alert groups) alerts groups)
     <= List.length groups + List.length alerts)%nat).
  { induction alerts as [|a alerts IH]; intros groups; simpl; [lia|].
    etransitivity; [apply IH|].
    pose proof (pushGroup_length (Monitor.Alert.expiryDate a) a groups). lia. }
  apply (Hgen []).
Qed.

Lemma sendAlerts_count e transport checkTime recordTime st
    (entries : list (string * list Monitor.Alert.t)) :
  (snd (Monitor.sendAlerts e transport checkTime recordTime st entries)
   <= List.length entries)%nat.
Proof.
  unfold Monitor.sendAlerts.
  assert (Hgen : forall acc,
    (snd (fold_left (Monitor.sendStep e transport checkTime recordTime) entries acc)
     <= snd acc + List.length entries)%nat).
  { induction entries as [|entry entries IH]; intros acc; simpl; [lia|].
    etransitivity; [apply IH|].
    assert ((snd (Monitor.sendStep e transport checkTime recordTime acc entry)
             <= S (snd acc))%nat).
    { unfold Monitor.sendStep. destruct (State.shouldSendAlert _ _ _ _); [|lia].
      destruct (Monitor.sendAdvancedAlertEmail _ _ _ _); simpl; lia. }
    lia. }
  apply (Hgen (st, O)).
Qed.

(** X10. The status that a completed check writes is consistent:
    [emailsSent <= irregularitiesFound <= optionsChecked], the last
    being the number of quotes fetched.  The check leaves the [error]
    field as it was; without a configured recipient, and on an empty
    book, it leaves the state of the gate untouched. *)
Theorem completed_check_status (sqrt : Q -> Q) (th : Monitor.thresholds) (e : State.env)
    (transport : string -> list Monitor.Alert.t -> bool)
    (currentTime now : Z) (checkTime recordTime : string -> Z)
    (lastCheck : string) (duration : Z)
    (st : State.state) (ms : State.monitorStatus)
    (options : list Monitor.bookSummary) (ethPrice : option Q) :
  let res :=
    Monitor.monitorOptionsAdvanced sqrt th e transport currentTime now checkTime
      recordTime lastCheck duration st ms options ethPrice in
  let ms' := snd res in
  (0 <= State.emailsSent ms' <= State.irregularitiesFound ms')%Z
  /\ (State.irregularitiesFound ms' <= State.optionsChecked ms')%Z
  /\ State.optionsChecked ms' = Z.of_nat (List.length options)
  /\ State.error ms' = State.error ms
  /\ (Monitor.emailConfigured e = false -> fst res = st /\ State.emailsSent ms' = 0%Z)
  /\ (options = [] -> fst res = st /\ State.irregularitiesFound ms' = 0%Z).
Proof.
  intros res ms'. subst ms' res. unfold Monitor.monitorOptionsAdvanced. cbn [fst snd].
  set (alerts := Monitor.evaluateSnapshot sqrt th currentTime now options).
  set (byExpiry := Monitor.alertsByExpiry alerts).
  set (sent := Monitor.sendAlerts e transport checkTime recordTime st byExpiry).
  pose proof (sendAlerts_count e transport checkTime recordTime st byExpiry) as Hn.
  pose proof (sendAlerts_unconfigured e transport checkTime recordTime st byExpiry) as Hconf.
  fold sent in Hn, Hconf.
  pose proof (alertsByExpiry_length alerts) as Hgroups. fold byExpiry in Hgroups.
  assert (Halerts : (List.length alerts <= List.length options)%nat).
  { subst alerts. unfold Monitor.evaluateSnapshot, Monitor.calculateAdvancedStats.
    etransitivity; [apply live_alerts_length|apply live_groups_total]. }
  assert (Hempty : options = [] -> sent = (st, O) /\ alerts = []).
  { intros ->. split; reflexivity. }
  clearbody sent byExpiry alerts.
  unfold State.updateMonitorStatus, Monitor.checkCompleted; cbn.
  split; [lia|]. split; [lia|]. split; [reflexivity|]. split; [reflexivity|]. split.
  - intros H. rewrite (Hconf H). split; reflexivity.
  - intros H. destruct (Hempty H) as [-> ->]. split; reflexivity.
Qed.

(** ** The monitor status *)

Lemma updateMonitorStatus_error (ms : State.monitorStatus) (o : checkOutcome) :
  State.error (State.updateMonitorStatus ms (statusOf o))
  = match o with
    | Failed _ message => Some message
    | Completed _ _ _ _ _ _ => State.error ms
    end.
Proof. destruct o; reflexivity. Qed.

(** X11. The [error] field of the monitor status is sticky: after any
    sequence of checks it holds the message of the last check that
    failed, however many checks have completed since, and it is what it
    was at the start when none has failed.  A completed check never
    clears it. *)
Theorem status_error_is_sticky (ms : State.monitorStatus) (outcomes : list checkOutcome) :
  State.error (statusAfter ms outcomes)
  = match lastFailure outcomes with
    | Some message => Some message
    | None => State.error ms
    end.
Proof.
  unfold statusAfter. revert ms.
  induction outcomes as [|o outcomes IH]; intros ms; [reflexivity|].
  cbn [fold_left lastFailure]. rewrite IH, updateMonitorStatus_error.
  destruct (lastFailure outcomes); [reflexivity|]. destruct o; reflexivity.
Qed.

(** ** The alert history *)





(** ** Edge values of the cooldown *)

Lemma hoursSince_nonneg (now later : Z) : (now <= later)%Z -> 0 <= State.hoursSince later now.
Proof.
  intros H. unfold State.hoursSince. apply Qle_shift_div_l; [reflexivity|].
  rewrite Qmult_0_l. unfold Qle, inject_Z; simpl. lia.
Qed.

Lemma inject_Z_nonpos (h : Z) : (h <= 0)%Z -> inject_Z h <= 0.
Proof. intros H. unfold Qle, inject_Z; simpl. lia. Qed.

(** X13. With a cooldown that [parseInt] does not read as a number, a
    cohort that has been alerted once is never let through again,
    whatever the time elapsed; with a cooldown of 0 hours or less and a
    clock that does not run backwards, the gate is open at once. *)
Theorem cooldown_edge_values {A : Type} (e : State.env) (st : State.state)
    (now later : Z) (expiry : string) (alerts : list A) :
  (0 < now)%Z ->
  (State.cooldownHours e = JNaN ->
   State.shouldSendAlert e (State.recordAlertSent e st now expiry alerts) later expiry
   = false)
  /\ (forall h, State.cooldownHours e = JNum h -> (h <= 0)%Z -> (now <= later)%Z ->
      State.shouldSendAlert e (State.recordAlertSent e st now expiry alerts) later expiry
      = true).
Proof.
  intros Hnow.
  assert (Hnz : (now =? 0)%Z = false) by (apply Z.eqb_neq; lia).
  split.
  - intros Hnan. unfold State.shouldSendAlert, State.recordAlertSent; simpl.
    rewrite lookup_insert_eq, Hnz, Hnan. reflexivity.
  - intros h Hh Hle Hmono. unfold State.shouldSendAlert, State.recordAlertSent; simpl.
    rewrite lookup_insert_eq, Hnz, Hh. apply Qle_bool_iff.
    pose proof (hoursSince_nonneg now later Hmono).
    pose proof (inject_Z_nonpos h Hle). lra.
Qed.

Lemma cooldown_edge_values_witness :
  let e := {| State.ALERT_COOLDOWN_HOURS := Some (JSString.lit "six");
              State.RECIPIENT_EMAIL := None |} in
  State.shouldSendAlert e
    (State.recordAlertSent e State.initial demoNow "2025-11-07" [tt])
    (demoNow + 1000 * 3600000) "2025-11-07" = false.
Proof.
  intros e.
  refine (proj1 (cooldown_edge_values e State.initial demoNow (demoNow + 1000 * 3600000)
                   "2025-11-07" [tt] _) _); reflexivity.
Defined.

(** ** Invariants of a backtest pass *)

Lemma backtestStep_invariant sqrt p v o (c : Backtester.counters) (d : Backtester.dataPoint) :
  let c' := Backtester.backtestStep sqrt p v o c d in
  (Backtester.cTotalAlerts c' - Backtester.cTotalAlerts c
   = (Backtester.cSuccessful c' - Backtester.cSuccessful c)
     + (Backtester.cFalsePositives c' - Backtester.cFalsePositives c))%nat
  /\ (Backtester.cTotalAlerts c <= Backtester.cTotalAlerts c'
      <= S (Backtester.cTotalAlerts c))%nat
  /\ (Backtester.cSuccessful c <= Backtester.cSuccessful c')%nat
  /\ (Backtester.cFalsePositives c <= Backtester.cFalsePositives c')%nat
  /\ (Backtester.truthyPrice (Backtester.futureETHPrice d) = None -> c' = c).
Proof.
  cbv zeta. unfold Backtester.backtestStep.
  destruct (Backtester.truthyPrice _) as [future|]; [|repeat split; lia].
  destruct (Backtester.detectAnomalies _ _ _ _ _); [repeat split; try lia; discriminate|].
  destruct (Backtester.significantMove _ _); cbn; repeat split; try lia; discriminate.
Qed.

Lemma fold_backtestStep_invariant sqrt p v o (data : list Backtester.dataPoint) :
  forall c,
    let c' := fold_left (Backtester.backtestStep sqrt p v o) data c in
    (Backtester.cTotalAlerts c' - Backtester.cTotalAlerts c
     = (Backtester.cSuccessful c' - Backtester.cSuccessful c)
       + (Backtester.cFalsePositives c' - Backtester.cFalsePositives c))%nat
    /\ (Backtester.cTotalAlerts c <= Backtester.cTotalAlerts c'
        <= Backtester.cTotalAlerts c + List.length (List.filter usable data))%nat
    /\ (Backtester.cSuccessful c <= Backtester.cSuccessful c')%nat
    /\ (Backtester.cFalsePositives c <= Backtester.cFalsePositives c')%nat.
Proof.
  induction data as [|d data IH]; intros c; cbv zeta.
  - simpl. repeat split; lia.
  - cbn [fold_left List.filter].
    destruct (backtestStep_invariant sqrt p v o c d) as (H1 & H2 & H3 & H4 & H5).
    destruct (IH (Backtester.backtestStep sqrt p v o c d)) as (I1 & I2 & I3 & I4).
    cbv zeta in *. unfold usable at 1.
    destruct (Backtester.truthyPrice (Backtester.futureETHPrice d)) as [f|] eqn:E.
    + cbn [List.length]. repeat split; lia.
    + rewrite (H5 eq_refl) in *. repeat split; lia.
Qed.

Lemma ratio_bounds (a b : nat) : (a <= b)%nat -> (0 < b)%nat ->
  0 <= Backtester.ratio a b /\ Backtester.ratio a b <= 1.
Proof.
  intros Hab Hb. unfold Backtester.ratio.
  assert (Hb' : 0 < inject_Z (Z.of_nat b)).
  { change 0 with (inject_Z 0). rewrite <- Zlt_Qlt. lia. }
  assert (Ha' : 0 <= inject_Z (Z.of_nat a)).
  { change 0 with (inject_Z 0). rewrite <- Zle_Qle. lia. }
  assert (Hab' : inject_Z (Z.of_nat a) <= inject_Z (Z.of_nat b)).
  { rewrite <- Zle_Qle. lia. }
  split.
  - apply Qle_shift_div_l; [exact Hb'|]. lra.
  - apply Qle_shift_div_r; [exact Hb'|]. lra.
Qed.

(** X14. Whatever the corpus and the thresholds, the result of a pass
    is consistent: every alerting sample is counted successful or false
    positive and never both, [totalAlerts] is at most the number of
    samples with a usable later price, the precision lies in [[0,1]],
    the success rate is the precision as a percentage and lies in
    [[0,100]]; it is 100 exactly when there were alerts and no false
    positive, and 0 exactly when no alert was successful. *)
Theorem runBacktest_invariants (sqrt : Q -> Q) (data : list Backtester.dataPoint)
    (priceThreshold volumeThreshold oiThreshold : Q) :
  let r := Backtester.runBacktest sqrt data priceThreshold volumeThreshold oiThreshold in
  Backtester.totalAlerts r = (Backtester.successful r + Backtester.falsePositives r)%nat
  /\ (Backtester.totalAlerts r <= List.length (List.filter usable data))%nat
  /\ (Backtester.totalAlerts r <= List.length data)%nat
  /\ 0 <= Backtester.precision r /\ Backtester.precision r <= 1
  /\ 0 <= Backtester.successRate r /\ Backtester.successRate r <= 100
  /\ Backtester.successRate r == Backtester.precision r * 100
  /\ (Backtester.successRate r == 100 <->
      Backtester.falsePositives r = O /\ Backtester.totalAlerts r <> O)
  /\ (Backtester.successRate r == 0 <-> Backtester.successful r = O).
Proof.
  intros r. subst r. unfold Backtester.runBacktest.
  destruct (fold_backtestStep_invariant sqrt priceThreshold volumeThreshold oiThreshold
              data {| Backtester.cTotalAlerts := 0; Backtester.cSuccessful := 0;
                      Backtester.cFalsePositives := 0 |}) as (H1 & H2 & H3 & H4).
  cbv zeta in *.
  set (c := fold_left _ data _) in *. clearbody c.
  cbn [Backtester.cTotalAlerts Backtester.cSuccessful Backtester.cFalsePositives] in *.
  cbn [Backtester.totalAlerts Backtester.successful Backtester.falsePositives
       Backtester.successRate Backtester.precision].
  pose proof (filter_length_le usable data) as Hf.
  destruct c as [t s f].
  cbn [Backtester.cTotalAlerts Backtester.cSuccessful Backtester.cFalsePositives] in *.
  assert (Hsum : t = (s + f)%nat) by lia.
  split; [exact Hsum|]. split; [lia|]. split; [lia|].
  destruct t as [|t'].
  - assert (s = O) by lia. assert (f = O) by lia. subst.
    change (0 <? 0)%nat with false. cbv iota.
    repeat split; try lra; try (intros; lia); try (intros [_ H]; congruence);
      try reflexivity.
  - change (0 <? S t')%nat with true. cbv iota.
    destruct (ratio_bounds s (S t')) as [R0 R1]; [lia|lia|].
    split; [exact R0|]. split; [exact R1|].
    split; [lra|]. split; [lra|]. split; [reflexivity|].
    assert (Hb' : 0 < inject_Z (Z.of_nat (S t'))).
    { change 0 with (inject_Z 0). rewrite <- Zlt_Qlt. lia. }
    split.
    + split.
      * intros H. assert (Hr : Backtester.ratio s (S t') == 1) by (clear - H; lra).
        unfold Backtester.ratio in Hr.
        assert (Heq : inject_Z (Z.of_nat s) == inject_Z (Z.of_nat (S t'))).
        { rewrite <- (Qmult_1_l (inject_Z (Z.of_nat (S t')))), <- Hr. field. lra. }
        pose proof (proj1 (inject_Z_injective _ _) Heq). split; [lia|discriminate].
      * intros [Hf0 _]. assert (s = S t') by lia. subst s.
        unfold Backtester.ratio. field. lra.
    + split.
      * intros H. assert (Hr : Backtester.ratio s (S t') == 0) by (clear - H; lra).
        unfold Backtester.ratio in Hr.
        assert (Heq : inject_Z (Z.of_nat s) == inject_Z 0).
        { change (inject_Z 0) with 0. rewrite <- (Qmult_0_l (inject_Z (Z.of_nat (S t')))), <- Hr.
          field. lra. }
        pose proof (proj1 (inject_Z_injective _ _) Heq). lia.
      * intros ->. unfold Backtester.ratio. cbn. unfold Qdiv. rewrite !Qmult_0_l. reflexivity.
Qed.

(** ** The grid search *)

Lemma hd_error_filter {X : Type} (p : X -> bool) (l : list X) :
  List.hd_error (List.filter p l) = List.find p l.
Proof.
  induction l as [|x l IH]; simpl; [reflexivity|].
  destruct (p x); [reflexivity|exact IH].
Qed.

Lemma sort_desc_head {X : Type} (key : X -> Q) (l : list X) (best : X) :
  List.hd_error (sort_desc key l) = Some best ->
  In best l
  /\ (forall x, In x l -> key x <= key best)
  /\ List.find (fun x => Qeq_bool (key x) (key best)) l = Some best.
Proof.
  intros Hhd.
  destruct (sort_desc key l) as [|b tl] eqn:Hs; [discriminate|].
  cbn in Hhd. inversion Hhd; subst b; clear Hhd.
  assert (Hin : forall x, In x l <-> In x (best :: tl)).
  { intros x. rewrite <- Hs. symmetry. apply sort_desc_In. }
  pose proof (sort_desc_descending key l) as Hd. rewrite Hs in Hd.
  unfold Spec.descending in Hd. inversion Hd as [|? ? Htl Hall]; subst.
  split; [apply Hin; left; reflexivity|]. split.
  - intros x Hx. apply Hin in Hx. destruct Hx as [<-|Hx]; [lra|].
    rewrite Forall_forall in Hall. apply Hall, Hx.
  - rewrite <- hd_error_filter.
    pose proof (sort_desc_withScore key (key best) l) as Hw.
    unfold Spec.withScore in Hw. rewrite <- Hw, Hs. cbn [List.filter].
    assert (E : Qeq_bool (key best) (key best) = true) by (apply Qeq_bool_iff; reflexivity).
    rewrite E. reflexivity.
Qed.

Lemma testThresholds_grid sqrt data ps vs os :
  Backtester.testThresholds sqrt data ps vs os
  = sort_desc rateOf (gridOf sqrt data ps vs os).
Proof. reflexivity. Qed.

Lemma gridOf_In sqrt data ps vs os r :
  In r (gridOf sqrt data ps vs os) <->
  exists p v o,
    In p ps /\ In v vs /\ In o os
    /\ r = {| Backtester.priceThreshold := p;
              Backtester.volumeThreshold := v;
              Backtester.oiThreshold := o;
              Backtester.result := Backtester.runBacktest sqrt data p v o |}.
Proof.
  unfold gridOf. rewrite in_flat_map. split.
  - intros (p & Hp & H). apply in_flat_map in H. destruct H as (v & Hv & H).
    apply in_map_iff in H. destruct H as (o & <- & Ho). exists p, v, o. auto.
  - intros (p & v & o & Hp & Hv & Ho & ->). exists p. split; [exact Hp|].
    apply in_flat_map. exists v. split; [exact Hv|].
    apply in_map_iff. exists o. auto.
Qed.

Lemma flat_map_length_const {X Y : Type} (f : X -> list Y) (l : list X) (n : nat) :
  (forall x, List.length (f x) = n) ->
  List.length (List.flat_map f l) = (List.length l * n)%nat.
Proof.
  intros H. induction l as [|x l IH]; [reflexivity|].
  cbn [List.flat_map List.length]. rewrite length_app, H, IH. reflexivity.
Qed.

Lemma gridOf_length sqrt data ps vs os :
  List.length (gridOf sqrt data ps vs os)
  = (List.length ps * (List.length vs * List.length os))%nat.
Proof.
  unfold gridOf. apply flat_map_length_const. intros p.
  apply flat_map_length_const. intros v. apply length_map.
Qed.

Lemma bestOf_Some sqrt data p ps v vs o os :
  exists best, Backtester.bestOf sqrt data (p :: ps) (v :: vs) (o :: os) = Some best.
Proof.
  unfold Backtester.bestOf.
  destruct (Backtester.testThresholds sqrt data (p :: ps) (v :: vs) (o :: os)) eqn:E.
  - exfalso. exact (grid_nonempty sqrt data p ps v vs o os E).
  - eauto.
Qed.

(** X15. The grid search never fails and returns a best candidate: it
    tries the 120 combinations of the candidate thresholds, and the one
    it returns carries the result of the pass at its own thresholds,
    has a success rate that no combination exceeds, and is the first
    of that success rate in the order in which the combinations are
    tried.  [generateReport] reports this combination and the number of
    samples of the corpus. *)
Theorem optimizer_returns_first_best (sqrt : Q -> Q) (data : list Backtester.dataPoint) :
  let grid :=
    gridOf sqrt data Backtester.priceCandidates Backtester.volumeCandidates
      Backtester.oiCandidates in
  exists best,
    Backtester.findOptimalThresholds sqrt data = Some best
    /\ List.length grid = 120%nat
    /\ In (Backtester.priceThreshold best) Backtester.priceCandidates
    /\ In (Backtester.volumeThreshold best) Backtester.volumeCandidates
    /\ In (Backtester.oiThreshold best) Backtester.oiCandidates
    /\ Backtester.result best
       = Backtester.runBacktest sqrt data (Backtester.priceThreshold best)
           (Backtester.volumeThreshold best) (Backtester.oiThreshold best)
    /\ (forall p v o,
          In p Backtester.priceCandidates -> In v Backtester.volumeCandidates ->
          In o Backtester.oiCandidates ->
          Backtester.successRate (Backtester.runBacktest sqrt data p v o)
          <= rateOf best)
    /\ List.find (fun r => Qeq_bool (rateOf r) (rateOf best)) grid = Some best
    /\ Backtester.generateReport sqrt data
       = Some {| Backtester.optimalPrice := Backtester.priceThreshold best;
                 Backtester.optimalVolume := Backtester.volumeThreshold best;
                 Backtester.optimalOpenInterest := Backtester.oiThreshold best;
                 Backtester.performance := Backtester.result best;
                 Backtester.dataPoints := List.length data;
                 Backtester.recommendation := Backtester.generateRecommendation best |}.
Proof.
  intros grid.
  destruct (bestOf_Some sqrt data (1 # 2) [1; 3 # 2; 2; 5 # 2; 3]
              (1 # 2) [1; 3 # 2; 2; 5 # 2] (3 # 10) [1 # 2; 7 # 10; 1]) as (best & Hbest).
  change (Backtester.findOptimalThresholds sqrt data = Some best) in Hbest.
  exists best. split; [exact Hbest|]. split; [apply gridOf_length|].
  unfold Backtester.findOptimalThresholds, Backtester.bestOf in Hbest.
  rewrite testThresholds_grid in Hbest. fold grid in Hbest.
  destruct (sort_desc_head rateOf grid best Hbest) as (Hin & Hmax & Hfirst).
  apply gridOf_In in Hin. destruct Hin as (p & v & o & Hp & Hv & Ho & Heq).
  split; [rewrite Heq; exact Hp|]. split; [rewrite Heq; exact Hv|].
  split; [rewrite Heq; exact Ho|]. split; [rewrite Heq; reflexivity|].
  split.
  - intros p' v' o' Hp' Hv' Ho'.
    apply (Hmax {| Backtester.priceThreshold := p';
                   Backtester.volumeThreshold := v';
                   Backtester.oiThreshold := o';
                   Backtester.result := Backtester.runBacktest sqrt data p' v' o' |}).
    apply gridOf_In. exists p', v', o'. auto.
  - split; [exact Hfirst|].
    unfold Backtester.generateReport, Backtester.findOptimalThresholds, Backtester.bestOf.
    rewrite testThresholds_grid. fold grid. rewrite Hbest. reflexivity.
Qed.

(** ** The analysis run *)

Lemma generateReport_Some sqrt data :
  exists best,
    Backtester.findOptimalThresholds sqrt data = Some best
    /\ In best (gridOf sqrt data Backtester.priceCandidates Backtester.volumeCandidates
                  Backtester.oiCandidates)
    /\ Backtester.generateReport sqrt data
       = Some {| Backtester.optimalPrice := Backtester.priceThreshold best;
                 Backtester.optimalVolume := Backtester.volumeThreshold best;
                 Backtester.optimalOpenInterest := Backtester.oiThreshold best;
                 Backtester.performance := Backtester.result best;
                 Backtester.dataPoints := List.length data;
                 Backtester.recommendation := Backtester.generateRecommendation best |}.
Proof.
  destruct (bestOf_Some sqrt data (1 # 2) [1; 3 # 2; 2; 5 # 2; 3]
              (1 # 2) [1; 3 # 2; 2; 5 # 2] (3 # 10) [1 # 2; 7 # 10; 1]) as (best & Hbest).
  change (Backtester.findOptimalThresholds sqrt data = Some best) in Hbest.
  exists best. split; [exact Hbest|]. split.
  - unfold Backtester.findOptimalThresholds, Backtester.bestOf in Hbest.
    rewrite testThresholds_grid in Hbest.
    exact (proj1 (sort_desc_head rateOf _ best Hbest)).
  - unfold Backtester.generateReport. rewrite Hbest. reflexivity.
Qed.

Lemma recommendation_poor (best : Backtester.gridResult) :
  Backtester.generateRecommendation best = poorText
  <-> Qle_bool 30 (Backtester.successRate (Backtester.result best)) = false.
Proof.
  unfold Backtester.generateRecommendation. cbv zeta.
  destruct (Qle_bool 70 _) eqn:E70.
  - split; [discriminate|]. intros E30. apply Qle_bool_iff in E70.
    apply Qle_bool_gt in E30. lra.
  - destruct (Qle_bool 50 _) eqn:E50.
    + split; [discriminate|]. intros E30. apply Qle_bool_iff in E50.
      apply Qle_bool_gt in E30. lra.
    + destruct (Qle_bool 30 _) eqn:E30.
      * split; discriminate.
      * split; reflexivity.
Qed.

Lemma candidates_positive p v o :
  In p Backtester.priceCandidates -> In v Backtester.volumeCandidates ->
  In o Backtester.oiCandidates -> 0 < p /\ 0 < v /\ 0 < o.
Proof.
  intros Hp Hv Ho. repeat split.
  - repeat (destruct Hp as [<-|Hp]; [reflexivity|]). destruct Hp.
  - repeat (destruct Hv as [<-|Hv]; [reflexivity|]). destruct Hv.
  - repeat (destruct Ho as [<-|Ho]; [reflexivity|]). destruct Ho.
Qed.

(** X16. [runBacktestingAnalysis] always returns a report, and it only
    ever changes the three weights of the monitor: the score threshold
    and the window stay as they were.  The weights become the reported
    optimum, three of the candidate values, exactly when the
    recommendation is not the one of the poor band, that is when the
    success rate is 30 or more; otherwise, and on an empty corpus, the
    thresholds stay as they were.  Weights that were not negative are
    not negative afterwards. *)
Theorem analysis_updates_weights_only (sqrt : Q -> Q) (th : Monitor.thresholds)
    (historicalDataPoints collected : list Runner.historicalDataPoint) :
  exists rep th',
    Runner.runBacktestingAnalysis sqrt th historicalDataPoints collected = Some (rep, th')
    /\ Backtester.generateReport sqrt (Runner.loadData historicalDataPoints collected)
       = Some rep
    /\ Monitor.anomalyScoreThreshold th' = Monitor.anomalyScoreThreshold th
    /\ Monitor.minTimeToExpiry th' = Monitor.minTimeToExpiry th
    /\ Monitor.maxTimeToExpiry th' = Monitor.maxTimeToExpiry th
    /\ (Backtester.recommendation rep = poorText <->
        Backtester.successRate (Backtester.performance rep) < 30)
    /\ (Backtester.recommendation rep = poorText -> th' = th)
    /\ (Backtester.recommendation rep <> poorText ->
        Monitor.priceWeight th' = Backtester.optimalPrice rep
        /\ Monitor.volumeWeight th' = Backtester.optimalVolume rep
        /\ Monitor.oiWeight th' = Backtester.optimalOpenInterest rep
        /\ In (Monitor.priceWeight th') Backtester.priceCandidates
        /\ In (Monitor.volumeWeight th') Backtester.volumeCandidates
        /\ In (Monitor.oiWeight th') Backtester.oiCandidates)
    /\ (0 <= Monitor.priceWeight th -> 0 <= Monitor.volumeWeight th ->
        0 <= Monitor.oiWeight th ->
        0 <= Monitor.priceWeight th' /\ 0 <= Monitor.volumeWeight th'
        /\ 0 <= Monitor.oiWeight th')
    /\ (Runner.loadData historicalDataPoints collected = [] -> th' = th).
Proof.
  set (data := Runner.loadData historicalDataPoints collected).
  destruct (generateReport_Some sqrt data) as (best & Hbest & Hin & Hrep).
  apply gridOf_In in Hin. destruct Hin as (p & v & o & Hp & Hv & Ho & Heq).
  destruct (candidates_positive p v o Hp Hv Ho) as (Hp0 & Hv0 & Ho0).
  pose proof (recommendation_poor best) as Hpoor.
  eexists _, _. unfold Runner.runBacktestingAnalysis. fold data. rewrite Hrep.
  split; [reflexivity|]. split; [reflexivity|].
  cbn [Backtester.performance Backtester.recommendation Backtester.optimalPrice
       Backtester.optimalVolume Backtester.optimalOpenInterest].
  destruct (Qle_bool 30 (Backtester.successRate (Backtester.result best))) eqn:E30.
  - assert (Hnot : Backtester.generateRecommendation best <> poorText).
    { intros H. apply Hpoor in H. discriminate. }
    apply Qle_bool_iff in E30.
    split; [reflexivity|]. split; [reflexivity|]. split; [reflexivity|].
    split; [split; [intros H; contradiction|intros H; lra]|].
    split; [intros H; contradiction|].
    split.
    { intros _. rewrite Heq. cbn. auto 10. }
    split.
    { intros _ _ _. rewrite Heq. cbn. repeat split; lra. }
    intros Hnil.
    exfalso. subst best. cbn in E30. rewrite Hnil in E30. cbn in E30. lra.
  - assert (Hp' : Backtester.generateRecommendation best = poorText)
      by (apply Hpoor; reflexivity).
    apply Qle_bool_gt in E30.
    split; [reflexivity|]. split; [reflexivity|]. split; [reflexivity|].
    split; [split; [intros _; exact E30|intros _; exact Hp']|].
    split; [reflexivity|].
    split; [intros H; contradiction|].
    split; [intros H1 H2 H3; auto|]. reflexivity.
Qed.

(** ** The historical analysis *)

Lemma historical_groups_live (currentTime : Z) (options : list Monitor.bookSummary) :
  fold_left (Historical.groupOption currentTime) options []
  = Monitor.groupByExpiry Monitor.OPTIMAL_THRESHOLDS currentTime options.
Proof. reflexivity. Qed.

Lemma historical_stats_live (sqrt : Q -> Q) (currentTime : Z)
    (options : list Monitor.bookSummary) :
  Historical.calculateStats sqrt options currentTime
  = Monitor.calculateAdvancedStats sqrt Monitor.OPTIMAL_THRESHOLDS currentTime options.
Proof. reflexivity. Qed.

Lemma historical_scoreOption_live (now : Z) (expiry : string) (st : Monitor.stats)
    (opt : Monitor.groupedOption) :
  match Historical.scoreOption expiry st opt,
        Monitor.scoreOption Monitor.OPTIMAL_THRESHOLDS now expiry st opt with
  | Some h, Some l =>
      sameFinding h l
      /\ Historical.Alert.anomalyScore h = Monitor.scoreOf Monitor.OPTIMAL_THRESHOLDS st opt
  | None, None => True
  | _, _ => False
  end.
Proof.
  unfold Historical.scoreOption, Monitor.scoreOption.
  destruct (Qle_bool (Monitor.markPriceOf opt) 0); [exact I|].
  change (Monitor.anomalyScoreThreshold Monitor.OPTIMAL_THRESHOLDS) with 5.
  cbv zeta.
  match goal with
  | |- context [if Qle_bool 5 ?s then Some _ else None] =>
      change (Monitor.weightedScore Monitor.OPTIMAL_THRESHOLDS
                (Monitor.priceZScore st opt) (Monitor.volumeZScore st opt)
                (Monitor.oiZScore st opt)
                (Monitor.timeDecayFactor Monitor.OPTIMAL_THRESHOLDS opt)) with s;
      destruct (Qle_bool 5 s)
  end; [|exact I].
  split; [repeat split|reflexivity].
Qed.

Lemma Forall2_flat_map {X Y Z : Type} (R : Y -> Z -> Prop)
    (f : X -> list Y) (g : X -> list Z) (l : list X) :
  (forall x, In x l -> Forall2 R (f x) (g x)) ->
  Forall2 R (List.flat_map f l) (List.flat_map g l).
Proof.
  induction l as [|x l IH]; intros H; simpl; [constructor|].
  apply Forall2_app; [apply H; left; reflexivity|].
  apply IH. intros y Hy. apply H. right. exact Hy.
Qed.

Lemma historical_pushed_live (now : Z)
    (groups : list (string * list Monitor.groupedOption))
    (stats : gmap string Monitor.stats) :
  Forall2 sameFinding (Historical.pushedAlerts groups stats)
    (Monitor.pushedAlerts Monitor.OPTIMAL_THRESHOLDS now groups stats).
Proof.
  unfold Historical.pushedAlerts, Monitor.pushedAlerts.
  apply Forall2_flat_map. intros [key cohort] _.
  unfold Monitor.groupAlerts. cbn [fst snd].
  destruct (stats !! key) as [st|]; [|constructor].
  apply Forall2_flat_map. intros opt _.
  pose proof (historical_scoreOption_live now key st opt) as H.
  destruct (Historical.scoreOption key st opt) as [h|],
           (Monitor.scoreOption Monitor.OPTIMAL_THRESHOLDS now key st opt) as [l|];
    try contradiction; [|constructor].
  constructor; [exact (proj1 H)|constructor].
Qed.

Lemma Forall2_map_eq {Y Z K : Type} (R : Y -> Z -> Prop) (f : Y -> K) (g : Z -> K)
    (l : list Y) (l' : list Z) :
  (forall y z, R y z -> f y = g z) -> Forall2 R l l' -> List.map f l = List.map g l'.
Proof.
  intros H HF. induction HF; simpl; [reflexivity|].
  f_equal; [apply H; assumption|assumption].
Qed.

Lemma keyed_groups_count {A : Type} (groups : list (string * list A))
    (keyed : list (string * A)) :
  groupsOfKeyed groups keyed ->
  List.length groups
  = List.length (List.nodup String.string_dec (List.map fst keyed)).
Proof.
  intros [Hnd Hin]. rewrite <- (length_map fst groups).
  apply Permutation_length, Stdlib.Sorting.Permutation.NoDup_Permutation;
    [exact Hnd|apply NoDup_nodup|].
  intros k. rewrite nodup_In, !in_map_iff. split.
  - intros ([k' xs] & <- & Hg). cbn [fst]. apply Hin in Hg. destruct Hg as [Hne ->].
    unfold membersOf in Hne.
    destruct (List.filter (fun kv => String.eqb (fst kv) k') keyed) as [|kv rest] eqn:E;
      [contradiction Hne; reflexivity|].
    assert (Hkv : In kv (List.filter (fun kv => String.eqb (fst kv) k') keyed))
      by (rewrite E; left; reflexivity).
    apply filter_In in Hkv. destruct Hkv as [Hkv Heq].
    apply String.eqb_eq in Heq. exists kv. split; assumption.
  - intros (kv & <- & Hkv). exists (fst kv, membersOf (fst kv) keyed).
    split; [reflexivity|]. apply Hin. split; [|reflexivity].
    unfold membersOf. intros Hnil. apply map_eq_nil in Hnil.
    assert (Hf : In kv (List.filter (fun kv' => String.eqb (fst kv') (fst kv)) keyed)).
    { apply filter_In. split; [exact Hkv|apply String.eqb_refl]. }
    rewrite Hnil in Hf. destruct Hf.
Qed.

Lemma filter_disjoint_length {A : Type} (p q : A -> bool) (l : list A) :
  (forall a, In a l -> p a = true -> q a = false) ->
  (List.length (List.filter p l) + List.length (List.filter q l) <= List.length l)%nat.
Proof.
  induction l as [|x l IH]; intros H; simpl; [lia|].
  assert (IH' := IH (fun a Ha => H a (or_intror Ha))).
  destruct (p x) eqn:Hp.
  - rewrite (H x (or_introl eq_refl) Hp). simpl. lia.
  - destruct (q x); simpl; lia.
Qed.

Lemma endsWith_call_not_put (name : JSString.t) :
  JSString.endsWith name (JSString.lit "-C") = true ->
  JSString.endsWith name (JSString.lit "-P") = false.
Proof.
  unfold JSString.endsWith.
  change (JSString.lit "-C") with [45%Z; 67%Z].
  change (JSString.lit "-P") with [45%Z; 80%Z].
  cbn [List.length].
  destruct (2 <=? List.length name)%nat; [|discriminate]. cbn [andb].
  unfold JSString.eqb.
  destruct (list_eq_dec Z.eq_dec (List.skipn (List.length name - 2) name) [45%Z; 67%Z])
    as [->|]; [|discriminate].
  intros _. destruct (list_eq_dec Z.eq_dec [45%Z; 67%Z] [45%Z; 80%Z]); [discriminate|reflexivity].
Qed.

Lemma historical_alert_side (groups : list (string * list Monitor.groupedOption))
    (stats : gmap string Monitor.stats) (a : Historical.Alert.t) :
  In a (Historical.detectAlerts groups stats) ->
  Historical.Alert.isCall a
  = JSString.endsWith (Historical.Alert.symbol a) (JSString.lit "-C")
  /\ Historical.Alert.isPut a
     = JSString.endsWith (Historical.Alert.symbol a) (JSString.lit "-P")
  /\ Historical.Alert.direction a
     = (if Historical.Alert.isCall a then Historical.UP
        else if Historical.Alert.isPut a then Historical.DOWN
        else Historical.UNKNOWN)
  /\ 5 <= Historical.Alert.anomalyScore a.
Proof.
  unfold Historical.detectAlerts, Historical.pushedAlerts.
  rewrite sort_desc_In, in_flat_map. intros ([key cohort] & _ & Ha). cbn [fst snd] in Ha.
  destruct (stats !! key) as [st|]; [|destruct Ha].
  apply flat_map_option_In in Ha. destruct Ha as (opt & _ & Hs).
  unfold Historical.scoreOption in Hs.
  destruct (Qle_bool (Monitor.markPriceOf opt) 0); [discriminate|].
  cbv zeta in Hs.
  match type of Hs with
  | (if Qle_bool 5 ?s then _ else _) = _ => destruct (Qle_bool 5 s) eqn:Hscore
  end; [|discriminate].
  apply Qle_bool_iff in Hscore.
  inversion Hs; subst; cbn. repeat split. exact Hscore.
Qed.

(** X17. The historical analysis is the live monitor at its initial
    thresholds, ranked by the score itself.  [calculateStats] returns
    the groups and the statistics of [calculateAdvancedStats] under
    [OPTIMAL_THRESHOLDS] as the module declares them; [detectAlerts]
    pushes an alert for the same quotes, in the same order, as
    [detectHighProbabilityAlerts], and the numbers of the live alert are
    those of the historical one as [toFixed] prints them.  The list
    returned holds the pushed alerts in descending order of the
    composite score, alerts of one score in the order pushed, so that
    the two analyses find the same symbols, and as many.  On [tieBook]
    the order differs: the historical analysis returns the quote of the
    higher composite score first. *)
Theorem historical_analysis_agrees_with_live (sqrt : Q -> Q) (currentTime now : Z)
    (options : list Monitor.bookSummary) :
  let th := Monitor.OPTIMAL_THRESHOLDS in
  let groups := fst (Historical.calculateStats sqrt options currentTime) in
  let stats := snd (Historical.calculateStats sqrt options currentTime) in
  let pushed := Historical.pushedAlerts groups stats in
  let found := Historical.detectAlerts groups stats in
  let live := Monitor.evaluateSnapshot sqrt th currentTime now options in
  Historical.calculateStats sqrt options currentTime
  = Monitor.calculateAdvancedStats sqrt th currentTime options
  /\ Forall2 sameFinding pushed (Monitor.pushedAlerts th now groups stats)
  /\ Permutation found pushed
  /\ Spec.descending Historical.Alert.anomalyScore found
  /\ (forall s, Spec.withScore Historical.Alert.anomalyScore s found
                = Spec.withScore Historical.Alert.anomalyScore s pushed)
  /\ Permutation (List.map Historical.Alert.symbol found)
       (List.map Monitor.Alert.symbol live)
  /\ List.length found = List.length live
  /\ (let '(tieGroups, tieStats) :=
        Historical.calculateStats sqrt_floor tieBook demoNow in
      List.map Historical.Alert.symbol (Historical.detectAlerts tieGroups tieStats)
      = [JSString.lit "ETH-7NOV25-3100-C"; JSString.lit "ETH-7NOV25-3000-C"]).
Proof.
  cbv zeta.
  assert (Hstats := historical_stats_live sqrt currentTime options).
  set (groups := fst (Historical.calculateStats sqrt options currentTime)).
  set (stats := snd (Historical.calculateStats sqrt options currentTime)).
  assert (Hpushed := historical_pushed_live now groups stats).
  assert (Hsym :
    Permutation (List.map Historical.Alert.symbol (Historical.detectAlerts groups stats))
      (List.map Monitor.Alert.symbol
         (Monitor.evaluateSnapshot sqrt Monitor.OPTIMAL_THRESHOLDS currentTime now options))).
  { unfold Monitor.evaluateSnapshot. rewrite <- Hstats.
    rewrite (surjective_pairing (Historical.calculateStats sqrt options currentTime)).
    fold groups stats.
    unfold Historical.detectAlerts, Monitor.detectHighProbabilityAlerts.
    rewrite (Permutation_map _ (sort_desc_Permutation _ _)).
    rewrite (Permutation_map Monitor.Alert.symbol (sort_desc_Permutation _ _)).
    rewrite (Forall2_map_eq sameFinding Historical.Alert.symbol Monitor.Alert.symbol
               _ _ (fun h l H => proj1 H) Hpushed).
    reflexivity. }
  split; [exact Hstats|]. split; [exact Hpushed|].
  split; [apply sort_desc_Permutation|].
  split; [apply sort_desc_descending|].
  split; [intros s; apply sort_desc_withScore|].
  split; [exact Hsym|].
  split; [|vm_compute; reflexivity].
  rewrite <- (length_map Historical.Alert.symbol), <- (length_map Monitor.Alert.symbol).
  apply Permutation_length, Hsym.
Qed.

Lemma historical_groups_keyed (alerts : list Historical.Alert.t) :
  groupsOfKeyed
    (fold_left (fun groups alert => pushGroup (Historical.Alert.expiryDate alert) alert groups)
       alerts [])
    (List.map (fun a => (Historical.Alert.expiryDate a, a)) alerts).
Proof.
  rewrite <- filterMap_total. apply fold_groups. reflexivity.
Qed.

(** X18. The estimate that [runHistoricalAnalysis] returns is
    consistent.  [uniqueExpiries] is the number of different cohort keys
    among the alerts found, hence at most [currentAlerts], and 0 only
    when there is no alert; [estimatedEmailsPerMonth] is 120 times
    [uniqueExpiries], four mails a day for each cohort over 30 days,
    whatever the cooldown configured; no alert counts both as a bullish
    and as a bearish signal, so the two together are at most
    [currentAlerts], which is at most the number of quotes fetched. *)
Theorem historical_estimate_consistent (sqrt : Q -> Q) (currentTime : Z)
    (options : list Monitor.bookSummary) :
  let r := Historical.runHistoricalAnalysis sqrt currentTime options in
  let groups := fst (Historical.calculateStats sqrt options currentTime) in
  let stats := snd (Historical.calculateStats sqrt options currentTime) in
  let found := Historical.detectAlerts groups stats in
  Historical.currentAlerts r = List.length found
  /\ Historical.uniqueExpiries r
     = List.length (List.nodup String.string_dec
                      (List.map Historical.Alert.expiryDate found))
  /\ (Historical.uniqueExpiries r <= Historical.currentAlerts r)%nat
  /\ (Historical.uniqueExpiries r = O <-> Historical.currentAlerts r = O)
  /\ Historical.estimatedEmailsPerMonth r = (120 * Historical.uniqueExpiries r)%nat
  /\ Historical.bullishSignals r
     = List.length
         (List.filter (fun a => JSString.endsWith (Historical.Alert.symbol a)
                                  (JSString.lit "-C")) found)
  /\ Historical.bearishSignals r
     = List.length
         (List.filter (fun a => JSString.endsWith (Historical.Alert.symbol a)
                                  (JSString.lit "-P")) found)
  /\ (Historical.bullishSignals r + Historical.bearishSignals r
      <= Historical.currentAlerts r)%nat
  /\ (Historical.currentAlerts r <= List.length options)%nat.
Proof.
  cbv zeta. unfold Historical.runHistoricalAnalysis.
  rewrite (surjective_pairing (Historical.calculateStats sqrt options currentTime)).
  set (groups := fst (Historical.calculateStats sqrt options currentTime)).
  set (stats := snd (Historical.calculateStats sqrt options currentTime)).
  set (found := Historical.detectAlerts groups stats).
  cbn [Historical.currentAlerts Historical.uniqueExpiries Historical.bullishSignals
       Historical.bearishSignals Historical.estimatedEmailsPerMonth].
  assert (Hcount := keyed_groups_count _ _ (historical_groups_keyed found)).
  rewrite map_map in Hcount. cbn [fst] in Hcount.
  assert (Hside : forall a, In a found ->
            Historical.Alert.isCall a
            = JSString.endsWith (Historical.Alert.symbol a) (JSString.lit "-C")
            /\ Historical.Alert.isPut a
               = JSString.endsWith (Historical.Alert.symbol a) (JSString.lit "-P")).
  { intros a Ha. destruct (historical_alert_side groups stats a Ha) as (H1 & H2 & _).
    split; assumption. }
  assert (Hle : (List.length (List.nodup String.string_dec
                                (List.map Historical.Alert.expiryDate found))
                 <= List.length found)%nat).
  { rewrite <- (length_map Historical.Alert.expiryDate found).
    apply NoDup_incl_length; [apply NoDup_nodup|].
    intros k Hk. apply nodup_In in Hk. exact Hk. }
  split; [reflexivity|]. split; [exact Hcount|].
  split; [rewrite Hcount; exact Hle|].
  split.
  { rewrite Hcount. split.
    - destruct found as [|a rest]; [reflexivity|]. intros H0. exfalso.
      assert (Hin : In (Historical.Alert.expiryDate a)
                      (List.nodup String.string_dec
                         (List.map Historical.Alert.expiryDate (a :: rest))))
        by (apply nodup_In; left; reflexivity).
      destruct (List.nodup String.string_dec _); [destruct Hin|discriminate].
    - intros H0. apply length_zero_iff_nil in H0. rewrite H0. reflexivity. }
  split; [lia|].
  split; [f_equal; apply filter_ext_in; intros a Ha; apply (Hside a Ha)|].
  split; [f_equal; apply filter_ext_in; intros a Ha; apply (Hside a Ha)|].
  split.
  - apply filter_disjoint_length. intros a Ha Hc.
    destruct (Hside a Ha) as [H1 H2]. rewrite H2. apply endsWith_call_not_put.
    rewrite <- H1. exact Hc.
  - unfold found, groups, stats.
    rewrite (historical_stats_live sqrt currentTime options).
    cbn [fst snd Monitor.calculateAdvancedStats].
    unfold Historical.detectAlerts.
    rewrite (Permutation_length (sort_desc_Permutation _ _)).
    rewrite (Forall2_length (historical_pushed_live 0 _ _)).
    etransitivity; [|apply (live_groups_total Monitor.OPTIMAL_THRESHOLDS currentTime)].
    rewrite <- (Permutation_length (sort_desc_Permutation Monitor.Alert.anomalyScore _)).
    apply live_alerts_length.
Qed.

(** ** The basic monitor and its mail *)

Lemma JSString_eqb_eq (a b : JSString.t) : JSString.eqb a b = true <-> a = b.
Proof.
  unfold JSString.eqb. destruct (list_eq_dec Z.eq_dec a b); split; congruence.
Qed.

Lemma JSString_eqb_refl (a : JSString.t) : JSString.eqb a a = true.
Proof. apply JSString_eqb_eq. reflexivity. Qed.

Lemma pushKeyed_keys {A : Type} (key : JSString.t) (x : A)
    (groups : list (JSString.t * list A)) (k : JSString.t) :
  In k (List.map fst (BasicMonitor.pushKeyed key x groups))
  <-> k = key \/ In k (List.map fst groups).
Proof.
  induction groups as [|[k0 xs0] rest IH]; simpl.
  - intuition.
  - destruct (JSString.eqb k0 key) eqn:E; simpl.
    + apply JSString_eqb_eq in E. subst. intuition.
    + rewrite IH. intuition.
Qed.

Lemma pushKeyed_NoDup {A : Type} (key : JSString.t) (x : A)
    (groups : list (JSString.t * list A)) :
  NoDup (List.map fst groups) ->
  NoDup (List.map fst (BasicMonitor.pushKeyed key x groups)).
Proof.
  induction groups as [|[k0 xs0] rest IH]; simpl; intros Hnd.
  - constructor; [intros []|constructor].
  - inversion Hnd as [|? ? Hnotin Hrest]; subst.
    destruct (JSString.eqb k0 key) eqn:E; simpl.
    + constructor; assumption.
    + constructor; [|apply IH, Hrest].
      rewrite pushKeyed_keys. intros [->|Hin]; [|exact (Hnotin Hin)].
      rewrite JSString_eqb_refl in E. discriminate.
Qed.

Lemma pushKeyed_groupUnder {A : Type} (key : JSString.t) (x : A)
    (groups : list (JSString.t * list A)) (k : JSString.t) :
  groupUnder k (BasicMonitor.pushKeyed key x groups)
  = if JSString.eqb key k then List.app (groupUnder k groups) [x]
    else groupUnder k groups.
Proof.
  unfold groupUnder.
  induction groups as [|[k0 xs0] rest IH]; simpl.
  - destruct (JSString.eqb key k); reflexivity.
  - destruct (JSString.eqb k0 key) eqn:E; simpl.
    + apply JSString_eqb_eq in E. subst k0.
      destruct (JSString.eqb key k); reflexivity.
    + destruct (JSString.eqb k0 k) eqn:E'; simpl; [|exact IH].
      apply JSString_eqb_eq in E'. subst k0.
      destruct (JSString.eqb key k) eqn:E2; [|reflexivity].
      apply JSString_eqb_eq in E2. subst key.
      rewrite JSString_eqb_refl in E. discriminate.
Qed.

Lemma basic_groups_fold (options : list Monitor.bookSummary) :
  forall groups0 groups,
    fold_left BasicMonitor.groupOption options (Some groups0) = Some groups ->
    (NoDup (List.map fst groups0) -> NoDup (List.map fst groups))
    /\ (forall k, groupUnder k groups
                  = List.app (groupUnder k groups0) (segmentCohort k options))
    /\ (forall opt, In opt options ->
          BasicMonitor.inherited
            (BasicMonitor.parseExpiryDate (Monitor.instrument_name opt)) = false).
Proof.
  assert (Hnone : forall l, fold_left BasicMonitor.groupOption l None = None)
    by (induction l as [|x l IH]; simpl; [reflexivity|exact IH]).
  induction options as [|opt options IH]; simpl; intros groups0 groups H.
  - inversion H; subst. split; [auto|]. split; [|intros ? []].
    intros k. rewrite app_nil_r. reflexivity.
  - destruct (BasicMonitor.inherited _) eqn:Hinh; [rewrite Hnone in H; discriminate|].
    destruct (IH _ _ H) as (Hnd & Hg & Hok). split; [|split].
    + intros H0. apply Hnd, pushKeyed_NoDup, H0.
    + intros k. rewrite Hg, pushKeyed_groupUnder.
      destruct (JSString.eqb _ k); simpl; [rewrite <- app_assoc|]; reflexivity.
    + intros o [<-|Ho]; [exact Hinh|apply Hok, Ho].
Qed.

Lemma basic_groups_throw (options : list Monitor.bookSummary) :
  forall groups0,
    fold_left BasicMonitor.groupOption options (Some groups0) = None <->
    exists opt, In opt options
                /\ BasicMonitor.inherited
                     (BasicMonitor.parseExpiryDate (Monitor.instrument_name opt)) = true.
Proof.
  assert (Hnone : forall l, fold_left BasicMonitor.groupOption l None = None)
    by (induction l as [|x l IH]; simpl; [reflexivity|exact IH]).
  induction options as [|opt options IH]; simpl; intros groups0.
  - split; [discriminate|intros (o & [] & _)].
  - destruct (BasicMonitor.inherited _) eqn:Hinh.
    + rewrite Hnone. split; [|reflexivity]. intros _. exists opt. auto.
    + rewrite IH. split.
      * intros (o & Ho & H). exists o. auto.
      * intros (o & [<-|Ho] & H); [congruence|]. exists o. auto.
Qed.

Lemma basic_stats_absent {A S : Type} (f : list A -> option S)
    (groups : list (JSString.t * list A)) (key : JSString.t) :
  ~ In key (List.map fst groups) ->
  forall m : gmap (list Z) S,
    fold_left (fun acc (entry : JSString.t * list A) =>
                 match f (snd entry) with
                 | Some s => <[fst entry := s]> acc
                 | None => acc
                 end) groups m !! key = m !! key.
Proof.
  induction groups as [|[k c] rest IH]; simpl; intros Hno m; [reflexivity|].
  rewrite IH by (intros H; apply Hno; right; exact H).
  destruct (f c); [|reflexivity].
  apply lookup_insert_ne. intros ->. apply Hno. left. reflexivity.
Qed.

Lemma basic_stats_of_groups {A S : Type} (f : list A -> option S)
    (groups : list (JSString.t * list A)) (key : JSString.t) :
  f [] = None -> NoDup (List.map fst groups) ->
  fold_left (fun acc (entry : JSString.t * list A) =>
               match f (snd entry) with
               | Some s => <[fst entry := s]> acc
               | None => acc
               end) groups (∅ : gmap (list Z) S) !! key
  = f (groupUnder key groups).
Proof.
  intros Hnil.
  assert (Hgen : forall m : gmap (list Z) S,
    NoDup (List.map fst groups) ->
    fold_left (fun acc (entry : JSString.t * list A) =>
                 match f (snd entry) with
                 | Some s => <[fst entry := s]> acc
                 | None => acc
                 end) groups m !! key
    = match List.find (fun entry => JSString.eqb (fst entry) key) groups with
      | Some entry => match f (snd entry) with Some s => Some s | None => m !! key end
      | None => m !! key
      end).
  { induction groups as [|[k c] rest IH]; simpl; intros m Hnd; [reflexivity|].
    inversion Hnd as [|? ? Hnotin Hrest]; subst.
    destruct (JSString.eqb k key) eqn:E.
    - apply JSString_eqb_eq in E. subst k. cbn [fst snd].
      rewrite basic_stats_absent by exact Hnotin.
      destruct (f c); [apply lookup_insert_eq|reflexivity].
    - rewrite (IH _ Hrest). cbn [fst snd].
      assert (Hne : k <> key) by (intros ->; rewrite JSString_eqb_refl in E; discriminate).
      destruct (f c); [|reflexivity].
      rewrite lookup_insert_ne by exact Hne. reflexivity. }
  intros Hnd. rewrite (Hgen ∅ Hnd). unfold groupUnder.
  destruct (List.find _ groups) as [entry|].
  - destruct (f (snd entry)); [reflexivity|apply lookup_empty].
  - rewrite Hnil. apply lookup_empty.
Qed.

Lemma basic_cohortStats_Some (opts : list Monitor.bookSummary) (st : BasicMonitor.stats) :
  BasicMonitor.cohortStats opts = Some st ->
  0 < BasicMonitor.avgPrice st /\ 0 < BasicMonitor.avgVolume st
  /\ BasicMonitor.avgPrice st = average (valid Monitor.mark_price opts)
  /\ BasicMonitor.avgVolume st = average (valid Monitor.volume_usd opts)
  /\ BasicMonitor.count st = List.length opts.
Proof.
  unfold BasicMonitor.cohortStats.
  pose proof (valid_positive Monitor.mark_price opts) as Hp.
  pose proof (valid_positive Monitor.volume_usd opts) as Hv.
  destruct (valid Monitor.mark_price opts) as [|p ps]; [discriminate|].
  destruct (valid Monitor.volume_usd opts) as [|v vs]; [discriminate|].
  intros H. inversion H; subst; cbn [BasicMonitor.avgPrice BasicMonitor.avgVolume
                                      BasicMonitor.count].
  split; [apply (average_positive (p :: ps)); [discriminate|exact Hp]|].
  split; [apply (average_positive (v :: vs)); [discriminate|exact Hv]|].
  repeat split.
Qed.

Lemma basic_cohortStats_None (opts : list Monitor.bookSummary) :
  BasicMonitor.cohortStats opts = None <->
  (forall o, In o opts -> Monitor.mark_price o <= 0)
  \/ (forall o, In o opts -> Monitor.volume_usd o <= 0).
Proof.
  unfold BasicMonitor.cohortStats. split.
  - intros H.
    destruct (valid Monitor.mark_price opts) as [|p ps] eqn:Ep.
    + left. intros o Ho. apply Qnot_lt_le. intros Hpos.
      pose proof (valid_member Monitor.mark_price opts o Ho Hpos) as Hin.
      rewrite Ep in Hin. destruct Hin.
    + destruct (valid Monitor.volume_usd opts) as [|v vs] eqn:Ev; [|discriminate].
      right. intros o Ho. apply Qnot_lt_le. intros Hpos.
      pose proof (valid_member Monitor.volume_usd opts o Ho Hpos) as Hin.
      rewrite Ev in Hin. destruct Hin.
  - intros [H|H]; rewrite (valid_nil _ _ H); [reflexivity|].
    destruct (valid Monitor.mark_price opts); reflexivity.
Qed.

(** X19. What the basic monitor computes for a snapshot.
    [calculateExpiryStats] throws exactly when the second segment of
    some symbol is a property name that an object inherits, such as
    [constructor]: the check then ends in its [catch] block.  Otherwise
    the group under a key holds the quotes whose second segment is the
    key, in order; the statistics under the key are those of these
    quotes; an entry is there unless no quote of the group has a
    positive mark price or none has a positive volume; and the averages
    of an entry are positive, so that the ratios that
    [detectIrregularities] forms are quotients of numbers. *)
Theorem basic_stats_by_segment (options : list Monitor.bookSummary) :
  (BasicMonitor.calculateExpiryStats options = None <->
   exists opt,
     In opt options
     /\ BasicMonitor.inherited
          (BasicMonitor.parseExpiryDate (Monitor.instrument_name opt)) = true)
  /\ (forall expiryGroups expiryStats,
        BasicMonitor.calculateExpiryStats options = Some (expiryGroups, expiryStats) ->
        NoDup (List.map fst expiryGroups)
        /\ forall key,
             let cohort := segmentCohort key options in
             groupUnder key expiryGroups = cohort
             /\ expiryStats !! key = BasicMonitor.cohortStats cohort
             /\ (expiryStats !! key = None <->
                 (forall o, In o cohort -> Monitor.mark_price o <= 0)
                 \/ (forall o, In o cohort -> Monitor.volume_usd o <= 0))
             /\ (forall st, expiryStats !! key = Some st ->
                   0 < BasicMonitor.avgPrice st /\ 0 < BasicMonitor.avgVolume st
                   /\ BasicMonitor.avgPrice st = average (valid Monitor.mark_price cohort)
                   /\ BasicMonitor.avgVolume st
                      = average (valid Monitor.volume_usd cohort)
                   /\ BasicMonitor.count st = List.length cohort))
  /\ BasicMonitor.evaluateSnapshot demoNow
       [demoQuote (JSString.lit "ETH-constructor-3300-C") 1 10 5] = None.
Proof.
  split; [|split; [|vm_compute; reflexivity]].
  - unfold BasicMonitor.calculateExpiryStats.
    rewrite <- (basic_groups_throw options []).
    destruct (fold_left BasicMonitor.groupOption options (Some [])); split;
      congruence.
  - intros expiryGroups expiryStats. unfold BasicMonitor.calculateExpiryStats.
    destruct (fold_left BasicMonitor.groupOption options (Some [])) as [groups|] eqn:Hfold;
      [|discriminate].
    intros H. injection H as <- <-.
    destruct (basic_groups_fold options [] groups Hfold) as (Hnd & Hg & _).
    specialize (Hnd (NoDup_nil _)).
    split; [exact Hnd|]. intros key. cbv zeta.
    assert (Hgroup : groupUnder key groups = segmentCohort key options)
      by (rewrite Hg; reflexivity).
    match goal with
    | |- _ /\ ?m !! key = _ /\ _ => set (expiryStats := m)
    end.
    assert (Hstat : expiryStats !! key
                    = BasicMonitor.cohortStats (segmentCohort key options)).
    { subst expiryStats. rewrite <- Hgroup.
      apply (basic_stats_of_groups BasicMonitor.cohortStats); [reflexivity|exact Hnd]. }
    split; [exact Hgroup|]. split; [exact Hstat|].
    rewrite Hstat. split; [apply basic_cohortStats_None|].
    intros st. apply basic_cohortStats_Some.
Qed.

Ltac Qle_bool_props :=
  repeat match goal with
         | H : Qle_bool _ _ = true |- _ => apply Qle_bool_iff in H
         | H : Qle_bool _ _ = false |- _ => apply Qle_bool_gt in H
         end.

Lemma quotient_finite (x y : Q) : 0 < y -> BasicMonitor.quotient x y = BasicMonitor.Finite (x / y).
Proof.
  intros Hy. unfold BasicMonitor.quotient.
  destruct (Qeq_bool y 0) eqn:E; [|reflexivity].
  apply Qeq_bool_iff in E. lra.
Qed.

Lemma irregularity_type (now : Z) (expiryStats : gmap (list Z) BasicMonitor.stats)
    (opt : Monitor.bookSummary) (a : BasicMonitor.Alert.t) :
  BasicMonitor.irregularity now expiryStats opt = Some a ->
  let p := BasicMonitor.Alert.priceRatio a in
  let v := BasicMonitor.Alert.volumeRatio a in
  BasicMonitor.Alert.symbol a = Monitor.instrument_name opt
  /\ BasicMonitor.Alert.expiryDate a
     = BasicMonitor.parseExpiryDate (Monitor.instrument_name opt)
  /\ BasicMonitor.Alert.currentPrice a = Monitor.mark_price opt
  /\ BasicMonitor.Alert.type a
     = (if BasicMonitor.atLeast p 3 then BasicMonitor.PRICE_SPIKE
        else if BasicMonitor.atMost p (1 # 2) then BasicMonitor.PRICE_DROP
        else if BasicMonitor.atLeast v 5 then BasicMonitor.VOLUME_SPIKE
        else BasicMonitor.COMBINED)
  /\ (BasicMonitor.atLeast p 3 || BasicMonitor.atMost p (1 # 2)
      || BasicMonitor.atLeast v 5
      || (BasicMonitor.atLeast p (5 # 2) || BasicMonitor.atMost p (6 # 10))
         && (BasicMonitor.atLeast v 4 || BasicMonitor.atMost v (6 # 10))) = true.
Proof.
  unfold BasicMonitor.irregularity.
  destruct (expiryStats !! _) as [st|]; [|discriminate].
  destruct (_ || _); [discriminate|]. cbv zeta.
  match goal with
  | |- (if ?c then _ else _) = _ -> _ => destruct c eqn:Hc; [|discriminate]
  end.
  intros H. inversion H; subst; cbn. repeat split. exact Hc.
Qed.

(** X20. When the basic monitor alerts, and under which type.  For a
    quote whose cohort has statistics, with positive averages as
    [calculateExpiryStats] writes them, [detectIrregularities] pushes an
    alert exactly when the mark price and the volume are positive and
    the price is 3 times the average or more, or half of it or less, or
    the volume is 5 times its average or more, or price and volume are
    both off by the lesser margins of the combined test.  The type is
    the first of the four tests that holds: [PRICE_SPIKE] whenever the
    price ratio is 3 or more, [PRICE_DROP] whenever it is 0.5 or less,
    [VOLUME_SPIKE] for a volume ratio of 5 or more at a price ratio
    between these, [COMBINED] otherwise.  A quote whose price lies
    between 0.6 and 2.5 times the average raises no alert below 5 times
    the average volume; a quote at the averages raises none. *)
Theorem irregularity_criterion (now : Z) (expiryStats : gmap (list Z) BasicMonitor.stats)
    (opt : Monitor.bookSummary) (st : BasicMonitor.stats) :
  expiryStats !! BasicMonitor.parseExpiryDate (Monitor.instrument_name opt) = Some st ->
  0 < BasicMonitor.avgPrice st ->
  0 < BasicMonitor.avgVolume st ->
  let p := Monitor.mark_price opt / BasicMonitor.avgPrice st in
  let v := Monitor.volume_usd opt / BasicMonitor.avgVolume st in
  ((exists a, BasicMonitor.irregularity now expiryStats opt = Some a) <->
   0 < Monitor.mark_price opt /\ 0 < Monitor.volume_usd opt
   /\ (3 <= p \/ p <= 1 # 2 \/ 5 <= v
       \/ ((5 # 2 <= p \/ p <= 3 # 5) /\ (4 <= v \/ v <= 3 # 5))))
  /\ (forall a, BasicMonitor.irregularity now expiryStats opt = Some a ->
        BasicMonitor.Alert.symbol a = Monitor.instrument_name opt
        /\ BasicMonitor.Alert.expiryDate a
           = BasicMonitor.parseExpiryDate (Monitor.instrument_name opt)
        /\ BasicMonitor.Alert.priceRatio a = BasicMonitor.Finite p
        /\ BasicMonitor.Alert.volumeRatio a = BasicMonitor.Finite v
        /\ (BasicMonitor.Alert.type a = BasicMonitor.PRICE_SPIKE <-> 3 <= p)
        /\ (BasicMonitor.Alert.type a = BasicMonitor.PRICE_DROP <-> p <= 1 # 2)
        /\ (BasicMonitor.Alert.type a = BasicMonitor.VOLUME_SPIKE <->
            1 # 2 < p /\ p < 3 /\ 5 <= v)
        /\ (BasicMonitor.Alert.type a = BasicMonitor.COMBINED <->
            1 # 2 < p /\ p < 3 /\ v < 5))
  /\ (3 # 5 < p -> p < 5 # 2 -> v < 5 ->
      BasicMonitor.irregularity now expiryStats opt = None)
  /\ (Monitor.mark_price opt == BasicMonitor.avgPrice st ->
      Monitor.volume_usd opt == BasicMonitor.avgVolume st ->
      BasicMonitor.irregularity now expiryStats opt = None).
Proof.
  intros Hst HavgP HavgV p v.
  assert (Hp : 0 < Monitor.mark_price opt -> 0 < p)
    by (intros H; apply Qlt_shift_div_l; lra).
  assert (Hv : 0 < Monitor.volume_usd opt -> 0 < v)
    by (intros H; apply Qlt_shift_div_l; lra).
  assert (Hone : Monitor.mark_price opt == BasicMonitor.avgPrice st -> p == 1).
  { intros H. unfold p. rewrite H. field. lra. }
  assert (Hvone : Monitor.volume_usd opt == BasicMonitor.avgVolume st -> v == 1).
  { intros H. unfold v. rewrite H. field. lra. }
  unfold BasicMonitor.irregularity. rewrite Hst.
  rewrite (quotient_finite _ _ HavgP), (quotient_finite _ _ HavgV).
  fold p v. cbn [BasicMonitor.atLeast BasicMonitor.atMost].
  clearbody p v.
  destruct (Qle_bool (Monitor.mark_price opt) 0) eqn:E1.
  { Qle_bool_props. cbn [orb]. split; [|split; [|split]].
    - split; [intros [a Ha]; discriminate|intros (H & _); exfalso; lra].
    - intros a Ha. discriminate.
    - reflexivity.
    - reflexivity. }
  destruct (Qle_bool (Monitor.volume_usd opt) 0) eqn:E2.
  { Qle_bool_props. cbn [orb]. split; [|split; [|split]].
    - split; [intros [a Ha]; discriminate|intros (_ & H & _); exfalso; lra].
    - intros a Ha. discriminate.
    - reflexivity.
    - reflexivity. }
  cbn [orb]. Qle_bool_props. specialize (Hp E1). specialize (Hv E2).
  destruct (Qle_bool 3 p) eqn:B1; destruct (Qle_bool p (1 # 2)) eqn:B2;
    destruct (Qle_bool 5 v) eqn:B3; destruct (Qle_bool (5 # 2) p) eqn:B4;
    destruct (Qle_bool p (6 # 10)) eqn:B5; destruct (Qle_bool 4 v) eqn:B6;
    destruct (Qle_bool v (6 # 10)) eqn:B7;
    Qle_bool_props; try (exfalso; lra); cbn [orb andb];
    (split;
     [ split; [intros [a Ha]; first [discriminate|lra]
              |intros (_ & _ & H); first [eexists; reflexivity|exfalso; lra]]
     | split;
       [ intros a Ha; first [discriminate
                            |inversion Ha; subst; cbn; repeat split; intros;
                             first [reflexivity|discriminate|lra|exfalso; lra]]
       | split;
         [ intros; first [reflexivity|exfalso; lra]
         | intros H1 H2; specialize (Hone H1); specialize (Hvone H2);
           first [reflexivity|exfalso; lra] ] ] ]).
Qed.

Lemma irregularity_criterion_witness :
  let opt := demoQuote (JSString.lit "ETH-7NOV25-3300-C") 3 50 0 in
  let st := {| BasicMonitor.avgPrice := 1;
               BasicMonitor.avgVolume := 10;
               BasicMonitor.count := 3%nat |} in
  let expiryStats : gmap (list Z) BasicMonitor.stats :=
    {[ JSString.lit "7NOV25" := st ]} in
  exists a, BasicMonitor.irregularity demoNow expiryStats opt = Some a
            /\ BasicMonitor.Alert.type a = BasicMonitor.PRICE_SPIKE.
Proof.
  intros opt st expiryStats.
  assert (Hst : expiryStats
                !! BasicMonitor.parseExpiryDate (Monitor.instrument_name opt) = Some st)
    by (vm_compute; reflexivity).
  assert (HavgP : 0 < BasicMonitor.avgPrice st) by (vm_compute; reflexivity).
  assert (HavgV : 0 < BasicMonitor.avgVolume st) by (vm_compute; reflexivity).
  destruct (irregularity_criterion demoNow expiryStats opt st Hst HavgP HavgV)
    as (Hex & Hty & _).
  destruct (proj2 Hex) as [a Ha].
  - split; [vm_compute; reflexivity|]. split; [vm_compute; reflexivity|].
    left. vm_compute. discriminate.
  - exists a. split; [exact Ha|].
    destruct (Hty a Ha) as (_ & _ & _ & _ & Hspike & _).
    apply Hspike. vm_compute. discriminate.
Defined.

Lemma filter_length_le {A : Type} (f g : A -> bool) (l : list A) :
  (forall a, In a l -> f a = true -> g a = true) ->
  (List.length (List.filter f l) <= List.length (List.filter g l))%nat.
Proof.
  induction l as [|x l IH]; intros H; simpl; [lia|].
  assert (IH' := IH (fun a Ha => H a (or_intror Ha))).
  destruct (f x) eqn:Hf.
  - rewrite (H x (or_introl eq_refl) Hf). simpl. lia.
  - destruct (g x); simpl; lia.
Qed.

Lemma ofType_partition (alerts : list BasicMonitor.Alert.t) :
  List.length alerts
  = (List.length (ofType BasicMonitor.PRICE_SPIKE alerts)
     + List.length (ofType BasicMonitor.PRICE_DROP alerts)
     + List.length (ofType BasicMonitor.VOLUME_SPIKE alerts)
     + List.length (ofType BasicMonitor.COMBINED alerts))%nat.
Proof.
  unfold ofType. induction alerts as [|a alerts IH]; [reflexivity|].
  cbn [List.filter List.length]. rewrite IH.
  destruct (BasicMonitor.Alert.type a); cbn [List.length]; lia.
Qed.

Lemma atLeast_not_atMost (r : BasicMonitor.ratio) :
  BasicMonitor.atLeast r 3 = true -> BasicMonitor.atMost r (1 # 2) = false.
Proof.
  destruct r as [q|]; cbn; [|reflexivity].
  intros H. apply Qle_bool_iff in H. apply Qle_bool_gt. lra.
Qed.

(** X21. The four counts of the mail of the basic monitor against the
    types of the alerts.  The count of extreme price spikes is the
    number of alerts of type [PRICE_SPIKE] and that of extreme price
    drops the number of type [PRICE_DROP]; the counts of extreme volume
    spikes and of combined anomalies are at least the numbers of the
    alerts of these types, since an alert is typed by the first test
    that it passes and counted under every test that it passes.  Every
    alert is counted at least once, so the four counts add up to the
    number of irregularities or more: one quote at 3 times the average
    price and 5 times the average volume is counted three times. *)
Theorem mail_categories_cover_alerts (now : Z) (options : list Monitor.bookSummary)
    (expiryStats : gmap (list Z) BasicMonitor.stats) :
  let alerts := BasicMonitor.detectIrregularities now options expiryStats in
  let c := EmailService.categoryCounts alerts in
  EmailService.extremePriceSpikes c
  = List.length (ofType BasicMonitor.PRICE_SPIKE alerts)
  /\ EmailService.extremePriceDrops c
     = List.length (ofType BasicMonitor.PRICE_DROP alerts)
  /\ (List.length (ofType BasicMonitor.VOLUME_SPIKE alerts)
      <= EmailService.extremeVolumeSpikes c)%nat
  /\ (List.length (ofType BasicMonitor.COMBINED alerts)
      <= EmailService.combinedAnomalies c)%nat
  /\ (List.length alerts
      <= EmailService.extremePriceSpikes c + EmailService.extremePriceDrops c
         + EmailService.extremeVolumeSpikes c + EmailService.combinedAnomalies c)%nat
  /\ (List.length alerts <= List.length options)%nat
  /\ EmailService.categoryCounts
       (BasicMonitor.detectIrregularities demoNow
          [demoQuote (JSString.lit "ETH-7NOV25-3300-C") 3 50 0]
          {[ JSString.lit "7NOV25" :=
               {| BasicMonitor.avgPrice := 1;
                  BasicMonitor.avgVolume := 10;
                  BasicMonitor.count := 3%nat |} ]})
     = {| EmailService.extremePriceSpikes := 1;
          EmailService.extremePriceDrops := 0;
          EmailService.extremeVolumeSpikes := 1;
          EmailService.combinedAnomalies := 1 |}.
Proof.
  cbv zeta.
  set (alerts := BasicMonitor.detectIrregularities now options expiryStats).
  assert (Hall : forall a, In a alerts ->
            exists opt, BasicMonitor.irregularity now expiryStats opt = Some a).
  { intros a Ha. apply flat_map_option_In in Ha. destruct Ha as (opt & _ & H).
    exists opt. exact H. }
  assert (Hspike : EmailService.extremePriceSpikes (EmailService.categoryCounts alerts)
                   = List.length (ofType BasicMonitor.PRICE_SPIKE alerts)).
  { cbn [EmailService.categoryCounts EmailService.extremePriceSpikes]. unfold ofType.
    f_equal. apply filter_ext_in. intros a Ha. destruct (Hall a Ha) as [opt H].
    destruct (irregularity_type _ _ _ _ H) as (_ & _ & _ & Hty & _). rewrite Hty.
    destruct (BasicMonitor.atLeast _ 3); [reflexivity|].
    destruct (BasicMonitor.atMost _ _); [reflexivity|].
    destruct (BasicMonitor.atLeast _ 5); reflexivity. }
  assert (Hdrop : EmailService.extremePriceDrops (EmailService.categoryCounts alerts)
                  = List.length (ofType BasicMonitor.PRICE_DROP alerts)).
  { cbn [EmailService.categoryCounts EmailService.extremePriceDrops]. unfold ofType.
    f_equal. apply filter_ext_in. intros a Ha. destruct (Hall a Ha) as [opt H].
    destruct (irregularity_type _ _ _ _ H) as (_ & _ & _ & Hty & _). rewrite Hty.
    destruct (BasicMonitor.atLeast _ 3) eqn:E3;
      [rewrite (atLeast_not_atMost _ E3); reflexivity|].
    destruct (BasicMonitor.atMost _ _); [reflexivity|].
    destruct (BasicMonitor.atLeast _ 5); reflexivity. }
  assert (Hvol : (List.length (ofType BasicMonitor.VOLUME_SPIKE alerts)
                  <= EmailService.extremeVolumeSpikes
                       (EmailService.categoryCounts alerts))%nat).
  { cbn [EmailService.categoryCounts EmailService.extremeVolumeSpikes]. unfold ofType.
    apply filter_length_le. intros a Ha. destruct (Hall a Ha) as [opt H].
    destruct (irregularity_type _ _ _ _ H) as (_ & _ & _ & Hty & _). rewrite Hty.
    destruct (BasicMonitor.atLeast _ 3); [discriminate|].
    destruct (BasicMonitor.atMost _ _); [discriminate|].
    destruct (BasicMonitor.atLeast _ 5); [reflexivity|discriminate]. }
  assert (Hcomb : (List.length (ofType BasicMonitor.COMBINED alerts)
                   <= EmailService.combinedAnomalies
                        (EmailService.categoryCounts alerts))%nat).
  { cbn [EmailService.categoryCounts EmailService.combinedAnomalies]. unfold ofType.
    apply filter_length_le. intros a Ha. destruct (Hall a Ha) as [opt H].
    destruct (irregularity_type _ _ _ _ H) as (_ & _ & _ & Hty & Hc).
    cbv zeta in Hty, Hc. rewrite Hty.
    destruct (BasicMonitor.atLeast _ 3); [discriminate|].
    destruct (BasicMonitor.atMost _ (1 # 2)); [discriminate|].
    destruct (BasicMonitor.atLeast _ 5); [discriminate|].
    intros _. exact Hc. }
  split; [exact Hspike|]. split; [exact Hdrop|]. split; [exact Hvol|].
  split; [exact Hcomb|].
  split; [rewrite (ofType_partition alerts); lia|].
  split; [apply flat_map_option_length|].
  vm_compute. reflexivity.
Qed.

(** ** Symbols of calendar dates *)

Local Open Scope Z_scope.

Lemma includes_app (a b : JSString.t) (c : Z) :
  JSString.includes (List.app a b) c = JSString.includes a c || JSString.includes b c.
Proof.
  induction a as [|x a IH]; [reflexivity|]. cbn [List.app JSString.includes].
  rewrite IH. apply Bool.orb_assoc.
Qed.

Lemma split_no_separator (sep : Z) (s : JSString.t) :
  JSString.includes s sep = false -> JSString.split sep s = [s].
Proof.
  induction s as [|c s IH]; cbn [JSString.includes JSString.split]; [reflexivity|].
  intros H. apply Bool.orb_false_iff in H. destruct H as [Hc Hs].
  rewrite Hc, (IH Hs). reflexivity.
Qed.

Lemma split_at_separator (sep : Z) (a s : JSString.t) :
  JSString.includes a sep = false ->
  JSString.split sep (List.app a (sep :: s)) = a :: JSString.split sep s.
Proof.
  induction a as [|c a IH]; cbn [JSString.includes List.app JSString.split].
  - intros _. rewrite Z.eqb_refl. reflexivity.
  - intros H. apply Bool.orb_false_iff in H. destruct H as [Hc Ha].
    rewrite Hc, (IH Ha). reflexivity.
Qed.

Lemma split_symbolOf asset segment rest :
  JSString.includes asset 45 = false ->
  JSString.includes segment 45 = false ->
  hyphenated rest ->
  exists tl, JSString.split 45 (symbolOf asset segment rest) = asset :: segment :: tl.
Proof.
  intros Ha Hs Hrest. unfold symbolOf.
  rewrite (split_at_separator 45 asset) by exact Ha.
  destruct Hrest as [->|(r & ->)].
  - rewrite app_nil_r, (split_no_separator 45 segment) by exact Hs. eauto.
  - rewrite (split_at_separator 45 segment) by exact Hs. eauto.
Qed.

Lemma firstn_prefix {X : Type} (a b : list X) :
  List.firstn (List.length a) (List.app a b) = a.
Proof. induction a as [|x a IH]; [reflexivity|]. cbn. rewrite IH. reflexivity. Qed.

Lemma skipn_prefix {X : Type} (a b : list X) :
  List.skipn (List.length a) (List.app a b) = b.
Proof. induction a as [|x a IH]; [reflexivity|]. exact IH. Qed.

Lemma firstn_whole {X : Type} (a : list X) : List.firstn (List.length a) a = a.
Proof. induction a as [|x a IH]; [reflexivity|]. cbn. rewrite IH. reflexivity. Qed.

(** The three pieces of a segment [day ++ month ++ year]. *)
Lemma segment_pieces (D M Y : JSString.t) :
  List.length M = 3%nat -> List.length Y = 2%nat ->
  let seg := List.app D (List.app M Y) in
  dayPart seg = D /\ monthPart seg = M /\ yearPart seg = Y.
Proof.
  intros HM HY seg.
  assert (Hlen : List.length seg = (List.length D + 5)%nat).
  { subst seg. rewrite !length_app, HM, HY. lia. }
  unfold dayPart, monthPart, yearPart, JSString.slice, JSString.rel_index.
  rewrite Hlen. cbv zeta.
  set (n := List.length D) in *.
  change (0 <? 0) with false. change (-5 <? 0) with true. change (-2 <? 0) with true.
  cbv iota.
  replace (Z.to_nat (Z.min 0 (Z.of_nat (n + 5)))) with 0%nat by lia.
  replace (Z.to_nat (Z.max (Z.max (Z.of_nat (n + 5) + -5) 0 - Z.min 0 (Z.of_nat (n + 5))) 0))
    with n by lia.
  replace (Z.to_nat (Z.max (Z.of_nat (n + 5) + -5) 0)) with n by lia.
  replace (Z.to_nat (Z.max (Z.max (Z.of_nat (n + 5) + -2) 0
                            - Z.max (Z.of_nat (n + 5) + -5) 0) 0)) with 3%nat by lia.
  replace (Z.to_nat (Z.max (Z.of_nat (n + 5) + -2) 0)) with (n + 3)%nat by lia.
  replace (Z.to_nat (Z.max (Z.of_nat (n + 5) - Z.max (Z.of_nat (n + 5) + -2) 0) 0))
    with 2%nat by lia.
  subst seg n. cbn [List.skipn]. split; [apply firstn_prefix|]. split.
  - rewrite skipn_prefix, <- HM. apply firstn_prefix.
  - replace (List.app D (List.app M Y)) with (List.app (List.app D M) Y)
      by (symmetry; apply app_assoc).
    replace (List.length D + 3)%nat with (List.length (List.app D M))
      by (rewrite length_app, HM; reflexivity).
    rewrite skipn_prefix, <- HY. apply firstn_whole.
Qed.

Lemma parse_segment (asset rest D M Y : JSString.t) (d m y : Z) :
  JSString.includes asset 45 = false -> hyphenated rest ->
  List.length M = 3%nat -> List.length Y = 2%nat ->
  JSString.includes D 45 = false -> JSString.includes M 45 = false ->
  JSString.includes Y 45 = false ->
  JSString.parseInt D = JNum d -> monthMap M = Some m -> JSString.parseInt Y = JNum y ->
  parseExpiryTimestamp (symbolOf asset (List.app D (List.app M Y)) rest)
  = Some (JSDate.getTime (JSDate.UTC (JNum (2000 + y)) (JNum m) (JNum d) 8 0 0)).
Proof.
  intros Ha Hrest HM HY HiD HiM HiY HD Hm Hy.
  assert (Hseg : JSString.includes (List.app D (List.app M Y)) 45 = false).
  { rewrite !includes_app, HiD, HiM, HiY. reflexivity. }
  destruct (split_symbolOf asset _ rest Ha Hseg Hrest) as (tl & Hsplit).
  unfold parseExpiryTimestamp. rewrite Hsplit.
  destruct (segment_pieces D M Y HM HY) as (H1 & H2 & H3).
  rewrite H1, H2, H3, HD, Hm, Hy. reflexivity.
Qed.

Lemma in_range (n : nat) (z : Z) : 0 <= z < Z.of_nat n -> In z (range n).
Proof.
  intros H. unfold range. apply in_map_iff. exists (Z.to_nat z). split; [lia|].
  apply in_seq. lia.
Qed.

Lemma forall_range (n : nat) (p : Z -> bool) :
  List.forallb p (range n) = true -> forall z, 0 <= z < Z.of_nat n -> p z = true.
Proof. intros H z Hz. exact (proj1 (forallb_forall p (range n)) H z (in_range n z Hz)). Qed.

Lemma forall_range3 (p : Z -> Z -> Z -> bool) (n1 n2 n3 : nat) :
  List.forallb (fun a =>
    List.forallb (fun b => List.forallb (fun c => p a b c) (range n3)) (range n2))
    (range n1) = true ->
  forall a b c,
    0 <= a < Z.of_nat n1 -> 0 <= b < Z.of_nat n2 -> 0 <= c < Z.of_nat n3 ->
    p a b c = true.
Proof.
  intros H a b c Ha Hb Hc.
  pose proof (forall_range n1 _ H a Ha) as H1. cbv beta in H1.
  pose proof (forall_range n2 _ H1 b Hb) as H2. cbv beta in H2.
  exact (forall_range n3 _ H2 c Hc).
Qed.

Lemma dayString_reads padded d :
  1 <= d <= 31 ->
  JSString.includes (JSString.lit (dayString padded d)) 45 = false
  /\ JSString.parseInt (JSString.lit (dayString padded d)) = JNum d.
Proof.
  intros Hd.
  assert (Hall : List.forallb dayStringReads (range 31) = true) by (vm_compute; reflexivity).
  pose proof (forall_range 31 dayStringReads Hall (d - 1) ltac:(lia)) as H.
  unfold dayStringReads in H. replace (d - 1 + 1) with d in H by lia.
  pose proof (proj1 (forallb_forall _ _) H padded) as Hp. cbv beta in Hp.
  assert (Hin : In padded [false; true]) by (destruct padded; simpl; auto).
  specialize (Hp Hin). apply Bool.andb_true_iff in Hp. destruct Hp as [H1 H2].
  apply Bool.negb_true_iff in H1. split; [exact H1|].
  destruct (JSString.parseInt _); [|discriminate]. apply Z.eqb_eq in H2. congruence.
Qed.

Lemma yearString_reads yy :
  0 <= yy <= 99 ->
  JSString.includes (JSString.lit (JSAscii.digits 2 yy)) 45 = false
  /\ List.length (JSString.lit (JSAscii.digits 2 yy)) = 2%nat
  /\ JSString.parseInt (JSString.lit (JSAscii.digits 2 yy)) = JNum yy.
Proof.
  intros Hy.
  assert (Hall : List.forallb yearStringReads (range 100) = true) by (vm_compute; reflexivity).
  pose proof (forall_range 100 yearStringReads Hall yy ltac:(lia)) as H.
  unfold yearStringReads in H.
  apply Bool.andb_true_iff in H. destruct H as [H H3].
  apply Bool.andb_true_iff in H. destruct H as [H1 H2].
  apply Bool.negb_true_iff in H1. apply Nat.eqb_eq in H2.
  split; [exact H1|]. split; [exact H2|].
  destruct (JSString.parseInt _); [|discriminate]. apply Z.eqb_eq in H3. congruence.
Qed.

Lemma monthName_reads m :
  0 <= m <= 11 ->
  JSString.includes (JSString.lit (monthName m)) 45 = false
  /\ List.length (JSString.lit (monthName m)) = 3%nat
  /\ monthMap (JSString.lit (monthName m)) = Some m.
Proof.
  intros Hm.
  assert (Hall : List.forallb monthNameReads (range 12) = true) by (vm_compute; reflexivity).
  pose proof (forall_range 12 monthNameReads Hall m ltac:(lia)) as H.
  unfold monthNameReads in H.
  apply Bool.andb_true_iff in H. destruct H as [H H3].
  apply Bool.andb_true_iff in H. destruct H as [H1 H2].
  apply Bool.negb_true_iff in H1. apply Nat.eqb_eq in H2.
  split; [exact H1|]. split; [exact H2|].
  destruct (monthMap _); [|discriminate]. apply Z.eqb_eq in H3. congruence.
Qed.

Lemma daysInMonth_le_31 y m : daysInMonth y m <= 31.
Proof.
  unfold daysInMonth. destruct m as [|p|p]; try lia.
  repeat (destruct p as [p|p|]; try lia); destruct (JSDate.InLeapYear y); lia.
Qed.

Lemma calendar_day_numbers :
  List.forallb (fun yy =>
    List.forallb (fun m =>
      List.forallb (fun d0 => dayNumberRoundTrips yy m d0) (range 31))
      (range 12))
    (range 100) = true.
Proof. vm_compute. reflexivity. Qed.

Lemma day_number_round_trip d m yy :
  calendarDate d m yy ->
  JSDate.civil_from_days (JSDate.MakeDay (2000 + yy) m d) = (2000 + yy, m + 1, d)
  /\ Z.abs (expiryInstant d m yy) <= 8640000000000000.
Proof.
  intros (Hy & Hm & Hd).
  pose proof (daysInMonth_le_31 (2000 + yy) m) as Hle.
  pose proof (forall_range3 dayNumberRoundTrips 100 12 31 calendar_day_numbers
                yy m (d - 1) ltac:(lia) ltac:(lia) ltac:(lia)) as Hday.
  unfold dayNumberRoundTrips in Hday. replace (d - 1 + 1) with d in Hday by lia.
  apply Bool.orb_true_iff in Hday. destruct Hday as [H|H]; [apply Z.ltb_lt in H; lia|].
  apply Bool.andb_true_iff in H. destruct H as [H H4]. apply Z.leb_le in H4.
  split; [|exact H4].
  destruct (JSDate.civil_from_days _) as [[y' m'] d'].
  apply Bool.andb_true_iff in H. destruct H as [H H3].
  apply Bool.andb_true_iff in H. destruct H as [H1 H2].
  apply Z.eqb_eq in H1, H2, H3. congruence.
Qed.

Lemma UTC_calendar d m yy :
  calendarDate d m yy ->
  JSDate.getTime (JSDate.UTC (JNum (2000 + yy)) (JNum m) (JNum d) 8 0 0)
  = JNum (expiryInstant d m yy).
Proof.
  intros Hdate. destruct (day_number_round_trip d m yy Hdate) as [_ Hbound].
  destruct Hdate as (Hy & _ & _).
  unfold JSDate.UTC.
  assert (H99 : (2000 + yy <=? 99) = false) by (apply Z.leb_gt; lia).
  rewrite H99, Bool.andb_false_r.
  assert (Ht : JSDate.MakeDate (JSDate.MakeDay (2000 + yy) m d) (JSDate.MakeTime 8 0 0 0)
               = expiryInstant d m yy).
  { unfold JSDate.MakeDate, JSDate.MakeTime, expiryInstant. lia. }
  rewrite Ht.
  assert (Hclip : JSDate.TimeClip (expiryInstant d m yy) = JNum (expiryInstant d m yy)).
  { unfold JSDate.TimeClip.
    destruct (8640000000000000 <? Z.abs (expiryInstant d m yy)) eqn:E; [|reflexivity].
    apply Z.ltb_lt in E. lia. }
  rewrite Hclip. cbn [JSDate.getTime]. exact Hclip.
Qed.

Lemma append_cons c s t : String.append (String c s) t = String c (String.append s t).
Proof. reflexivity. Qed.

Lemma append_nil (s : string) : String.append EmptyString s = s.
Proof. reflexivity. Qed.

Lemma append_assoc (a b c : string) :
  String.append (String.append a b) c = String.append a (String.append b c).
Proof.
  induction a as [|x a IH]; [reflexivity|]. rewrite !append_cons, IH. reflexivity.
Qed.

Lemma occurs_append (a b : string) (c : ascii) :
  occurs c (String.append a b) = occurs c a || occurs c b.
Proof.
  induction a as [|x a IH]; [reflexivity|]. rewrite append_cons. cbn [occurs].
  rewrite IH. apply Bool.orb_assoc.
Qed.

Lemma printed_split_at (sep : ascii) (a s : string) :
  occurs sep a = false ->
  JSAscii.split sep (String.append a (String sep s)) = a :: JSAscii.split sep s.
Proof.
  induction a as [|c a IH].
  - intros _. rewrite append_nil. cbn [JSAscii.split]. rewrite Ascii.eqb_refl. reflexivity.
  - intros H. cbn [occurs] in H. apply Bool.orb_false_iff in H. destruct H as [Hc Ha].
    rewrite append_cons. cbn [JSAscii.split]. rewrite Hc, (IH Ha). reflexivity.
Qed.

Lemma digit_char (k : nat) (c : ascii) :
  (k <= 9)%nat -> (nat_of_ascii c < 48 \/ 57 < nat_of_ascii c)%nat ->
  Ascii.eqb (ascii_of_nat (48 + k)) c = false.
Proof.
  intros Hk Hc. apply Ascii.eqb_neq. intros Heq.
  assert (Hn : nat_of_ascii (ascii_of_nat (48 + k)) = (48 + k)%nat)
    by (apply nat_ascii_embedding; lia).
  rewrite Heq in Hn. lia.
Qed.

Lemma occurs_digits (w : nat) (z : Z) (c : ascii) :
  (nat_of_ascii c < 48 \/ 57 < nat_of_ascii c)%nat ->
  occurs c (JSAscii.digits w z) = false.
Proof.
  intros Hc. revert z. induction w as [|w IH]; intros z; [reflexivity|].
  cbn [JSAscii.digits]. rewrite occurs_append, IH. cbn [occurs orb].
  rewrite digit_char; [reflexivity| |exact Hc].
  pose proof (Z.mod_pos_bound z 10 ltac:(lia)). lia.
Qed.

Lemma occurs_isoDate d m yy : occurs "T" (isoDate d m yy) = false.
Proof.
  unfold isoDate. cbn [String.concat].
  rewrite !occurs_append. cbn [occurs].
  rewrite !occurs_digits by (right; cbv; lia). reflexivity.
Qed.

Lemma toISOString_date (t y m d : Z) :
  JSDate.civil_from_days (JSDate.Day t) = (y, m, d) -> 0 <= y <= 9999 ->
  exists rest,
    JSDate.toISOString t
    = String.append
        (String.concat "-" [JSAscii.digits 4 y; JSAscii.digits 2 m; JSAscii.digits 2 d])
        (String "T" rest).
Proof.
  intros Hcivil Hy. unfold JSDate.toISOString. rewrite Hcivil.
  unfold JSDate.year_string.
  assert (Hc : (0 <=? y) && (y <=? 9999) = true)
    by (apply Bool.andb_true_iff; split; apply Z.leb_le; lia).
  rewrite Hc. cbn [String.concat].
  eexists. rewrite !append_nil, !append_assoc, !append_cons, !append_nil.
  reflexivity.
Qed.

Lemma expiryKeyOf_calendar d m yy :
  calendarDate d m yy -> expiryKeyOf (expiryInstant d m yy) = isoDate d m yy.
Proof.
  intros Hdate. destruct (day_number_round_trip d m yy Hdate) as [Hcivil _].
  assert (Hday : JSDate.Day (expiryInstant d m yy) = JSDate.MakeDay (2000 + yy) m d).
  { unfold JSDate.Day, expiryInstant, JSDate.msPerDay, JSDate.msPerHour.
    generalize (JSDate.MakeDay (2000 + yy) m d). intros a.
    rewrite Z.div_add_l by lia. change (8 * 3600000 / 86400000) with 0. lia. }
  destruct Hdate as (Hy & _ & _).
  destruct (toISOString_date (expiryInstant d m yy) (2000 + yy) (m + 1) d) as (rest & Hiso).
  { rewrite Hday. exact Hcivil. }
  { lia. }
  unfold expiryKeyOf. rewrite Hiso.
  fold (isoDate d m yy).
  rewrite printed_split_at by apply occurs_isoDate. reflexivity.
Qed.

(** X22. The expiry of a symbol round-trips.  For every day of the
    calendar from 2000 to 2099, written with or without a leading zero,
    a symbol that carries the day as its second segment, after any asset
    without a hyphen and before any further segments, parses to 08:00
    UTC of that day, which is truthy, and the cohort key of that instant
    is the ISO date of the day: the cohort of a quote is the day written
    in its symbol, whatever its asset, strike and side. *)
Theorem expiry_round_trip (asset rest : JSString.t) (padded : bool) (d m yy : Z) :
  calendarDate d m yy ->
  JSString.includes asset 45 = false ->
  hyphenated rest ->
  let name := symbolOf asset (expirySegment padded d m yy) rest in
  parseExpiryTimestamp name = Some (JNum (expiryInstant d m yy))
  /\ truthy (parseExpiryTimestamp name) = Some (expiryInstant d m yy)
  /\ expiryKeyOf (expiryInstant d m yy) = isoDate d m yy.
Proof.
  intros Hdate Ha Hrest name.
  pose proof Hdate as (Hy & Hm & Hd).
  pose proof (daysInMonth_le_31 (2000 + yy) m) as Hle.
  destruct (dayString_reads padded d ltac:(lia)) as [HiD HD].
  destruct (monthName_reads m Hm) as (HiM & HlM & HM).
  destruct (yearString_reads yy Hy) as (HiY & HlY & HY).
  assert (Hparse : parseExpiryTimestamp name = Some (JNum (expiryInstant d m yy))).
  { subst name. unfold expirySegment.
    rewrite (parse_segment asset rest _ _ _ d m yy) by assumption.
    rewrite UTC_calendar by exact Hdate. reflexivity. }
  split; [exact Hparse|]. split; [|apply expiryKeyOf_calendar, Hdate].
  rewrite Hparse. cbn [truthy].
  destruct (expiryInstant d m yy =? 0) eqn:E; [|reflexivity].
  exfalso. apply Z.eqb_eq in E.
  unfold expiryInstant, JSDate.msPerDay, JSDate.msPerHour in E. lia.
Qed.

Lemma expiry_round_trip_witness :
  calendarDate 7 10 25
  /\ symbolOf (JSString.lit "ETH") (expirySegment false 7 10 25) (JSString.lit "-3300-C")
     = JSString.lit "ETH-7NOV25-3300-C"
  /\ parseExpiryTimestamp (JSString.lit "ETH-7NOV25-3300-C") = Some (JNum 1762502400000)
  /\ expiryKeyOf 1762502400000 = "2025-11-07".
Proof.
  assert (Hdate : calendarDate 7 10 25) by (vm_compute; intuition discriminate).
  destruct (expiry_round_trip (JSString.lit "ETH") (JSString.lit "-3300-C") false 7 10 25
              Hdate eq_refl) as (H1 & _ & H3).
  { right. eexists. reflexivity. }
  split; [exact Hdate|]. split; [reflexivity|]. split; [exact H1|exact H3].
Defined.

Lemma parse_number (name : JSString.t) (t : Z) :
  parseExpiryTimestamp name = Some (JNum t) ->
  t mod JSDate.msPerDay = 8 * JSDate.msPerHour
  /\ Z.abs t <= 8640000000000000.
Proof.
  unfold parseExpiryTimestamp.
  destruct (JSString.split 45 name) as [|asset [|expiryStr tl]]; try discriminate.
  destruct (monthMap _) as [month|]; [|discriminate].
  unfold JSDate.UTC.
  destruct (jsnum_add _ _) as [y|]; [|discriminate].
  destruct (JSString.parseInt (dayPart expiryStr)) as [dt|]; [|discriminate].
  set (yr := if (0 <=? y) && (y <=? 99) then 1900 + y else y).
  unfold JSDate.MakeDate, JSDate.MakeTime.
  generalize (JSDate.MakeDay yr month dt). intros day.
  unfold JSDate.TimeClip.
  destruct (8640000000000000 <? _) eqn:E1; [discriminate|].
  cbn [JSDate.getTime]. unfold JSDate.TimeClip. rewrite E1.
  intros H. inversion H; subst t; clear H. apply Z.ltb_ge in E1.
  split; [|exact E1].
  unfold JSDate.msPerDay, JSDate.msPerHour, JSDate.msPerMinute, JSDate.msPerSecond.
  replace (day * 86400000 + (8 * 3600000 + 0 * 60000 + 0 * 1000 + 0))
    with (28800000 + day * 86400000) by lia.
  rewrite Z_mod_plus_full. reflexivity.
Qed.

Lemma truthy_parse (name : JSString.t) (t : Z) :
  parseExpiryTimestamp name = Some (JNum t) -> truthy (parseExpiryTimestamp name) = Some t.
Proof.
  intros H. destruct (parse_number name t H) as [Hmod _]. rewrite H. cbn [truthy].
  destruct (t =? 0) eqn:E; [|reflexivity].
  apply Z.eqb_eq in E. subst t. discriminate Hmod.
Qed.

(** X23. What [parseExpiryTimestamp] and [getTimeToExpiry] can return.
    A symbol without a hyphen parses to [null].  A number that the
    parser returns is a time value at 08:00 UTC of some day, hence never
    0: the test [!expiryTimestamp] of the consumers excludes the symbols
    that parse to [null] or [NaN] and no other.  [getTimeToExpiry] is
    [null] for these, and otherwise the hours from the given instant to
    the expiry, never negative, 0 from the expiry on. *)
Theorem parse_outcomes (name : JSString.t) :
  (JSString.includes name 45 = false -> parseExpiryTimestamp name = None)
  /\ (forall t, parseExpiryTimestamp name = Some (JNum t) ->
        t mod JSDate.msPerDay = 8 * JSDate.msPerHour
        /\ Z.abs t <= 8640000000000000
        /\ truthy (parseExpiryTimestamp name) = Some t)
  /\ (truthy (parseExpiryTimestamp name) = None <->
      parseExpiryTimestamp name = None \/ parseExpiryTimestamp name = Some JNaN)
  /\ (forall now,
        match getTimeToExpiry name now with
        | None =>
            parseExpiryTimestamp name = None \/ parseExpiryTimestamp name = Some JNaN
        | Some hours =>
            exists t,
              parseExpiryTimestamp name = Some (JNum t)
              /\ (0 <= hours)%Q
              /\ (now <= t ->
                  (hours == inject_Z (t - now) / inject_Z (1000 * 60 * 60))%Q)
              /\ (t <= now -> (hours == 0)%Q)
        end).
Proof.
  assert (Hfalsy : truthy (parseExpiryTimestamp name) = None <->
      parseExpiryTimestamp name = None \/ parseExpiryTimestamp name = Some JNaN).
  { split.
    - intros H. destruct (parseExpiryTimestamp name) as [[t|]|] eqn:E; auto.
      exfalso. pose proof (truthy_parse name t E) as Ht. rewrite E in Ht. congruence.
    - intros [->| ->]; reflexivity. }
  split; [|split; [|split; [exact Hfalsy|]]].
  - intros H. unfold parseExpiryTimestamp.
    rewrite (split_no_separator 45 name H). reflexivity.
  - intros t H. destruct (parse_number name t H) as [H1 H2].
    split; [exact H1|]. split; [exact H2|]. apply truthy_parse, H.
  - intros now. unfold getTimeToExpiry.
    destruct (truthy (parseExpiryTimestamp name)) as [t|] eqn:E.
    + exists t.
      assert (Hp : parseExpiryTimestamp name = Some (JNum t)).
      { destruct (parseExpiryTimestamp name) as [[t'|]|]; try discriminate.
        cbn [truthy] in E. destruct (t' =? 0); [discriminate|]. congruence. }
      split; [exact Hp|]. split; [apply Q.le_max_l|]. split.
      * intros Hle. apply Q.max_r. apply Qle_shift_div_l; [reflexivity|].
        rewrite Qmult_0_l. change 0%Q with (inject_Z 0). rewrite <- Zle_Qle. lia.
      * intros Hle. apply Q.max_l. apply Qle_shift_div_r; [reflexivity|].
        rewrite Qmult_0_l. change 0%Q with (inject_Z 0). rewrite <- Zle_Qle. lia.
    + apply Hfalsy. reflexivity.
Qed.
